(** * InSOC log collection agent (src/agent/agent.py): a shallow embedding

    The agent tails a set of files, turns every line into an event, batches
    the events in a shared buffer, POSTs batches to an ingest endpoint and
    spools the batches it could not deliver.

    Modelling conventions.
    - [time.time()] is a float in the source; the model reads an exact
      rational clock ([Q]).  [int(t)] truncates toward zero.
    - The world of the flusher thread (buffer, spool directory, network,
      clock, self-log) is one record threaded through a small state monad;
      a function that an exception can leave returns a [result].
    - The network is an oracle: the n-th POST of a run gets the n-th reply.
      [requests.post] raises [ValueError] for a timeout that is not
      positive, before anything is sent; every other failure of the
      exchange is a [requests.RequestException].  BACKEND_URL and the
      headers are taken to be well-formed.
    - A spool file is represented by what the code can observe of it: its
      [st_mtime], its [st_size] and the outcome of [json.load] on it.
      [json.dump] followed by [json.load] is taken to return the document
      that was written.
    - The spool directory is a finite map from file names to entries;
      [iterdir()] lists it in the order of the map, and [sorted] is stable.
    - The flusher thread is the only one that touches the files of the
      spool, so the size computation of [spool_batch] is taken not to
      raise.  The directory itself, which [log_setup] creates, may be gone:
      [iterdir()] then raises and nothing can be created in it.
    - The file system seen by a follower is an environment trace: one
      snapshot per iteration of the follower's loop.
    - A followed file is read as [open(path, "r")] reads it on a host whose
      preferred encoding is UTF-8: in chunks of 8192 bytes, decoded
      strictly, with universal newlines.  A Python [str] is represented by
      its UTF-8 bytes. *)

From Stdlib Require Import Ascii String QArith DecimalString Lqa.
From stdpp Require Import gmap strings list fin_maps sorting.

#[local] Set Warnings "-register-all".

Local Open Scope string_scope.
Local Open Scope Z_scope.

(** ** Python primitives *)

Module Py.

(** [int(x)] on a float: truncation toward zero. *)
Definition int (q : Q) : Z := Z.quot (Qnum q) (Z.pos (Qden q)).

(** [str(n)] on an int. *)
Definition str (z : Z) : string := NilZero.string_of_int (Z.to_int z).

Definition is_digit (c : ascii) : bool :=
  let n := nat_of_ascii c in (48 <=? n)%nat && (n <=? 57)%nat.

Definition is_hex (c : ascii) : bool :=
  let n := nat_of_ascii c in
  is_digit c || ((97 <=? n)%nat && (n <=? 102)%nat).

Fixpoint all_chars (p : ascii → bool) (s : string) : bool :=
  match s with
  | EmptyString => true
  | String c r => p c && all_chars p r
  end.

Definition hex_char (d : N) : ascii :=
  ascii_of_N (if (d <? 10)%N then 48 + d else 87 + d)%N.

(** The [n] low hexadecimal digits of [x], most significant first. *)
Fixpoint hex_fixed (n : nat) (x : N) (acc : string) : string :=
  match n with
  | O => acc
  | S k => hex_fixed k (x / 16)%N (String (hex_char (x mod 16)%N) acc)
  end.

(** [uuid.UUID.hex]: 32 lowercase hexadecimal digits. *)
Definition uuid_hex (u : N) : string := hex_fixed 32 u "".

(** [str(uuid.UUID)]: the 8-4-4-4-12 form. *)
Definition uuid_str (u : N) : string :=
  let h := uuid_hex u in
  substring 0 8 h ++ "-" ++ substring 8 4 h ++ "-" ++ substring 12 4 h
    ++ "-" ++ substring 16 4 h ++ "-" ++ substring 20 12 h.

(** [s[:n]] *)
Definition take_str (n : nat) (s : string) : string := substring 0 n s.

(** [s.rstrip("\n")] *)
Fixpoint rstrip_nl (s : string) : string :=
  match s with
  | EmptyString => EmptyString
  | String c r =>
      match rstrip_nl r with
      | EmptyString => if Ascii.eqb c "010" then EmptyString else String c EmptyString
      | r' => String c r'
      end
  end.

(** [x < y] on floats. *)
Definition ltb (x y : Q) : bool := if Qlt_le_dec x y then true else false.

(** [s.isascii()] *)
Definition isascii (s : string) : bool :=
  all_chars (λ c, (nat_of_ascii c <? 128)%nat) s.

End Py.

(** ** JSON documents (what [json.dump] writes and [json.load] returns) *)

Inductive json : Type :=
  | JNull
  | JBool (b : bool)
  | JNum (z : Z)
  | JStr (s : string)
  | JArr (items : list json)
  | JObj (fields : list (string * json)).

Definition opt_json (o : option string) : json :=
  match o with Some s => JStr s | None => JNull end.

(** ** Configuration ([DEFAULT_CONFIG] overridden by the user's file) *)

Record config : Type := {
  BACKEND_URL : string;
  API_TOKEN : option string;
  BATCH_SIZE : Z;
  FLUSH_INTERVAL : Q;
  SPOOL_DIR : string;
  MAX_SPOOL_BYTES : Z;
  CONNECT_TIMEOUT : Q;
  REQUEST_TIMEOUT : Q;
  HOSTNAME : string;
}.

Definition DEFAULT_CONFIG (hostname : string) : config := {|
  BACKEND_URL := "http://127.0.0.1:5050/ingest";
  API_TOKEN := None;
  BATCH_SIZE := 25;
  FLUSH_INTERVAL := 2;
  SPOOL_DIR := "/var/spool/log_collector";
  MAX_SPOOL_BYTES := 200 * 1024 * 1024;
  CONNECT_TIMEOUT := 3;
  REQUEST_TIMEOUT := 5;
  HOSTNAME := hostname;
|}.

(** ** Events *)

Record meta : Type := { ip : option string; user : option string }.

Record event : Type := {
  client_uuid : string;
  ts : Z;
  source : string;
  msg : string;
  ev_meta : meta;
  collector_host : string;
}.

Definition event_json (e : event) : json :=
  JObj [ ("client_uuid", JStr (client_uuid e));
         ("ts", JNum (ts e));
         ("source", JStr (source e));
         ("msg", JStr (msg e));
         ("meta", JObj [ ("ip", opt_json (ip (ev_meta e)));
                         ("user", opt_json (user (ev_meta e))) ]);
         ("collector", JObj [ ("host", JStr (collector_host e)) ]) ].

(** A batch as Python holds it: the list of event dicts. *)
Definition events_json (batch : list event) : json :=
  JArr (event_json <$> batch).

(** ** The world of the flusher thread *)

(** An entry of the spool directory, as [Path.is_file], [Path.stat] and
    [json.load] show it.  [load = None] stands for every exception raised
    while the file is opened and parsed. *)
Record dirent : Type := {
  is_file : bool;
  st_mtime : Q;
  st_size : N;
  load : option json;
}.

Inductive http_outcome : Type :=
  | Response (status_code : Z) (text : string)
  | RequestException.

Record reply : Type := { outcome : http_outcome; elapsed : Q }.

Record request : Type := {
  req_url : string;
  req_headers : list (string * string);
  req_json : json;
  req_timeout : Q * Q;
}.

(** The exceptions that can leave [send_batch_http] and
    [flush_spool_once]. *)
Inductive exn : Type :=
  | InvalidTimeout    (* ValueError: requests.post with a timeout <= 0 *)
  | SpoolDirMissing.  (* FileNotFoundError: iterdir() on a missing SPOOL_DIR *)

(** How a call ends. *)
Inductive result (A : Type) : Type :=
  | Returns (a : A)
  | Raises (e : exn).

Arguments Returns {A} a.
Arguments Raises {A} e.

Inductive log_entry : Type :=
  | LogSpoolSkipped (total : N) (quota : Z)
  | LogSpooled (fname : string)
  | LogSpoolFailed
  | LogHttpStatus (status : Z) (text : string)
  | LogHttpException
  | LogFlushedSpoolFile (fname : string)
  | LogFlushRetryLater (fname : string)
  | LogCorruptSpoolFile (fname : string)
  | LogSentBatch (size : nat)
  | LogFlusherError (e : exn).

Record world : Type := {
  buffer : list event;            (* _buffer, guarded by _buffer_lock *)
  last_flush : Q;                 (* _last_flush *)
  spool : gmap string dirent;     (* the entries of SPOOL_DIR, by name *)
  spool_exists : bool;            (* is SPOOL_DIR there; if not, it has no entries *)
  spool_writable : bool;          (* may files be created in SPOOL_DIR *)
  clock : Q;                      (* what time.time() returns now *)
  shutdown_at : option Q;         (* when _shutdown gets set, if ever *)
  net : nat → reply;              (* the reply to the n-th POST *)
  requests : list request;        (* the POSTs made so far, oldest first *)
  uuids : nat → N;                (* the n-th uuid4() *)
  uuids_drawn : nat;
  logs : list log_entry;          (* the self-log, oldest first *)
  drains : list Q;                (* ghost: clock at each flush_spool_once call *)
}.

Definition set_buffer (b : list event) (w : world) : world :=
  {| buffer := b; last_flush := last_flush w; spool := spool w;
     spool_exists := spool_exists w; spool_writable := spool_writable w;
     clock := clock w;
     shutdown_at := shutdown_at w; net := net w; requests := requests w;
     uuids := uuids w; uuids_drawn := uuids_drawn w; logs := logs w;
     drains := drains w |}.

Definition set_last_flush (t : Q) (w : world) : world :=
  {| buffer := buffer w; last_flush := t; spool := spool w;
     spool_exists := spool_exists w; spool_writable := spool_writable w;
     clock := clock w;
     shutdown_at := shutdown_at w; net := net w; requests := requests w;
     uuids := uuids w; uuids_drawn := uuids_drawn w; logs := logs w;
     drains := drains w |}.

Definition set_spool (s : gmap string dirent) (w : world) : world :=
  {| buffer := buffer w; last_flush := last_flush w; spool := s;
     spool_exists := spool_exists w; spool_writable := spool_writable w;
     clock := clock w;
     shutdown_at := shutdown_at w; net := net w; requests := requests w;
     uuids := uuids w; uuids_drawn := uuids_drawn w; logs := logs w;
     drains := drains w |}.

Definition set_clock (t : Q) (w : world) : world :=
  {| buffer := buffer w; last_flush := last_flush w; spool := spool w;
     spool_exists := spool_exists w; spool_writable := spool_writable w;
     clock := t;
     shutdown_at := shutdown_at w; net := net w; requests := requests w;
     uuids := uuids w; uuids_drawn := uuids_drawn w; logs := logs w;
     drains := drains w |}.

Definition set_requests (r : list request) (w : world) : world :=
  {| buffer := buffer w; last_flush := last_flush w; spool := spool w;
     spool_exists := spool_exists w; spool_writable := spool_writable w;
     clock := clock w;
     shutdown_at := shutdown_at w; net := net w; requests := r;
     uuids := uuids w; uuids_drawn := uuids_drawn w; logs := logs w;
     drains := drains w |}.

Definition set_uuids_drawn (n : nat) (w : world) : world :=
  {| buffer := buffer w; last_flush := last_flush w; spool := spool w;
     spool_exists := spool_exists w; spool_writable := spool_writable w;
     clock := clock w;
     shutdown_at := shutdown_at w; net := net w; requests := requests w;
     uuids := uuids w; uuids_drawn := n; logs := logs w;
     drains := drains w |}.

Definition set_logs (l : list log_entry) (w : world) : world :=
  {| buffer := buffer w; last_flush := last_flush w; spool := spool w;
     spool_exists := spool_exists w; spool_writable := spool_writable w;
     clock := clock w;
     shutdown_at := shutdown_at w; net := net w; requests := requests w;
     uuids := uuids w; uuids_drawn := uuids_drawn w; logs := l;
     drains := drains w |}.

Definition set_drains (d : list Q) (w : world) : world :=
  {| buffer := buffer w; last_flush := last_flush w; spool := spool w;
     spool_exists := spool_exists w; spool_writable := spool_writable w;
     clock := clock w;
     shutdown_at := shutdown_at w; net := net w; requests := requests w;
     uuids := uuids w; uuids_drawn := uuids_drawn w; logs := logs w;
     drains := d |}.

(** What an operation leaves alone besides the spool and the network log. *)
Definition same_memory (w w' : world) : Prop :=
  buffer w' = buffer w ∧ last_flush w' = last_flush w ∧ drains w' = drains w
  ∧ net w' = net w ∧ spool_writable w' = spool_writable w
  ∧ spool_exists w' = spool_exists w.

(** What a directory entry adds to the size of the spool. *)
Definition weight (d : dirent) : N := if is_file d then st_size d else 0%N.

(** ** A state monad over the world *)

Definition M (A : Type) : Type := world → A * world.

#[global] Instance M_ret : MRet M := λ A a w, (a, w).

Definition bind {A B : Type} (c : M A) (k : A → M B) : M B :=
  λ w, let (a, w') := c w in k a w'.

Declare Scope state_scope.
Delimit Scope state_scope with state.
Notation "x ← y ; z" := (bind y (λ x, z)) (only parsing) : state_scope.
Notation "x ;; z" := (bind x (λ _, z)) (only parsing) : state_scope.
Local Open Scope state_scope.

Definition gets {A} (f : world → A) : M A := λ w, (f w, w).
Definition modify (f : world → world) : M unit := λ w, (tt, f w).

(** [log(msg)]: append to the self-log. *)
Definition log (e : log_entry) : M unit :=
  modify (λ w, set_logs (logs w ++ [e]) w).

(** [time.time()] *)
Definition time_time : M Q := gets clock.

(** [time.sleep(d)] *)
Definition time_sleep (d : Q) : M unit :=
  modify (λ w, set_clock (clock w + d)%Q w).

(** [uuid.uuid4()] *)
Definition uuid4 : M N :=
  λ w, (uuids w (uuids_drawn w), set_uuids_drawn (S (uuids_drawn w)) w).

(** [_shutdown.is_set()] *)
Definition shutdown_is_set : M bool :=
  gets (λ w, match shutdown_at w with
             | Some t => negb (Py.ltb (clock w) t)
             | None => false
             end).

(** Calls that an exception can leave: the exception passes through
    what follows. *)
Definition returns {A : Type} (a : A) : M (result A) := λ w, (Returns a, w).

Definition raise {A : Type} (e : exn) : M (result A) := λ w, (Raises e, w).

Definition bind_result {A B : Type} (c : M (result A)) (k : A → M (result B))
  : M (result B) :=
  λ w, match c w with
       | (Returns a, w') => k a w'
       | (Raises e, w') => (Raises e, w')
       end.

Notation "x ←? y ; z" := (bind_result y (λ x, z))
  (at level 20, y at level 100, z at level 200, only parsing) : state_scope.
Notation "x ;;? z" := (bind_result x (λ _, z))
  (at level 100, z at level 200, only parsing, right associativity) : state_scope.

(** A timeout pair that [requests] accepts: both parts positive. *)
Definition valid_timeout (t : Q * Q) : bool := Py.ltb 0 t.1 && Py.ltb 0 t.2.

Definition timeouts_ok (cfg : config) : bool :=
  valid_timeout (CONNECT_TIMEOUT cfg, REQUEST_TIMEOUT cfg).

(** ** Followers: [follow(path)] as a state machine

    The generator is cut at the top of its loops.  Each pass sees one
    snapshot of the environment: the file system around the followed path
    and the shutdown flag. *)

Module Follower.

Record fsys : Type := {
  inodes : gmap nat string;   (* the bytes of every inode *)
  at_path : option nat;       (* the inode the path names, if any *)
  searchable : bool;          (* may the path be resolved at all *)
  readable : bool;            (* may the file be opened for reading *)
}.

Record env : Type := { fs : fsys; shutdown : bool }.

(** An open text file, as [open(path, "r")] returns it: a text wrapper
    that reads the file in chunks and keeps what it has decoded. *)
Record handle : Type := {
  h_ino : nat;        (* the inode the descriptor is bound to *)
  h_pos : nat;        (* the offset of the descriptor *)
  h_part : string;    (* bytes read that do not complete a character yet *)
  h_cr : bool;        (* a carriage return that ended a chunk is held back *)
  h_text : string;    (* decoded text that no [readline] has returned yet *)
}.

(** A handle at an offset, with nothing read ahead. *)
Definition at_offset (i pos : nat) : handle :=
  {| h_ino := i; h_pos := pos; h_part := ""; h_cr := false; h_text := "" |}.

Inductive oserror : Type := FileNotFoundError | PermissionError.

Inductive decode_error : Type := UnicodeDecodeError.

Definition data (f : fsys) (i : nat) : string := default "" (inodes f !! i).

(** [open(path, "r")] *)
Definition open (f : fsys) : oserror + handle :=
  if negb (searchable f) then inl PermissionError
  else match at_path f with
       | None => inl FileNotFoundError
       | Some i =>
           if readable f then inr (at_offset i 0)
           else inl PermissionError
       end.

(** [os.stat(path).st_ino] *)
Definition stat_ino (f : fsys) : oserror + nat :=
  if negb (searchable f) then inl PermissionError
  else match at_path f with
       | None => inl FileNotFoundError
       | Some i => inr i
       end.

(** [os.path.exists(path)]: false on any error. *)
Definition path_exists (f : fsys) : bool :=
  match stat_ino f with inr _ => true | inl _ => false end.

(** [fh.seek(0, os.SEEK_END)]: the wrapper forgets what it had read
    ahead and its decoder is reset. *)
Definition seek_end (f : fsys) (h : handle) : handle :=
  at_offset (h_ino h) (String.length (data f (h_ino h))).

Fixpoint drop_str (n : nat) (s : string) : string :=
  match n, s with
  | O, _ => s
  | S k, EmptyString => EmptyString
  | S k, String _ r => drop_str k r
  end.

(** *** The strict UTF-8 decoder, fed chunk by chunk *)

(** Where the decoder stands: between two characters, or inside one,
    waiting for a byte in [lo, hi] and [more] continuation bytes after it. *)
Inductive utf8_state : Type :=
  | Boundary
  | Inside (lo hi : nat) (more : nat).

Definition within (lo hi b : nat) : bool := (lo <=? b)%nat && (b <=? hi)%nat.

(** The well-formed byte sequences of UTF-8, by their first byte. *)
Definition utf8_lead (b : nat) : option utf8_state :=
  if (b <? 128)%nat then Some Boundary
  else if within 194 223 b then Some (Inside 128 191 0)
  else if (b =? 224)%nat then Some (Inside 160 191 1)
  else if (b =? 237)%nat then Some (Inside 128 159 1)
  else if within 225 239 b then Some (Inside 128 191 1)
  else if (b =? 240)%nat then Some (Inside 144 191 2)
  else if within 241 243 b then Some (Inside 128 191 2)
  else if (b =? 244)%nat then Some (Inside 128 143 2)
  else None.

Definition utf8_step (st : utf8_state) (b : nat) : option utf8_state :=
  match st with
  | Boundary => utf8_lead b
  | Inside lo hi more =>
      if within lo hi b then
        Some (match more with O => Boundary | S k => Inside 128 191 k end)
      else None
  end.

(** [decoder.decode(s)] with [cur] the bytes of the unfinished character:
    the characters that are complete, and the bytes left over; [None] when
    a byte cannot go on (UnicodeDecodeError). *)
Fixpoint utf8_decode (st : utf8_state) (cur : string) (s : string)
  : option (string * string) :=
  match s with
  | EmptyString => Some (EmptyString, cur)
  | String c r =>
      match utf8_step st (nat_of_ascii c) with
      | None => None
      | Some Boundary =>
          match utf8_decode Boundary EmptyString r with
          | Some (out, part) => Some (cur ++ String c out, part)
          | None => None
          end
      | Some st' => utf8_decode st' (cur ++ String c EmptyString) r
      end
  end.

(** *** Universal newlines *)

(** [output.replace("\r\n", "\n").replace("\r", "\n")] *)
Fixpoint translate_newlines (s : string) : string :=
  match s with
  | EmptyString => EmptyString
  | String c r =>
      if Ascii.eqb c "013" then
        match r with
        | String c' r' =>
            if Ascii.eqb c' "010" then String "010" (translate_newlines r')
            else String "010" (translate_newlines r)
        | EmptyString => String "010" EmptyString
        end
      else String c (translate_newlines r)
  end.

(** The text without its last character, and whether that one is a
    carriage return. *)
Fixpoint split_last_cr (s : string) : string * bool :=
  match s with
  | EmptyString => (EmptyString, false)
  | String c EmptyString =>
      if Ascii.eqb c "013" then (EmptyString, true) else (s, false)
  | String c r => let (r', cr) := split_last_cr r in (String c r', cr)
  end.

Definition nonempty (s : string) : bool :=
  match s with EmptyString => false | String _ _ => true end.

(** [IncrementalNewlineDecoder.decode] after the bytes are decoded: a
    carriage return held back is put in front, one that ends the text is
    held back unless the input is over, the rest is translated. *)
Definition newline_decode (cr : bool) (output : string) (final : bool)
  : string * bool :=
  let put := cr && (nonempty output || final) in
  let output1 := if put then String "013" output else output in
  let cr1 := if put then false else cr in
  if final then (translate_newlines output1, cr1)
  else
    let (body, held) := split_last_cr output1 in
    (translate_newlines body, if held then true else cr1).

(** *** [fh.readline()] *)

(** The text wrapper asks the file for this many bytes at a time. *)
Definition CHUNK_SIZE : nat := 8 * 1024.

(** The first line of the text with its newline, and what follows it;
    [None] when the text holds no newline. *)
Fixpoint cut_line (s : string) : option (string * string) :=
  match s with
  | EmptyString => None
  | String c r =>
      if Ascii.eqb c "010" then Some (String c EmptyString, r)
      else match cut_line r with
           | Some (line, rest) => Some (String c line, rest)
           | None => None
           end
  end.

(** The loop of [readline]: a line that is complete in the decoded text is
    handed out; otherwise the next chunk is read, decoded and appended.
    At the end of the file the decoder is flushed: an unfinished character
    raises, a carriage return held back becomes a newline, and what is
    there is returned, newline or not.  Every chunk that is not empty
    moves the offset, so [fuel] bytes of file need [fuel] rounds at most. *)
Fixpoint readline_loop (fuel : nat) (f : fsys) (h : handle)
  : decode_error + string * handle :=
  match cut_line (h_text h) with
  | Some (line, rest) =>
      inr (line, {| h_ino := h_ino h; h_pos := h_pos h; h_part := h_part h;
                    h_cr := h_cr h; h_text := rest |})
  | None =>
      let chunk := substring (h_pos h) CHUNK_SIZE (data f (h_ino h)) in
      match chunk, fuel with
      | String _ _, S k =>
          match utf8_decode Boundary EmptyString (h_part h ++ chunk) with
          | Some (chars, part) =>
              let (out, cr) := newline_decode (h_cr h) chars false in
              readline_loop k f
                {| h_ino := h_ino h;
                   h_pos := h_pos h + String.length chunk;
                   h_part := part; h_cr := cr; h_text := h_text h ++ out |}
          | None => inl UnicodeDecodeError
          end
      | _, _ =>
          match h_part h with
          | EmptyString =>
              inr (h_text h ++ (newline_decode (h_cr h) EmptyString true).1,
                   at_offset (h_ino h) (h_pos h))
          | String _ _ => inl UnicodeDecodeError
          end
      end
  end.

Definition readline (f : fsys) (h : handle) : decode_error + string * handle :=
  readline_loop (String.length (data f (h_ino h)) - h_pos h) f h.

Inductive flog : Type :=
  | LogWaitingToAppear
  | LogFailedOpenAfterWait
  | LogDetectedRotation
  | LogFailedReopen.

Inductive effect : Type :=
  | Yield (line : string)
  | Sleep (d : Q)
  | Log (e : flog).

Inductive exit : Type :=
  | Stopped     (* the main loop saw _shutdown set *)
  | GaveUp      (* the [return] after the failed open that ends the wait *)
  | Raised.     (* an exception left the generator *)

Inductive state : Type :=
  | Start
  | Waiting
  | Running (fh : handle) (current_inode : option nat)
  | Exited (why : exit).

(** Lines 213-217: seek to the end, record the inode. *)
Definition opened (f : fsys) (h : handle) : state :=
  Running (seek_end f h) (Some (h_ino h)).

(** Lines 207-211: the open that follows the wait loop. *)
Definition open_after_wait (f : fsys) (slept : list effect) : state * list effect :=
  match open f with
  | inr h => (opened f h, slept)
  | inl _ => (Exited GaveUp, (slept ++ [Log LogFailedOpenAfterWait])%list)
  end.

(** Lines 225-242: the rotation probe after an empty read. *)
Definition probe (f : fsys) (fh : handle) (current_inode : option nat)
  : state * list effect :=
  match stat_ino f with
  | inl FileNotFoundError => (Running fh current_inode, [Sleep 0.2; Sleep 1])
  | inl PermissionError => (Exited Raised, [Sleep 0.2])
  | inr st_ino =>
      match current_inode with
      | Some c =>
          if bool_decide (st_ino ≠ c) then
            match open f with
            | inr new_fh =>
                (Running (seek_end f new_fh) (Some (h_ino new_fh)),
                 [Sleep 0.2; Log LogDetectedRotation])
            | inl _ =>
                (Running fh current_inode,
                 [Sleep 0.2; Log LogDetectedRotation; Log LogFailedReopen; Sleep 1])
            end
          else (Running fh current_inode, [Sleep 0.2])
      | None => (Running fh current_inode, [Sleep 0.2])
      end
  end.

Definition step (e : env) (st : state) : state * list effect :=
  match st with
  | Start =>
      match open (fs e) with
      | inr h => (opened (fs e) h, [])
      | inl FileNotFoundError => (Waiting, [Log LogWaitingToAppear])
      | inl PermissionError => (Exited Raised, [])
      end
  | Waiting =>
      if shutdown e then open_after_wait (fs e) []
      else if path_exists (fs e) then open_after_wait (fs e) [Sleep 2]
      else (Waiting, [Sleep 2])
  | Running fh current_inode =>
      if shutdown e then (Exited Stopped, [])
      else
        match readline (fs e) fh with
        | inl UnicodeDecodeError => (Exited Raised, [])
        | inr (EmptyString, fh') => probe (fs e) fh' current_inode
        | inr (line, fh') =>
            (Running fh' current_inode, [Yield (Py.rstrip_nl line)])
        end
  | Exited _ => (st, [])
  end.

Fixpoint run (trace : list env) (st : state) : state * list effect :=
  match trace with
  | [] => (st, [])
  | e :: rest =>
      let (st1, out1) := step e st in
      let (st2, out2) := run rest st1 in
      (st2, (out1 ++ out2)%list)
  end.

(** [follow(path)] against an environment trace. *)
Definition follow (trace : list env) : state * list effect := run trace Start.

Definition yields (out : list effect) : list string :=
  omap (λ x, match x with Yield l => Some l | _ => None end) out.

(** Conditions on one snapshot. *)

(** Shutdown is not set. *)
Definition quiet (e : env) : Prop := shutdown e = false.

(** The path can be resolved: [os.stat] raises nothing but file-not-found. *)
Definition resolvable (e : env) : Prop := searchable (fs e) = true.



(** Conditions on a handle. *)

(** The decoder holds nothing back. *)
Definition clean (h : handle) : Prop := h_part h = "" ∧ h_cr h = false.

(** Nothing is read ahead either. *)
Definition drained (h : handle) : Prop := clean h ∧ h_text h = "".


(** What the handle has still to return of the file as it is: the text
    it has read ahead, and the bytes after its offset. *)
Definition unread (f : fsys) (h : handle) : string :=
  h_text h ++ drop_str (h_pos h) (data f (h_ino h)).

End Follower.

(** ** The agent: spool, transport, flusher *)

Section Agent.

(** [_cfg], fixed once [main] has loaded it. *)
Variable cfg : config.

(** [extract_meta]: the two regular-expression searches on a line. *)
Variable extract_meta : string → meta.

(** The number of bytes [json.dump] writes for a document. *)
Variable dump_size : json → N.

(** *** Spool directory *)

(** [sum(p.stat().st_size for p in Path(SPOOL_DIR).glob("*") if p.is_file())] *)
Definition spool_total (s : gmap string dirent) : N :=
  map_fold (λ _ d acc, if is_file d then (st_size d + acc)%N else acc) 0%N s.

(** [open(fname, "w")] followed by [json.dump(doc, fh)].  The open fails
    when the directory is missing or refuses new files, or the name is not
    a regular file; nothing is created then. *)
Definition write_json (fname : string) (doc : json) : M bool := λ w,
  let blocked :=
    match spool w !! fname with
    | Some d => negb (is_file d)
    | None => false
    end in
  if spool_exists w && spool_writable w && negb blocked then
    let d := {| is_file := true; st_mtime := clock w;
                st_size := dump_size doc; load := Some doc |} in
    (true, set_spool (<[fname := d]> (spool w)) w)
  else (false, w).

(** [f"batch-{int(time.time())}-{uuid.uuid4().hex}.json"] *)
Definition batch_file_name (t : Q) (u : N) : string :=
  "batch-" ++ Py.str (Py.int t) ++ "-" ++ Py.uuid_hex u ++ ".json".

Definition spool_batch (batch : json) : M unit :=
  total_spool ← gets (λ w, spool_total (spool w));
  if MAX_SPOOL_BYTES cfg <? Z.of_N total_spool then
    log (LogSpoolSkipped total_spool (MAX_SPOOL_BYTES cfg))
  else
    t ← time_time;
    u ← uuid4;
    ok ← write_json (batch_file_name t u) batch;
    if ok then log (LogSpooled (batch_file_name t u)) else log LogSpoolFailed.

(** *** Transport *)

(** [requests.post]: a timeout that is not positive raises before
    anything is sent; otherwise the request is recorded, the oracle
    answers, and the clock advances by the time the exchange took. *)
Definition requests_post (rq : request) : M (result reply) := λ w,
  if valid_timeout (req_timeout rq) then
    let r := net w (length (requests w)) in
    (Returns r,
     set_clock (clock w + elapsed r)%Q (set_requests (requests w ++ [rq]) w))
  else (Raises InvalidTimeout, w).

Definition auth_headers : list (string * string) :=
  match API_TOKEN cfg with
  | Some tok => if String.eqb tok "" then [] else [("Authorization", "Bearer " ++ tok)]
  | None => []
  end.

Definition payload_of (batch : json) : json := JObj [("events", batch)].

Definition success_status (status : Z) : bool :=
  (status =? 200) || (status =? 201) || (status =? 202).

Definition is_success (o : http_outcome) : bool :=
  match o with
  | Response status _ => success_status status
  | RequestException => false
  end.

(** The POST that [send_batch_http] builds for a batch. *)
Definition build_request (batch : json) : request :=
  let headers := ("Content-Type", "application/json") :: auth_headers in
  let payload := payload_of batch in
  {| req_url := BACKEND_URL cfg; req_headers := headers; req_json := payload;
     req_timeout := (CONNECT_TIMEOUT cfg, REQUEST_TIMEOUT cfg) |}.

(** Only [requests.RequestException] is caught (line 147). *)
Definition send_batch_http (batch : json) : M (result bool) :=
  resp ←? requests_post (build_request batch);
  match outcome resp with
  | Response status text =>
      if success_status status then returns true
      else log (LogHttpStatus status (Py.take_str 200 text));; returns false
  | RequestException => log LogHttpException;; returns false
  end.

(** A document of the spool was delivered: some POST made since [w0]
    carried it and got a success status. *)
Definition acknowledged (w0 w' : world) (doc : json) : Prop :=
  ∃ i : nat, (length (requests w0) ≤ i)%nat
    ∧ requests w' !! i = Some (build_request doc)
    ∧ is_success (outcome (net w0 i)) = true.

(** *** Spool drain *)

(** Stable insertion by [st_mtime], as [sorted(..., key=...)] orders. *)
Fixpoint insert_by_mtime (x : string * dirent) (l : list (string * dirent))
  : list (string * dirent) :=
  match l with
  | [] => [x]
  | y :: l' =>
      if Py.ltb (st_mtime y.2) (st_mtime x.2) then y :: insert_by_mtime x l'
      else x :: y :: l'
  end.

Definition sort_by_mtime (l : list (string * dirent)) : list (string * dirent) :=
  foldr insert_by_mtime [] l.

(** [sorted([p for p in Path(SPOOL_DIR).iterdir() if p.is_file()], key=mtime)] *)
Definition spool_files (s : gmap string dirent) : list string :=
  (sort_by_mtime (filter (λ p, is_file p.2 = true) (map_to_list s))).*1.

(** [with open(f) as fh: batch = json.load(fh)]; [None] when it raises. *)
Definition read_json (fname : string) : M (option json) :=
  gets (λ w, spool w !! fname ≫= load).

(** [f.unlink()] *)
Definition unlink (fname : string) : M unit :=
  modify (λ w, set_spool (delete fname (spool w)) w).

(** The loop of lines 153-169.  Its [try] holds the send as well as the
    read: whatever either raises, the file is logged as corrupt and
    removed, and the loop goes on. *)
Fixpoint flush_spool_files (files : list string) : M bool :=
  match files with
  | [] => mret true
  | f :: rest =>
      doc ← read_json f;
      match doc with
      | Some batch =>
          sent ← send_batch_http batch;
          match sent with
          | Returns true =>
              unlink f;; log (LogFlushedSpoolFile f);; flush_spool_files rest
          | Returns false =>
              log (LogFlushRetryLater f);; mret false
          | Raises _ =>
              log (LogCorruptSpoolFile f);; unlink f;; flush_spool_files rest
          end
      | None =>
          log (LogCorruptSpoolFile f);; unlink f;; flush_spool_files rest
      end
  end.

(** Line 152 stands outside every [try]: listing a directory that is not
    there raises. *)
Definition flush_spool_once : M (result bool) :=
  modify (λ w, set_drains (drains w ++ [clock w]) w);;
  listed ← gets spool_exists;
  if listed then
    files ← gets (λ w, spool_files (spool w));
    ok ← flush_spool_files files;
    returns ok
  else raise SpoolDirMissing.

(** *** Buffer *)

Definition make_event (line src : string) : M event :=
  u ← uuid4;
  t ← time_time;
  mret {| client_uuid := Py.uuid_str u; ts := Py.int t; source := src;
          msg := line; ev_meta := extract_meta line;
          collector_host := HOSTNAME cfg |}.

Definition queue_line (line src : string) : M unit :=
  ev ← make_event line src;
  modify (λ w, set_buffer (buffer w ++ [ev]) w).

(** [follower_thread(path)]: every yielded line is queued; the sleeps of
    the generator pass on the thread's clock. *)
Definition perform (path : string) (x : Follower.effect) : M unit :=
  match x with
  | Follower.Yield line => queue_line line path
  | Follower.Sleep d => time_sleep d
  | Follower.Log _ => mret tt
  end.

Fixpoint perform_all (path : string) (out : list Follower.effect) : M unit :=
  match out with
  | [] => mret tt
  | x :: rest => perform path x;; perform_all path rest
  end.

Definition follower_thread (path : string) (trace : list Follower.env)
  : M Follower.state :=
  let (st, out) := Follower.follow trace in
  perform_all path out;; mret st.

(** The [with _buffer_lock:] block of [attempt_flush_buffer]: [None] for
    either early [return], otherwise the extracted batch. *)
Definition locked_drain (force : bool) : M (option (list event)) := λ w,
  match buffer w with
  | [] => (None, w)
  | _ =>
      if negb force
         && (Z.of_nat (length (buffer w)) <? BATCH_SIZE cfg)
         && Py.ltb (clock w - last_flush w)%Q (FLUSH_INTERVAL cfg)
      then (None, w)
      else (Some (buffer w), set_buffer [] w)
  end.

(** What [attempt_flush_buffer] does once the lock is released (lines
    181-188).  No [try] surrounds it: an exception of the drain or of the
    send leaves the function with the batch in hand. *)
Definition flush_batch (batch : list event) : M (result unit) :=
  flush_spool_once;;?
  ok ←? send_batch_http (events_json batch);
  (if negb ok then spool_batch (events_json batch)
   else log (LogSentBatch (length batch)));;
  t ← time_time;
  modify (set_last_flush t);;
  returns tt.

Definition attempt_flush_buffer (force : bool) : M (result unit) :=
  drained ← locked_drain force;
  match drained with
  | None => returns tt
  | Some batch => flush_batch batch
  end.

(** *** Flusher thread *)

(** The [try] block of the loop (lines 259-262). *)
Definition flusher_try : M (result unit) :=
  attempt_flush_buffer false;;?
  t ← time_time;
  if Py.int t `mod` 30 =? 0 then (flush_spool_once;;? returns tt)
  else returns tt.

(** One pass through the body of the [while] loop of [background_flusher]. *)
Definition flusher_tick : M unit :=
  r ← flusher_try;
  (match r with
   | Returns _ => mret tt
   | Raises e => log (LogFlusherError e)
   end);;
  time_sleep 0.5.

(** The [while not _shutdown.is_set()] loop, at most [fuel] passes;
    [true] when the loop was left because shutdown was observed. *)
Fixpoint flusher_loop (fuel : nat) : M bool :=
  match fuel with
  | O => shutdown_is_set
  | S k =>
      stop ← shutdown_is_set;
      if stop then mret true else flusher_tick;; flusher_loop k
  end.

(** The final flush (lines 267-268) is not guarded. *)
Definition background_flusher (fuel : nat) : M (result bool) :=
  stopped ← flusher_loop fuel;
  if stopped then
    attempt_flush_buffer true;;?
    flush_spool_once;;?
    returns true
  else returns false.

End Agent.

(** ** The flush trigger the specification gives for [drain_if_ready] *)

Definition flush_due (min_size : Z) (max_age : Q) (w : world) : Prop :=
  min_size ≤ Z.of_nat (length (buffer w))
  ∨ (max_age <= clock w - last_flush w)%Q.

(** ** The spool file name the specification asks for *)

Module SpoolFormat.

(** The longest prefix whose characters satisfy [p], and the rest. *)
Fixpoint span (p : ascii → bool) (s : string) : string * string :=
  match s with
  | EmptyString => (EmptyString, EmptyString)
  | String c r =>
      if p c then let (a, b) := span p r in (String c a, b)
      else (EmptyString, s)
  end.

Fixpoint strip_prefix (pre s : string) : option string :=
  match pre, s with
  | EmptyString, _ => Some s
  | String a pre', String b s' =>
      if Ascii.eqb a b then strip_prefix pre' s' else None
  | String _ _, EmptyString => None
  end.

Definition nonempty (s : string) : bool :=
  match s with EmptyString => false | String _ _ => true end.

(** [batch-<unix-secs>-<hex-token>.json]: decimal digits, then lowercase
    hexadecimal digits, both non-empty. *)
Definition spec_batch_name (s : string) : bool :=
  match strip_prefix "batch-" s with
  | Some r =>
      let (secs, r1) := span Py.is_digit r in
      match strip_prefix "-" r1 with
      | Some r2 =>
          let (token, r3) := span Py.is_hex r2 in
          nonempty secs && nonempty token && String.eqb r3 ".json"
      | None => false
      end
  | None => false
  end.

End SpoolFormat.

(** ** Histories of spool operations *)

Section SpoolHistory.

Variable cfg : config.
Variable dump_size : json → N.

Inductive spool_op : Type :=
  | OpWrite (batch : json)       (* spool_batch(batch) *)
  | OpDrain                      (* flush_spool_once() *)
  | OpDelete (fname : string).   (* an unlink of one spool file *)

(** The size of the batch last written: [spool_batch] logs exactly one
    entry, and [LogSpooled] is the one that follows a write. *)
Definition last_written (batch : json) (after : world) (previous : N) : N :=
  match last (logs after) with
  | Some (LogSpooled _) => dump_size batch
  | _ => previous
  end.

Fixpoint run_ops (ops : list spool_op) (w : world) (written : N) : world * N :=
  match ops with
  | [] => (w, written)
  | OpWrite batch :: rest =>
      let w' := (spool_batch cfg dump_size batch w).2 in
      run_ops rest w' (last_written batch w' written)
  | OpDrain :: rest => run_ops rest (flush_spool_once cfg w).2 written
  | OpDelete fname :: rest => run_ops rest (unlink fname w).2 written
  end.

End SpoolHistory.

(** ** The lines of a text, as successive [readline] calls cut it *)

Module FollowerLines.

(** Every line without its newline; a last fragment that no newline ends
    is a line of its own. *)
Fixpoint split_lines (s : string) : list string :=
  match s with
  | EmptyString => []
  | String c r =>
      if Ascii.eqb c "010" then EmptyString :: split_lines r
      else match split_lines r with
           | [] => [String c EmptyString]
           | l :: ls => String c l :: ls
           end
  end.

(** The first line of a plain text: up to and including the first newline,
    or all of it. *)
Fixpoint first_line (s : string) : string :=
  match s with
  | EmptyString => EmptyString
  | String c r =>
      if Ascii.eqb c "010" then String c EmptyString
      else String c (first_line r)
  end.

(** No newline occurs in the text. *)
Fixpoint one_line (s : string) : bool :=
  match s with
  | EmptyString => true
  | String c r => negb (Ascii.eqb c "010") && one_line r
  end.

(** Plain text: ASCII characters, no carriage return. *)
Definition plain (s : string) : bool :=
  Py.all_chars
    (λ c, (nat_of_ascii c <? 128)%nat && negb (Ascii.eqb c "013")) s.

End FollowerLines.

(** ** The order of a drain *)

Module SpoolOrder.

(** Entry [x] is not younger than entry [y]. *)
Definition by_mtime (x y : string * dirent) : Prop :=
  (st_mtime x.2 <= st_mtime y.2)%Q.

(** File [a] is not younger than file [b] in directory [s]. *)
Definition mtime_le (s : gmap string dirent) (a b : string) : Prop :=
  ∀ da db, s !! a = Some da → s !! b = Some db →
           (st_mtime da <= st_mtime db)%Q.

(** The documents a drain reads from the files [files] of [s], in order;
    the files that do not load are left out. *)
Definition loadable (s : gmap string dirent) (files : list string) : list json :=
  omap (λ name, s !! name ≫= load) files.

(** From the [n]-th POST on, every reply is a success status. *)
Definition endpoint_up (w : world) : Prop :=
  ∀ i, (length (requests w) ≤ i)%nat →
       is_success (outcome (net w i)) = true.

End SpoolOrder.

(** ** Calls of [queue_line] from several followers, one after the other *)

Section Interleaving.

Variable cfg : config.
Variable extract_meta : string → meta.

(** Each item is a line and the path of the follower that read it. *)
Definition queue_all (items : list (string * string)) (w : world) : world :=
  foldl (λ v item, (queue_line cfg extract_meta item.1 item.2 v).2) w items.

(** What [make_event] stamps on an event made from the [k]-th uuid. *)
Definition stamped (w : world) (k : nat) (ev : event) : Prop :=
  client_uuid ev = Py.uuid_str (uuids w k)
  ∧ collector_host ev = HOSTNAME cfg
  ∧ ev_meta ev = extract_meta (msg ev).

End Interleaving.

(** A text without its dashes. *)
Fixpoint undash (s : string) : string :=
  match s with
  | EmptyString => EmptyString
  | String c r => if Ascii.eqb c "-" then undash r else String c (undash r)
  end.

(** The next [n] results of [uuid4()] are 128-bit numbers, no two equal. *)
Definition fresh_uuids (w : world) (n : nat) : Prop :=
  ∀ i j, (i < n)%nat → (j < n)%nat →
    (uuids w (uuids_drawn w + i) < 2 ^ 128)%N
    ∧ (uuids w (uuids_drawn w + i) = uuids w (uuids_drawn w + j) → i = j).

(** ** Conditions on a run of the flusher *)

(** No POST takes a negative time. *)
Definition replies_take_time (w : world) : Prop :=
  ∀ i, (0 <= elapsed (net w i))%Q.

(** What a pass of the flusher keeps (the oracles, the shutdown time) and
    what it can only add to (the clock, the POSTs made). *)
Definition same_run (w w' : world) : Prop :=
  net w' = net w ∧ shutdown_at w' = shutdown_at w
  ∧ (replies_take_time w → (clock w <= clock w')%Q)
  ∧ ∃ more, requests w' = (requests w ++ more)%list.

Section FlusherPass.

Variable cfg : config.

(** The part of a pass after an [attempt_flush_buffer] that returned: the
    gated drain, the log entry if that one raises, and the sleep (lines
    261-265). *)
Definition rest_of_tick (v : world) : world :=
  (time_sleep 0.5
     (if Py.int (clock v) `mod` 30 =? 0 then
        match flush_spool_once cfg v with
        | (Returns _, v') => v'
        | (Raises e, v') => (log (LogFlusherError e) v').2
        end
      else v)).2.

End FlusherPass.

(** ** [extract_meta]: the two regular expressions *)

Module Re.

(** Regular expressions, as far as [IP_RE] and [USER_RE] use them. *)
Inductive re : Type :=
  | Eps                          (* the empty pattern *)
  | Lit (c : ascii)              (* one given character *)
  | Class (p : ascii → bool)     (* one character of a class: \d, [..] *)
  | Seq (r1 r2 : re)             (* r1r2 *)
  | Alt (r1 r2 : re)             (* r1|r2, r1 tried first *)
  | Opt (r : re)                 (* r?, greedy *)
  | Plus (p : ascii → bool)      (* [..]+, greedy *)
  | WordB.                       (* \b *)

Definition in_range (lo hi : nat) (c : ascii) : bool :=
  (lo <=? nat_of_ascii c)%nat && (nat_of_ascii c <=? hi)%nat.

(** \d *)
Definition digit (c : ascii) : bool := in_range 48 57 c.

(** \w *)
Definition word (c : ascii) : bool :=
  in_range 97 122 c || in_range 65 90 c || digit c || Ascii.eqb c "_".

(** [\b] holds where a word character meets a non-word character or an
    end of the text. *)
Definition at_boundary (prev : option ascii) (s : string) : bool :=
  xorb (from_option word false prev)
       (match s with String c _ => word c | EmptyString => false end).

(** [p+] once a first character [last] has been taken: as many more as
    possible, giving them back one by one while the rest fails. *)
Fixpoint plus_loop {R : Type} (p : ascii → bool) (last : ascii) (s : string)
  (k : option ascii → string → option R) : option R :=
  match s with
  | String c s' =>
      if p c then
        match plus_loop p c s' k with
        | Some res => Some res
        | None => k (Some last) s
        end
      else k (Some last) s
  | EmptyString => k (Some last) s
  end.

(** Backtracking match of [r] at the head of [s], [prev] being the
    character before it; [k] is what remains to be matched. *)
Fixpoint matches {R : Type} (r : re) (prev : option ascii) (s : string)
  (k : option ascii → string → option R) : option R :=
  match r with
  | Eps => k prev s
  | Lit c =>
      match s with
      | String x s' => if Ascii.eqb x c then k (Some x) s' else None
      | EmptyString => None
      end
  | Class p =>
      match s with
      | String x s' => if p x then k (Some x) s' else None
      | EmptyString => None
      end
  | Seq r1 r2 => matches r1 prev s (λ prev' s', matches r2 prev' s' k)
  | Alt r1 r2 =>
      match matches r1 prev s k with
      | Some res => Some res
      | None => matches r2 prev s k
      end
  | Opt r1 =>
      match matches r1 prev s k with
      | Some res => Some res
      | None => k prev s
      end
  | Plus p =>
      match s with
      | String x s' => if p x then plus_loop p x s' k else None
      | EmptyString => None
      end
  | WordB => if at_boundary prev s then k prev s else None
  end.

(** [pattern.search]: the first position, from the left, where [f]
    finds a match. *)
Fixpoint search_from {R : Type} (f : option ascii → string → option R)
  (prev : option ascii) (s : string) : option R :=
  match f prev s with
  | Some res => Some res
  | None =>
      match s with
      | String c s' => search_from f (Some c) s'
      | EmptyString => None
      end
  end.

(** The text that was matched, given where the match began and what is left. *)
Definition matched (from rest : string) : string :=
  substring 0 (String.length from - String.length rest) from.

(** A literal text. *)
Fixpoint lits (s : string) : re :=
  match s with
  | EmptyString => Eps
  | String c r => Seq (Lit c) (lits r)
  end.

(** [25[0-5]|2[0-4]\d|1?\d{1,2}] *)
Definition octet : re :=
  Alt (Seq (Lit "2") (Seq (Lit "5") (Class (in_range 48 53))))
    (Alt (Seq (Lit "2") (Seq (Class (in_range 48 52)) (Class digit)))
       (Seq (Opt (Lit "1")) (Seq (Class digit) (Opt (Class digit))))).

(** [\b(?:(?:octet)\.){3}(?:octet)\b] *)
Definition IP_RE : re :=
  Seq WordB
    (Seq (Seq octet (Lit "."))
       (Seq (Seq octet (Lit "."))
          (Seq (Seq octet (Lit ".")) (Seq octet WordB)))).

(** [[A-Za-z0-9_\-\.]] *)
Definition user_char (c : ascii) : bool :=
  in_range 65 90 c || in_range 97 122 c || in_range 48 57 c
  || Ascii.eqb c "_" || Ascii.eqb c "-" || Ascii.eqb c ".".

(** [(?:user=|for user |user )] *)
Definition user_prefix : re :=
  Alt (lits "user=") (Alt (lits "for user ") (lits "user ")).

(** [(?:user=|for user |user )([A-Za-z0-9_\-\.]+)] *)
Definition USER_RE : re := Seq user_prefix (Plus user_char).

(** [IP_RE.search(line)], then [group(0)]. *)
Definition search_ip (line : string) : option string :=
  search_from
    (λ prev s, matches IP_RE prev s (λ _ rest, Some (matched s rest)))
    None line.

(** [USER_RE.search(line)], then [group(1)]: the match of [USER_RE], with
    the text of its one group kept. *)
Definition search_user (line : string) : option string :=
  search_from
    (λ prev s,
       matches user_prefix prev s
         (λ prev1 s1,
            matches (Plus user_char) prev1 s1
              (λ _ s2, Some (matched s1 s2))))
    None line.

Definition extract_meta (line : string) : meta :=
  {| ip := search_ip line; user := search_user line |}.

(** The text holds ASCII characters only; on such a line a Python [str]
    and its bytes are the same thing. *)
Definition ascii_text (s : string) : bool :=
  Py.all_chars (λ c, (nat_of_ascii c <? 128)%nat) s.

(** The value of a decimal numeral. *)
Definition dec_value (s : string) : nat :=
  let fix go (acc : nat) (s : string) : nat :=
    match s with
    | EmptyString => acc
    | String c r => go (10 * acc + (nat_of_ascii c - 48))%nat r
    end in
  go 0%nat s.

(** One part of a dotted quad: one to three digits, at most 255. *)
Definition octet_text (s : string) : Prop :=
  Py.all_chars digit s = true
  ∧ (1 ≤ String.length s ≤ 3)%nat
  ∧ (dec_value s ≤ 255)%nat.

End Re.

(** ** What the regular expressions denote *)

Module ReDen.
Import Re.

(** The last character of [pre], or [prev] when [pre] is empty. *)
Fixpoint end_of (prev : option ascii) (pre : string) : option ascii :=
  match pre with
  | EmptyString => prev
  | String c r => end_of (Some c) r
  end.

(** [r] can take the input from [s], after [prev], to [s'], after [prev']. *)
Fixpoint den (r : re) (prev : option ascii) (s : string)
  (prev' : option ascii) (s' : string) : Prop :=
  match r with
  | Eps => prev' = prev ∧ s' = s
  | Lit c => s = String c s' ∧ prev' = Some c
  | Class p => ∃ x, p x = true ∧ s = String x s' ∧ prev' = Some x
  | Seq r1 r2 => ∃ pm sm, den r1 prev s pm sm ∧ den r2 pm sm prev' s'
  | Alt r1 r2 => den r1 prev s prev' s' ∨ den r2 prev s prev' s'
  | Opt r1 => den r1 prev s prev' s' ∨ (prev' = prev ∧ s' = s)
  | Plus p =>
      ∃ x txt, p x = true ∧ Py.all_chars p txt = true
               ∧ s = String x txt ++ s' ∧ prev' = end_of (Some x) txt
  | WordB => at_boundary prev s = true ∧ prev' = prev ∧ s' = s
  end.

(** The character next to a text is no word character, if there is one. *)
Definition no_word_before (pre : string) : Prop :=
  from_option word false (end_of None pre) = false.

Definition no_word_after (post : string) : Prop :=
  match post with String c _ => word c = false | EmptyString => True end.

Definition no_user_char_after (post : string) : Prop :=
  match post with String c _ => user_char c = false | EmptyString => True end.

End ReDen.

(** * Scenarios *)

Module FollowerScenarios.
Import Follower.

Definition nl : string := String "010" EmptyString.

Definition disk (files : list (nat * string)) (linked : option nat) (rd : bool) : env :=
  {| fs := {| inodes := list_to_map files; at_path := linked;
              searchable := true; readable := rd |};
     shutdown := false |}.

Definition old_log : string := "w1" ++ nl ++ "w2" ++ nl.

(** The file is opened empty; [w1] and [w2] are written and read; the
    path is rotated to inode 2, which receives [w3] before the follower's
    next probe and [w4] after it. *)
Definition rotation_trace : list env :=
  [ disk [(1, "")] (Some 1) true;
    disk [(1, old_log)] (Some 1) true;
    disk [(1, old_log)] (Some 1) true;
    disk [(1, old_log)] (Some 1) true;
    disk [(1, old_log); (2, "w3" ++ nl)] (Some 2) true;
    disk [(1, old_log); (2, "w3" ++ nl ++ "w4" ++ nl)] (Some 2) true;
    disk [(1, old_log); (2, "w3" ++ nl ++ "w4" ++ nl)] (Some 2) true ]%nat.




(** Five bytes are followed to their end; the file is then cut to
    nothing in place and the line [c] is written to it. *)
Definition truncation_trace : list env :=
  [ disk [(1, "aaaa" ++ nl)] (Some 1) true;
    disk [(1, "aaaa" ++ nl)] (Some 1) true;
    disk [(1, "c" ++ nl)] (Some 1) true;
    disk [(1, "c" ++ nl)] (Some 1) true ]%nat.

End FollowerScenarios.

Module AgentScenarios.

Definition cfg0 : config := DEFAULT_CONFIG "host-1".

(** A small quota, to see the spool fill up. *)
Definition cfg_small : config := {|
  BACKEND_URL := BACKEND_URL cfg0; API_TOKEN := None;
  BATCH_SIZE := 1; FLUSH_INTERVAL := 2;
  SPOOL_DIR := SPOOL_DIR cfg0; MAX_SPOOL_BYTES := 150;
  CONNECT_TIMEOUT := 3; REQUEST_TIMEOUT := 5; HOSTNAME := "host-1";
|}.

(** The user's file sets REQUEST_TIMEOUT to 0. *)
Definition cfg_no_timeout : config := {|
  BACKEND_URL := BACKEND_URL cfg0; API_TOKEN := None;
  BATCH_SIZE := 25; FLUSH_INTERVAL := 2;
  SPOOL_DIR := SPOOL_DIR cfg0; MAX_SPOOL_BYTES := MAX_SPOOL_BYTES cfg0;
  CONNECT_TIMEOUT := 3; REQUEST_TIMEOUT := 0; HOSTNAME := "host-1";
|}.

Definition no_meta (line : string) : meta := {| ip := None; user := None |}.

Definition flat_size (doc : json) : N := 100%N.

Definition accepted : reply :=
  {| outcome := Response 200 "ok"; elapsed := 0.1 |}.
Definition unreachable : reply :=
  {| outcome := RequestException; elapsed := 3 |}.
Definition slow_accept : reply :=
  {| outcome := Response 202 "queued"; elapsed := 1.2 |}.

Definition start_world (t : Q) (replies : nat → reply) : world :=
  {| buffer := []; last_flush := t; spool := ∅; spool_exists := true;
     spool_writable := true; clock := t; shutdown_at := None; net := replies; requests := [];
     uuids := λ n, N.of_nat (1000 + n); uuids_drawn := 0; logs := [];
     drains := [] |}.

(** One line is queued at t = 1000 and the endpoint is down; 2.5 s later
    the flusher runs. *)
Definition offline_world : world :=
  (time_sleep 2.5
     (queue_line cfg0 no_meta "hello" "/var/log/syslog"
        (start_world 1000 (λ _, unreachable))).2).2.



(** A batch was spooled at t = 1005; the endpoint is up again. *)
Definition spooled_world : world :=
  set_spool
    {[ "batch-1005-000000000000000000000000000003e9.json" :=
         {| is_file := true; st_mtime := 1005; st_size := 100%N;
            load := Some (JArr [JStr "hello"]) |} ]}
    (start_world 1010 (λ _, accepted)).

(** Nothing is buffered and the last flush is ten seconds old. *)
Definition idle_world : world :=
  set_clock 1010 (start_world 1000 (λ _, accepted)).

(** One event is buffered and the last flush is ten seconds old. *)
Definition aged_world : world :=
  (time_sleep 10
     (queue_line cfg0 no_meta "hello" "/var/log/syslog"
        (start_world 1000 (λ _, accepted))).2).2.

(** A quiet host at the start of a 30-second window. *)
Definition quiet_world : world := start_world 60 (λ _, accepted).

(** A pending line just before a window starts, and a slow endpoint. *)
Definition busy_world : world :=
  (queue_line cfg_small no_meta "hello" "/var/log/syslog"
     (start_world 29.9 (λ _, slow_accept))).2.

(** Three batches are spooled while the endpoint is down, then a drain. *)
Definition spool_history : list spool_op :=
  [ OpWrite (JArr [JStr "a"]); OpWrite (JArr [JStr "b"]);
    OpWrite (JArr [JStr "c"]); OpDrain ].

End AgentScenarios.

(** ** More worlds *)

Module ExtraScenarios.
Import AgentScenarios.

(** Two batches wait in the spool; the file with the earlier name was
    modified last.  One line is buffered and ten seconds old; the endpoint
    accepts everything. *)
Definition backlog : gmap string dirent :=
  {[ "batch-10-0000000000000000000000000000000a.json" :=
       {| is_file := true; st_mtime := 40; st_size := 7%N;
          load := Some (JArr [JStr "modified last"]) |};
     "batch-20-0000000000000000000000000000000b.json" :=
       {| is_file := true; st_mtime := 20; st_size := 5%N;
          load := Some (JArr [JStr "modified first"]) |} ]}.

Definition backlog_world : world := set_spool backlog aged_world.

(** One line was queued half a second ago, right after a flush. *)
Definition fresh_line_world : world :=
  (time_sleep 0.5
     (queue_line cfg0 no_meta "hello" "/var/log/syslog"
        (start_world 1000 (λ _, accepted))).2).2.

(** One line is buffered and shutdown was requested at t = 1000. *)
Definition stopping_world : world :=
  {| buffer := buffer fresh_line_world; last_flush := 1000; spool := ∅;
     spool_exists := true; spool_writable := true; clock := 1000.5; shutdown_at := Some 1000%Q;
     net := λ _, accepted; requests := []; uuids := uuids fresh_line_world;
     uuids_drawn := 1; logs := []; drains := [] |}.

(** Lines read by two followers, as they reach the buffer. *)
Definition two_sources : list (string * string) :=
  [ ("a1", "/var/log/a.log"); ("b1", "/var/log/b.log");
    ("a2", "/var/log/a.log") ].

End ExtraScenarios.

(** * Properties of the followers *)

Module FollowerFacts.
Import Follower FollowerScenarios AgentScenarios.

(** *** Pieces of a text *)

Lemma drop_str_beyond (s : string) (n : nat) :
  (String.length s ≤ n)%nat → drop_str n s = EmptyString.
Proof.
  revert n. induction s as [|c s IH]; intros [|n] Hn; simpl in *;
    try reflexivity; try lia.
  apply IH. lia.
Qed.

Lemma substring_drop (n m : nat) (s : string) :
  substring n m s = substring 0 m (drop_str n s).
Proof.
  revert s. induction n as [|n IH]; intros s; [done|].
  destruct s as [|c s]; [by destruct m|]. apply IH.
Qed.

Lemma substring_beyond (n m : nat) (s : string) :
  (String.length s ≤ n)%nat → substring n m s = EmptyString.
Proof.
  intros Hn. rewrite substring_drop, drop_str_beyond by done. by destruct m.
Qed.

Lemma substring_nonempty (n m : nat) (s : string) (c : ascii) (r : string) :
  substring n m s = String c r → (n < String.length s)%nat.
Proof.
  intros Hsub. destruct (decide (n < String.length s)%nat) as [|Hge]; [done|].
  rewrite substring_beyond in Hsub by lia. discriminate.
Qed.




(** ASCII text decodes to itself, whatever the cut of the chunks. *)
Lemma utf8_decode_ascii (s : string) :
  Py.isascii s = true → utf8_decode Boundary EmptyString s = Some (s, EmptyString).
Proof.
  induction s as [|c s IH]; intros Hs; [done|].
  apply andb_true_iff in Hs as [Hc Hs]. cbn [utf8_decode utf8_step].
  unfold utf8_lead. rewrite Hc. by rewrite (IH Hs).
Qed.

(** *** [readline] *)

Lemma at_offset_drained (h : handle) :
  drained h → at_offset (h_ino h) (h_pos h) = h.
Proof. destruct h. intros [[Hp Hc] Ht]. simpl in *. by subst. Qed.

(** A handle with nothing read ahead that stands at or past the end of
    the file reads nothing, and stays as it is.  Nothing is decoded. *)
Lemma readline_at_end (f : fsys) (h : handle) :
  drained h → (String.length (data f (h_ino h)) ≤ h_pos h)%nat →
  readline f h = inr (EmptyString, h).
Proof.
  intros Hd Hle. pose proof (at_offset_drained h Hd) as Hh.
  destruct Hd as [[Hp Hc] Ht]. unfold readline.
  replace (String.length (data f (h_ino h)) - h_pos h)%nat with 0%nat by lia.
  cbn [readline_loop]. rewrite Ht, Hp, Hc. cbn [cut_line].
  rewrite substring_beyond by done. cbn. by rewrite Hh.
Qed.

(** The fuel [readline] gives its loop is enough: more changes nothing. *)
Lemma readline_loop_fuel (fuel fuel' : nat) (f : fsys) (h : handle) :
  (String.length (data f (h_ino h)) - h_pos h ≤ fuel)%nat →
  (String.length (data f (h_ino h)) - h_pos h ≤ fuel')%nat →
  readline_loop fuel f h = readline_loop fuel' f h.
Proof.
  revert fuel' h. induction fuel as [|k IH]; intros fuel' h Hk Hk'.
  - destruct fuel' as [|k']; [done|]. cbn [readline_loop].
    destruct (cut_line (h_text h)) as [[line rest]|]; [done|].
    by rewrite substring_beyond by lia.
  - cbn [readline_loop].
    destruct (substring (h_pos h) CHUNK_SIZE (data f (h_ino h)))
      as [|c r] eqn:Hchunk.
    + destruct fuel'; cbn [readline_loop]; by rewrite Hchunk.
    + pose proof (substring_nonempty _ _ _ _ _ Hchunk) as Hlt.
      destruct fuel' as [|k']; [lia|]. cbn [readline_loop]. rewrite Hchunk.
      destruct (cut_line (h_text h)) as [[line rest]|]; [done|].
      destruct (utf8_decode Boundary EmptyString (h_part h ++ String c r))
        as [[chars part]|]; [|done].
      destruct (newline_decode (h_cr h) chars false) as [out cr].
      apply IH; cbn [h_ino h_pos String.length]; lia.
Qed.

(** A handle that has just been moved to the end reads nothing. *)
Lemma readline_after_seek_end (f : fsys) (h : handle) :
  readline f (seek_end f h) = inr (EmptyString, seek_end f h).
Proof. apply readline_at_end; [done|]. simpl. lia. Qed.




(** *** The rotation probe *)

(** On a detected rotation the reopened handle stands at the end of the
    new file (line 235), so what the new file already holds is skipped. *)
Lemma probe_rotation_seeks_end (f : fsys) (fh : handle) (c i : nat) :
  stat_ino f = inr i → i ≠ c → readable f = true →
  probe f fh (Some c)
  = (Running (at_offset i (String.length (data f i))) (Some i),
     [Sleep 0.2; Log LogDetectedRotation]).
Proof.
  unfold probe, stat_ino, open. intros Hst Hne Hrd.
  destruct (searchable f); simpl in *; [|discriminate].
  destruct (at_path f) as [j|]; [|discriminate].
  injection Hst as ->. rewrite Hrd.
  rewrite bool_decide_eq_true_2 by exact Hne. reflexivity.
Qed.











(** C1, evaluated on the code: after the rotation [w1, w2; rotate; w3, w4]
    the follower reopens the path and records the new inode, but it seeks
    to the END of the new file: the line [w3], already written to the
    rotated-in file, is never yielded, and no event carries it.  The
    specification asks for all four. *)
Theorem C1_rotated_in_line_lost :
  Forall quiet rotation_trace
  ∧ (follow rotation_trace).1 = Running (at_offset 2 6) (Some 2%nat)
  ∧ yields (follow rotation_trace).2 = ["w1"; "w2"; "w4"]
  ∧ msg <$> buffer (follower_thread cfg0 no_meta "/var/log/app.log"
                      rotation_trace (start_world 1000 (λ _, accepted))).2
    = ["w1"; "w2"; "w4"].
Proof.
  split; [repeat constructor|]. repeat split; vm_compute; reflexivity.
Qed.




(** C6, as stated, fails: after the in-place truncation the file is
    shorter than the read position, the inode is unchanged, and the line
    written after the truncation is not emitted; the position stays. *)
Lemma C6_truncated_file_not_reread :
  Forall quiet truncation_trace
  ∧ (follow truncation_trace).1 = Running (at_offset 1 5) (Some 1%nat)
  ∧ yields (follow truncation_trace).2 = []
  ∧ buffer (follower_thread cfg0 no_meta "/var/log/app.log"
              truncation_trace (start_world 1000 (λ _, accepted))).2
    = [].
Proof.
  split; [repeat constructor|]. repeat split; vm_compute; reflexivity.
Qed.

(** C6, amended: the follower has no truncation check.  When the file is
    shorter than the offset of the handle and the inode is unchanged, a
    pass of a handle that has nothing read ahead reads nothing, sleeps,
    and leaves handle and offset as they were. *)
Theorem C6_truncation_leaves_position (e : env) (fh : handle) (c : nat)
  (Hquiet : quiet e)
  (Hsame : stat_ino (fs e) = inr c)
  (Hdrained : drained fh)
  (Hshort : (String.length (data (fs e) (h_ino fh)) < h_pos fh)%nat) :
  step e (Running fh (Some c)) = (Running fh (Some c), [Sleep 0.2]).
Proof.
  unfold quiet in Hquiet. cbn [step]. rewrite Hquiet.
  rewrite readline_at_end by (done || lia).
  unfold probe. rewrite Hsame.
  rewrite bool_decide_eq_false_2 by (intros Hne; by apply Hne).
  reflexivity.
Qed.

Lemma C6_truncation_leaves_position_witness :
  step (disk [(1%nat, "c" ++ nl)] (Some 1%nat) true)
       (Running (at_offset 1 5) (Some 1%nat))
  = (Running (at_offset 1 5) (Some 1%nat), [Sleep 0.2]).
Proof.
  apply C6_truncation_leaves_position.
  - reflexivity.
  - reflexivity.
  - done.
  - vm_compute. lia.
Defined.

End FollowerFacts.

(** * Properties of the Python primitives *)

Module PyFacts.
Import SpoolFormat.

Lemma string_of_uint_digits (d : Decimal.uint) :
  Py.all_chars Py.is_digit (NilEmpty.string_of_uint d) = true.
Proof. induction d; simpl; auto. Qed.

Lemma str_digits (z : Z) :
  0 ≤ z → Py.all_chars Py.is_digit (Py.str z) = true ∧ nonempty (Py.str z) = true.
Proof.
  intros Hz. unfold Py.str. destruct z as [|p|p]; [by split| |lia].
  simpl. pose proof (string_of_uint_digits (Pos.to_uint p)) as Hd.
  destruct (Pos.to_uint p); simpl in *; by split.
Qed.

Lemma int_nonneg (t : Q) : (0 <= t)%Q → 0 ≤ Py.int t.
Proof.
  unfold Qle, Py.int. simpl. intros Ht. apply Z.quot_pos; lia.
Qed.

Lemma hex_char_is_hex (n : nat) :
  (n < 16)%nat → Py.is_hex (Py.hex_char (N.of_nat n)) = true.
Proof.
  intros Hn. do 16 (destruct n as [|n]; [reflexivity|]). lia.
Qed.

Lemma hex_fixed_hex (n : nat) (x : N) (acc : string) :
  Py.all_chars Py.is_hex acc = true →
  Py.all_chars Py.is_hex (Py.hex_fixed n x acc) = true.
Proof.
  revert x acc. induction n as [|n IH]; intros x acc Hacc; [done|].
  simpl. apply IH. simpl. rewrite Hacc, andb_true_r.
  rewrite <- (N2Nat.id (x `mod` 16)%N). apply hex_char_is_hex.
  pose proof (N.mod_upper_bound x 16). lia.
Qed.

Lemma hex_fixed_length (n : nat) (x : N) (acc : string) :
  String.length (Py.hex_fixed n x acc) = (n + String.length acc)%nat.
Proof.
  revert x acc. induction n as [|n IH]; intros x acc; [done|].
  simpl. rewrite IH. simpl. lia.
Qed.

Lemma uuid_hex_ok (u : N) :
  Py.all_chars Py.is_hex (Py.uuid_hex u) = true ∧ nonempty (Py.uuid_hex u) = true.
Proof.
  split; [by apply hex_fixed_hex|].
  pose proof (hex_fixed_length 32 u "") as Hlen. unfold Py.uuid_hex.
  destruct (Py.hex_fixed 32 u ""); [discriminate|done].
Qed.

Lemma span_stops (p : ascii → bool) (a : string) (c : ascii) (r : string) :
  Py.all_chars p a = true → p c = false →
  span p (a ++ String c r) = (a, String c r).
Proof.
  intros Ha Hc. induction a as [|x a IH]; simpl in *.
  - by rewrite Hc.
  - apply andb_true_iff in Ha as [Hx Ha]. rewrite Hx, IH by done. done.
Qed.

(** The names [spool_batch] makes have the form the specification gives. *)
Lemma batch_file_name_format (t : Q) (u : N) :
  (0 <= t)%Q → spec_batch_name (batch_file_name t u) = true.
Proof.
  intros Ht. unfold batch_file_name, spec_batch_name.
  destruct (str_digits (Py.int t) (int_nonneg t Ht)) as [Hd Hn].
  destruct (uuid_hex_ok u) as [Hh Hm].
  change (strip_prefix "batch-" ("batch-" ++ ?x)) with (Some x).
  change ("-" ++ ?x) with (String "-" x). cbv beta iota.
  rewrite span_stops by done.
  change (strip_prefix "-" (String "-" ?x)) with (Some x). cbv beta iota.
  change (Py.uuid_hex u ++ ".json") with (Py.uuid_hex u ++ String "." "json").
  rewrite span_stops by done.
  rewrite Hn, Hm. reflexivity.
Qed.

End PyFacts.

(** * Properties of the agent *)

Section AgentFacts.

Variable cfg : config.
Variable extract_meta : string → meta.
Variable dump_size : json → N.

#[local] Set Default Proof Using "Type".

Lemma same_memory_refl (w : world) : same_memory w w.
Proof. by repeat split. Qed.

Lemma same_memory_trans (w1 w2 w3 : world) :
  same_memory w1 w2 → same_memory w2 w3 → same_memory w1 w3.
Proof.
  unfold same_memory. intros (?&?&?&?&?&?) (?&?&?&?&?&?).
  repeat split; congruence.
Qed.

(** *** Spool size *)

Lemma spool_total_step (s : gmap string dirent) (k : string) (d : dirent) :
  s !! k = Some d → spool_total s = (weight d + spool_total (delete k s))%N.
Proof.
  intros Hk. unfold spool_total.
  rewrite (map_fold_delete_L _ _ k d s); [|intros; repeat case_match; lia|done].
  unfold weight. by case_match.
Qed.

Lemma spool_total_fresh (s : gmap string dirent) (k : string) (d : dirent) :
  s !! k = None → spool_total (<[k:=d]> s) = (weight d + spool_total s)%N.
Proof.
  intros Hk. unfold spool_total.
  rewrite map_fold_insert_L; [|intros; repeat case_match; lia|done].
  unfold weight. by case_match.
Qed.

Lemma spool_total_delete (s : gmap string dirent) (k : string) :
  (spool_total (delete k s) ≤ spool_total s)%N.
Proof.
  destruct (s !! k) as [d|] eqn:Hk.
  - rewrite (spool_total_step s k d Hk). lia.
  - by rewrite delete_id.
Qed.

Lemma spool_total_insert (s : gmap string dirent) (k : string) (d : dirent) :
  (spool_total (<[k:=d]> s) ≤ spool_total s + st_size d)%N.
Proof.
  rewrite <- insert_delete_eq.
  rewrite spool_total_fresh by apply lookup_delete_eq.
  pose proof (spool_total_delete s k). unfold weight. case_match; lia.
Qed.

(** *** Transport *)

(** With positive timeouts the POST is made, and the send returns what
    the reply says. *)
Lemma send_batch_http_spec (batch : json) (w : world) :
  timeouts_ok cfg = true →
  (send_batch_http cfg batch w).1
    = Returns (is_success (outcome (net w (length (requests w)))))
  ∧ requests (send_batch_http cfg batch w).2
    = (requests w ++ [build_request cfg batch])%list
  ∧ spool (send_batch_http cfg batch w).2 = spool w
  ∧ same_memory w (send_batch_http cfg batch w).2.
Proof.
  intros Hok.
  unfold send_batch_http, bind_result, bind, requests_post, same_memory.
  cbn [build_request req_timeout]. fold (timeouts_ok cfg). rewrite Hok.
  destruct (outcome (net w (length (requests w)))) as [status text|]; simpl.
  - destruct (success_status status); simpl; by repeat split.
  - by repeat split.
Qed.

(** With a timeout that is not positive nothing is sent: the send raises
    and leaves the world as it is. *)
Lemma send_batch_http_raises (batch : json) (w : world) :
  timeouts_ok cfg = false →
  send_batch_http cfg batch w = (Raises InvalidTimeout, w).
Proof.
  intros Hbad. unfold send_batch_http, bind_result, requests_post.
  cbn [build_request req_timeout]. fold (timeouts_ok cfg). by rewrite Hbad.
Qed.

(** *** Spool drain *)

(** The three ways one pass of the drain loop can go. *)
Lemma flush_spool_files_cases (f : string) (rest : list string) (w : world) :
  ((spool w !! f ≫= load = None ∨ timeouts_ok cfg = false)
   ∧ flush_spool_files cfg (f :: rest) w
     = flush_spool_files cfg rest
         (unlink f (log (LogCorruptSpoolFile f) w).2).2)
  ∨ (∃ doc, spool w !! f ≫= load = Some doc
      ∧ timeouts_ok cfg = true
      ∧ (send_batch_http cfg doc w).1 = Returns true
      ∧ flush_spool_files cfg (f :: rest) w
        = flush_spool_files cfg rest
            (log (LogFlushedSpoolFile f)
               (unlink f (send_batch_http cfg doc w).2).2).2)
  ∨ (∃ doc, spool w !! f ≫= load = Some doc
      ∧ timeouts_ok cfg = true
      ∧ (send_batch_http cfg doc w).1 = Returns false
      ∧ flush_spool_files cfg (f :: rest) w
        = (false, (log (LogFlushRetryLater f) (send_batch_http cfg doc w).2).2)).
Proof.
  destruct (spool w !! f ≫= load) as [doc|] eqn:Hload.
  - destruct (timeouts_ok cfg) eqn:Hok.
    + right. destruct (send_batch_http_spec doc w Hok) as (Hflag & _).
      destruct (send_batch_http cfg doc w) as [[[|]|e] w1] eqn:Hsend;
        simpl in Hflag; [| |discriminate].
      * left. exists doc. do 2 (split; [done|]). rewrite Hsend.
        split; [done|].
        cbn [flush_spool_files]. unfold bind, read_json, gets.
        by rewrite Hload, Hsend.
      * right. exists doc. do 2 (split; [done|]). rewrite Hsend.
        split; [done|].
        cbn [flush_spool_files]. unfold bind, read_json, gets.
        by rewrite Hload, Hsend.
    + left. split; [by right|].
      cbn [flush_spool_files]. unfold bind at 1. unfold read_json, gets.
      rewrite Hload. unfold bind at 1.
      by rewrite (send_batch_http_raises doc w Hok).
  - left. split; [by left|].
    cbn [flush_spool_files]. unfold bind, read_json, gets.
    by rewrite Hload.
Qed.

Lemma flush_spool_files_inv (files : list string) (w : world) :
  same_memory w (flush_spool_files cfg files w).2
  ∧ (∃ more, requests (flush_spool_files cfg files w).2
             = (requests w ++ more)%list)
  ∧ (∀ name, name ∉ files →
       spool (flush_spool_files cfg files w).2 !! name = spool w !! name)
  ∧ (∀ name, spool (flush_spool_files cfg files w).2 !! name = None
             ∨ spool (flush_spool_files cfg files w).2 !! name = spool w !! name)
  ∧ (∀ name d, spool w !! name = Some d →
       spool (flush_spool_files cfg files w).2 !! name = None →
       load d = None
       ∨ timeouts_ok cfg = false
       ∨ ∃ doc, load d = Some doc
                ∧ acknowledged cfg w (flush_spool_files cfg files w).2 doc)
  ∧ ((flush_spool_files cfg files w).1 = true →
     ∀ name, name ∈ files →
       spool (flush_spool_files cfg files w).2 !! name = None).
Proof.
  revert w. induction files as [|f rest IH]; intros w.
  - simpl. split; [apply same_memory_refl|]. split; [exists []; by rewrite app_nil_r|].
    split; [done|]. split; [by right|]. split; [congruence|].
    intros _ name Hin. by apply elem_of_nil in Hin.
  - destruct (flush_spool_files_cases f rest w)
      as [[Hload ->]|[(doc & Hload & Htime & Hok & ->)
                     |(doc & Hload & Htime & Hok & ->)]].
    + (* corrupt, or the send raised: removed, the drain goes on *)
      set (w1 := (unlink f (log (LogCorruptSpoolFile f) w).2).2).
      destruct (IH w1) as (Hmem & [more Hreq] & Hout & Hmono & Hdel & Hall).
      assert (Hsp : spool w1 = delete f (spool w)) by done.
      split; [exact Hmem|]. split; [by exists more|].
      split; [|split; [|split]].
      * intros name Hni. apply not_elem_of_cons in Hni as [Hne Hni].
        rewrite Hout by done. rewrite Hsp. by apply lookup_delete_ne.
      * intros name. destruct (Hmono name) as [Hn|Hn]; [by left|].
        rewrite Hn, Hsp. destruct (decide (f = name)) as [->|Hne].
        -- left. apply lookup_delete_eq.
        -- right. by apply lookup_delete_ne.
      * intros name d Hd Hgone. destruct (decide (f = name)) as [->|Hne].
        -- rewrite Hd in Hload. simpl in Hload.
           destruct Hload as [Hnone|Hbad]; [by left|by right; left].
        -- apply (Hdel name d); [|done]. rewrite Hsp.
           by rewrite lookup_delete_ne.
      * intros Htrue name Hin. apply elem_of_cons in Hin as [->|Hin].
        -- destruct (Hmono f) as [Hn|Hn]; [done|].
           rewrite Hn, Hsp. apply lookup_delete_eq.
        -- by apply Hall.
    + (* delivered: removed, the drain goes on *)
      destruct (send_batch_http_spec doc w Htime) as (Hflag & Hsent & Hspool & Hm1).
      set (w1 := (log (LogFlushedSpoolFile f)
                    (unlink f (send_batch_http cfg doc w).2).2).2).
      destruct (IH w1) as (Hmem & [more Hreq] & Hout & Hmono & Hdel & Hall).
      assert (Hsp : spool w1 = delete f (spool w))
        by (unfold w1; simpl; by rewrite Hspool).
      assert (Hrq : requests w1 = (requests w ++ [build_request cfg doc])%list)
        by (unfold w1; simpl; exact Hsent).
      assert (Hm : same_memory w w1) by (unfold w1; exact Hm1).
      split; [by eapply same_memory_trans|].
      split; [exists ([build_request cfg doc] ++ more)%list;
              by rewrite Hreq, Hrq, <- app_assoc|].
      split; [|split; [|split]].
      * intros name Hni. apply not_elem_of_cons in Hni as [Hne Hni].
        rewrite Hout by done. rewrite Hsp. by apply lookup_delete_ne.
      * intros name. destruct (Hmono name) as [Hn|Hn]; [by left|].
        rewrite Hn, Hsp. destruct (decide (f = name)) as [->|Hne].
        -- left. apply lookup_delete_eq.
        -- right. by apply lookup_delete_ne.
      * intros name d Hd Hgone. destruct (decide (f = name)) as [->|Hne].
        -- right. right. exists doc. rewrite Hd in Hload. split; [exact Hload|].
           exists (length (requests w)). split; [done|]. split.
           ++ rewrite Hreq, Hrq, <- app_assoc.
              rewrite lookup_app_r by done. by rewrite Nat.sub_diag.
           ++ rewrite Hok in Hflag. by injection Hflag as <-.
        -- destruct (Hdel name d)
             as [Hnone|[Hbad|(doc' & Hdoc' & i & Hi & Hlook & Hsucc)]];
             [by rewrite Hsp, lookup_delete_ne|done|by left|by right; left|].
           right. right. exists doc'. split; [done|]. exists i.
           split; [rewrite Hrq, length_app in Hi; simpl in Hi; lia|].
           split; [done|]. destruct Hm as (_ & _ & _ & Hnet & _).
           by rewrite <- Hnet.
      * intros Htrue name Hin. apply elem_of_cons in Hin as [->|Hin].
        -- destruct (Hmono f) as [Hn|Hn]; [done|].
           rewrite Hn, Hsp. apply lookup_delete_eq.
        -- by apply Hall.
    + (* not delivered: kept, the drain stops *)
      destruct (send_batch_http_spec doc w Htime) as (Hflag & Hsent & Hspool & Hm1).
      simpl. split; [exact Hm1|].
      split; [by exists [build_request cfg doc]|].
      split; [intros; by rewrite Hspool|].
      split; [right; by rewrite Hspool|].
      split; [intros name d Hd Hgone; rewrite Hspool, Hd in Hgone; discriminate|].
      discriminate.
Qed.

Lemma insert_by_mtime_elem (x y : string * dirent) (l : list (string * dirent)) :
  x ∈ insert_by_mtime y l ↔ x = y ∨ x ∈ l.
Proof.
  clear cfg extract_meta dump_size.
  induction l as [|z l IH]; simpl.
  - rewrite list_elem_of_singleton. split; [by left|].
    intros [->|Hin]; [done|]. by apply elem_of_nil in Hin.
  - destruct (Py.ltb (st_mtime z.2) (st_mtime y.2)).
    + rewrite !elem_of_cons, IH. tauto.
    + rewrite !elem_of_cons. tauto.
Qed.

Lemma sort_by_mtime_elem (x : string * dirent) (l : list (string * dirent)) :
  x ∈ sort_by_mtime l ↔ x ∈ l.
Proof.
  induction l as [|y l IH]; simpl; [done|].
  rewrite insert_by_mtime_elem, IH, elem_of_cons. done.
Qed.

(** The drain visits exactly the regular files, whatever their names. *)
Lemma spool_files_elem (s : gmap string dirent) (name : string) :
  name ∈ spool_files s ↔ ∃ d, s !! name = Some d ∧ is_file d = true.
Proof.
  unfold spool_files. rewrite list_elem_of_fmap. split.
  - intros ([n d] & -> & Hin).
    apply (proj1 (sort_by_mtime_elem _ _)) in Hin.
    apply list_elem_of_filter in Hin as [Hf Hin].
    apply elem_of_map_to_list in Hin. by exists d.
  - intros (d & Hd & Hf). exists (name, d). split; [done|].
    apply sort_by_mtime_elem, list_elem_of_filter. split; [done|].
    by apply elem_of_map_to_list.
Qed.

(** The world in which the loop of a drain starts. *)
Lemma flush_spool_once_unfold (w : world) :
  spool_exists w = true →
  (flush_spool_once cfg w).1
  = Returns (flush_spool_files cfg (spool_files (spool w))
               (set_drains (drains w ++ [clock w]) w)).1
  ∧ (flush_spool_once cfg w).2
    = (flush_spool_files cfg (spool_files (spool w))
         (set_drains (drains w ++ [clock w]) w)).2.
Proof.
  intros Hdir. unfold flush_spool_once, bind, modify, gets, returns.
  cbn [spool_exists set_drains spool]. rewrite Hdir.
  by destruct (flush_spool_files cfg _ _).
Qed.

(** Without the directory the listing raises before any file is touched. *)
Lemma flush_spool_once_missing (w : world) :
  spool_exists w = false →
  flush_spool_once cfg w
  = (Raises SpoolDirMissing, set_drains (drains w ++ [clock w]) w).
Proof.
  intros Hdir. unfold flush_spool_once, bind, modify, gets, raise.
  cbn [spool_exists set_drains]. by rewrite Hdir.
Qed.

(** Whatever the end of a drain, its world is the one of its loop, run
    on the files listed or on none. *)
Lemma flush_spool_once_world (w : world) :
  (flush_spool_once cfg w).2
  = (flush_spool_files cfg
       (if spool_exists w then spool_files (spool w) else [])
       (set_drains (drains w ++ [clock w]) w)).2.
Proof.
  destruct (spool_exists w) eqn:Hdir.
  - by destruct (flush_spool_once_unfold w Hdir).
  - by rewrite flush_spool_once_missing.
Qed.

Lemma insert_by_mtime_perm (x : string * dirent) (l : list (string * dirent)) :
  insert_by_mtime x l ≡ₚ x :: l.
Proof.
  induction l as [|y l IH]; simpl; [done|].
  destruct (Py.ltb (st_mtime y.2) (st_mtime x.2)); [|done].
  rewrite IH. apply Permutation_swap.
Qed.

Lemma sort_by_mtime_perm (l : list (string * dirent)) : sort_by_mtime l ≡ₚ l.
Proof.
  induction l as [|x l IH]; simpl; [done|].
  by rewrite insert_by_mtime_perm, IH.
Qed.

(** No file is listed twice. *)
Lemma spool_files_NoDup (s : gmap string dirent) : NoDup (spool_files s).
Proof.
  unfold spool_files. rewrite sort_by_mtime_perm.
  eapply sublist_NoDup; [apply (NoDup_fst_map_to_list s)|].
  apply fmap_sublist. apply sublist_filter.
Qed.


(** With a timeout that is not positive every send raises inside the
    [try] of the loop: each file is logged as corrupt and removed, no POST
    is made, and the loop runs to its end. *)
Lemma flush_spool_files_unsent (files : list string) (w : world) :
  timeouts_ok cfg = false →
  (flush_spool_files cfg files w).1 = true
  ∧ requests (flush_spool_files cfg files w).2 = requests w
  ∧ (∀ name, name ∈ files →
       spool (flush_spool_files cfg files w).2 !! name = None
       ∧ LogCorruptSpoolFile name ∈ logs (flush_spool_files cfg files w).2)
  ∧ ∃ more, logs (flush_spool_files cfg files w).2 = (logs w ++ more)%list.
Proof.
  intros Hbad. revert w. induction files as [|f rest IH]; intros w.
  - simpl. split; [done|]. split; [done|].
    split; [intros name Hin; by apply elem_of_nil in Hin|].
    exists []. by rewrite app_nil_r.
  - destruct (flush_spool_files_cases f rest w)
      as [[_ ->]|[(doc & _ & Htime & _)|(doc & _ & Htime & _)]];
      [|congruence..].
    set (w1 := (unlink f (log (LogCorruptSpoolFile f) w).2).2).
    destruct (IH w1) as (Htrue & Hreq & Hgone & more & Hlogs).
    destruct (flush_spool_files_inv rest w1) as (_ & _ & _ & Hmono & _).
    split; [done|]. split; [done|]. split.
    + intros name Hin. apply elem_of_cons in Hin as [->|Hin]; [|by apply Hgone].
      split.
      * destruct (Hmono f) as [Hn|Hn]; [done|]. rewrite Hn.
        apply lookup_delete_eq.
      * rewrite Hlogs. apply elem_of_app. left. simpl.
        apply elem_of_app. right. by left.
    + exists ([LogCorruptSpoolFile f] ++ more)%list. rewrite Hlogs. simpl.
      by rewrite <- app_assoc.
Qed.

(** *** Spool write *)

(** What [spool_batch] can do to the directory: nothing (the quota was
    exceeded, or the file could not be created), or one file more. *)
Lemma spool_batch_cases (doc : json) (w : world) :
  (spool (spool_batch cfg dump_size doc w).2 = spool w
   ∧ ∀ fname, last (logs (spool_batch cfg dump_size doc w).2)
              ≠ Some (LogSpooled fname))
  ∨ (Z.of_N (spool_total (spool w)) ≤ MAX_SPOOL_BYTES cfg
     ∧ spool (spool_batch cfg dump_size doc w).2
       = <[batch_file_name (clock w) (uuids w (uuids_drawn w)) :=
            {| is_file := true; st_mtime := clock w;
               st_size := dump_size doc; load := Some doc |}]> (spool w)
     ∧ last (logs (spool_batch cfg dump_size doc w).2)
       = Some (LogSpooled
                 (batch_file_name (clock w) (uuids w (uuids_drawn w))))).
Proof.
  unfold spool_batch, bind, gets, time_time, uuid4, write_json, log, modify.
  simpl. destruct (MAX_SPOOL_BYTES cfg <? Z.of_N (spool_total (spool w))) eqn:Hq.
  - left. simpl. split; [done|]. intros fname. by rewrite last_snoc.
  - apply Z.ltb_ge in Hq. simpl.
    destruct (spool_exists w && spool_writable w && _) eqn:Hwr; simpl.
    + right. split; [done|]. split; [done|]. by rewrite last_snoc.
    + left. split; [done|]. intros fname. by rewrite last_snoc.
Qed.

(** C5, evaluated on the code where a timeout of the configuration is
    not positive (REQUEST_TIMEOUT set to 0, say).  The [try] of the drain
    loop holds the send, and the send raises before anything is POSTed:
    the drain logs every regular file of the spool as corrupt and
    removes it, whether it loads or not, makes no POST, and returns
    [True].  The claim asks that a file goes only after its POST was
    acknowledged or when it does not deserialize. *)
Theorem C5_raising_send_deletes_unsent_files (w : world)
  (Hbad : timeouts_ok cfg = false) (Hdir : spool_exists w = true) :
  (flush_spool_once cfg w).1 = Returns true
  ∧ requests (flush_spool_once cfg w).2 = requests w
  ∧ (∀ name d,
       spool w !! name = Some d → is_file d = true →
       spool (flush_spool_once cfg w).2 !! name = None
       ∧ LogCorruptSpoolFile name ∈ logs (flush_spool_once cfg w).2).
Proof.
  destruct (flush_spool_once_unfold w Hdir) as [-> ->].
  destruct (flush_spool_files_unsent (spool_files (spool w))
              (set_drains (drains w ++ [clock w]) w) Hbad)
    as (-> & Hreq & Hgone & _).
  split; [done|]. split; [exact Hreq|].
  intros name d Hd Hf. apply Hgone. apply spool_files_elem. by exists d.
Qed.


(** C3, amended: the file [spool_batch] writes for a live batch is named
    [batch-<unix-secs>-<hex-token>.json] and holds one JSON document, the
    bare list of events; it is not the object that is POSTed.  Replaying
    the file wraps the list as the live send does: the replay makes the
    very requests the live send of the batch makes, which with positive
    timeouts is the one POST with the list under ["events"]. *)
Theorem C3_spool_file_is_event_list (w : world) (batch : list event)
  (Hclock : (0 <= clock w)%Q) :
  ∀ name d,
    spool (spool_batch cfg dump_size (events_json batch) w).2 !! name = Some d →
    spool w !! name ≠ Some d →
    SpoolFormat.spec_batch_name name = true
    ∧ load d = Some (events_json batch)
    ∧ load d ≠ Some (payload_of (events_json batch))
    ∧ ∀ v, spool v !! name = Some d →
        requests (flush_spool_files cfg [name] v).2
        = requests (send_batch_http cfg (events_json batch) v).2
        ∧ (timeouts_ok cfg = true →
           requests (send_batch_http cfg (events_json batch) v).2
           = (requests v ++ [build_request cfg (events_json batch)])%list)
        ∧ req_json (build_request cfg (events_json batch))
          = JObj [("events", events_json batch)].
Proof.
  intros name d Hd Hnew.
  destruct (spool_batch_cases (events_json batch) w)
    as [[Hsame _]|(_ & Hins & _)]; [rewrite Hsame in Hd; congruence|].
  rewrite Hins in Hd.
  destruct (decide (batch_file_name (clock w) (uuids w (uuids_drawn w)) = name))
    as [<-|Hne]; [|rewrite lookup_insert_ne in Hd by done; congruence].
  rewrite lookup_insert_eq in Hd. injection Hd as <-. cbn [load].
  split; [by apply PyFacts.batch_file_name_format|].
  split; [done|]. split; [discriminate|].
  intros v Hv. split; [|split; [|done]].
  - destruct (flush_spool_files_cases
                (batch_file_name (clock w) (uuids w (uuids_drawn w))) [] v)
      as [[Hload ->]|[(doc & Hdoc & _ & _ & ->)|(doc & Hdoc & _ & _ & ->)]];
      rewrite Hv in *; simpl in *.
    + destruct Hload as [?|Hbad]; [discriminate|].
      by rewrite send_batch_http_raises.
    + by injection Hdoc as <-.
    + by injection Hdoc as <-.
  - intros Hok.
    by destruct (send_batch_http_spec (events_json batch) v Hok) as (_ & ? & _).
Qed.

(** *** What a drain leaves alone *)

Lemma send_batch_http_frame (doc : json) (u : world) :
  buffer (send_batch_http cfg doc u).2 = buffer u
  ∧ last_flush (send_batch_http cfg doc u).2 = last_flush u
  ∧ net (send_batch_http cfg doc u).2 = net u
  ∧ spool_writable (send_batch_http cfg doc u).2 = spool_writable u
  ∧ shutdown_at (send_batch_http cfg doc u).2 = shutdown_at u
  ∧ spool_exists (send_batch_http cfg doc u).2 = spool_exists u.
Proof.
  unfold send_batch_http, bind_result, bind, requests_post.
  destruct (valid_timeout _); [|done]. simpl.
  destruct (outcome (net u (length (requests u)))) as [st tx|]; simpl;
    [destruct (success_status st)|]; done.
Qed.

Lemma flush_spool_files_frame (files : list string) (u : world) :
  buffer (flush_spool_files cfg files u).2 = buffer u
  ∧ last_flush (flush_spool_files cfg files u).2 = last_flush u
  ∧ net (flush_spool_files cfg files u).2 = net u
  ∧ spool_writable (flush_spool_files cfg files u).2 = spool_writable u
  ∧ shutdown_at (flush_spool_files cfg files u).2 = shutdown_at u
  ∧ spool_exists (flush_spool_files cfg files u).2 = spool_exists u.
Proof.
  revert u. induction files as [|f rest IH]; intros u; [done|].
  destruct (flush_spool_files_cases f rest u)
    as [[_ ->]|[(doc & _ & _ & _ & ->)|(doc & _ & _ & _ & ->)]].
  - destruct (IH (unlink f (log (LogCorruptSpoolFile f) u).2).2)
      as (-> & -> & -> & -> & -> & ->). done.
  - destruct (IH (log (LogFlushedSpoolFile f)
                    (unlink f (send_batch_http cfg doc u).2).2).2)
      as (-> & -> & -> & -> & -> & ->). apply send_batch_http_frame.
  - apply send_batch_http_frame.
Qed.

Lemma flush_spool_once_frame (w : world) :
  buffer (flush_spool_once cfg w).2 = buffer w
  ∧ last_flush (flush_spool_once cfg w).2 = last_flush w
  ∧ net (flush_spool_once cfg w).2 = net w
  ∧ spool_writable (flush_spool_once cfg w).2 = spool_writable w
  ∧ shutdown_at (flush_spool_once cfg w).2 = shutdown_at w
  ∧ spool_exists (flush_spool_once cfg w).2 = spool_exists w.
Proof.
  rewrite flush_spool_once_world.
  exact (flush_spool_files_frame _ (set_drains (drains w ++ [clock w]) w)).
Qed.

Lemma flush_spool_once_requests (w : world) :
  ∃ more, requests (flush_spool_once cfg w).2 = (requests w ++ more)%list.
Proof.
  rewrite flush_spool_once_world.
  destruct (flush_spool_files_inv
              (if spool_exists w then spool_files (spool w) else [])
              (set_drains (drains w ++ [clock w]) w)) as (_ & Hreq & _).
  exact Hreq.
Qed.

(** *** Buffer *)

Lemma ltb_false_of_le (x y : Q) : (y <= x)%Q → Py.ltb x y = false.
Proof.
  unfold Py.ltb. intros Hle. destruct (Qlt_le_dec x y) as [Hlt|_]; [|done].
  exfalso. exact (Qlt_not_le _ _ Hlt Hle).
Qed.

Lemma ltb_true_of_not_le (x y : Q) : ¬ (y <= x)%Q → Py.ltb x y = true.
Proof.
  unfold Py.ltb. intros Hn. by destruct (Qlt_le_dec x y).
Qed.

Lemma locked_drain_some (force : bool) (w : world) (batch : list event) :
  (locked_drain cfg force w).1 = Some batch →
  batch = buffer w ∧ batch ≠ []
  ∧ locked_drain cfg force w = (Some batch, set_buffer [] w).
Proof.
  unfold locked_drain. destruct (buffer w) as [|e l] eqn:Hb; [discriminate|].
  case_match; [discriminate|]. simpl. intros [= <-]. by repeat split.
Qed.

Lemma spool_batch_requests (doc : json) (w : world) :
  requests (spool_batch cfg dump_size doc w).2 = requests w.
Proof.
  unfold spool_batch, bind, gets, time_time, uuid4, write_json, log, modify.
  simpl. destruct (MAX_SPOOL_BYTES cfg <? Z.of_N (spool_total (spool w)));
    simpl; [done|].
  by destruct (spool_exists w && spool_writable w && _).
Qed.

(** *** The three ends of a flush *)

(** The directory is gone: the listing raises at once. *)
Lemma flush_batch_missing (batch : list event) (w : world) :
  spool_exists w = false →
  flush_batch cfg dump_size batch w
  = (Raises SpoolDirMissing, set_drains (drains w ++ [clock w]) w).
Proof.
  intros Hdir. unfold flush_batch, bind_result.
  by rewrite flush_spool_once_missing.
Qed.

(** A timeout is not positive: the drain runs, then the send raises. *)
Lemma flush_batch_invalid (batch : list event) (w : world) :
  spool_exists w = true → timeouts_ok cfg = false →
  flush_batch cfg dump_size batch w
  = (Raises InvalidTimeout, (flush_spool_once cfg w).2).
Proof.
  intros Hdir Hbad. unfold flush_batch, bind_result.
  destruct (flush_spool_once_unfold w Hdir) as [Hr _].
  destruct (flush_spool_once cfg w) as [r w1]. simpl in Hr. subst r.
  by rewrite send_batch_http_raises.
Qed.

(** Otherwise the flush returns: the drain, the POST of the batch, the
    log entry or the spool write, and [_last_flush] set last. *)
Lemma flush_batch_returns (batch : list event) (w : world) :
  spool_exists w = true → timeouts_ok cfg = true →
  ∃ w3,
    flush_batch cfg dump_size batch w = (Returns tt, set_last_flush (clock w3) w3)
    ∧ w3 = (if is_success
                 (outcome (net w (length (requests (flush_spool_once cfg w).2))))
            then (log (LogSentBatch (length batch))
                    (send_batch_http cfg (events_json batch)
                       (flush_spool_once cfg w).2).2).2
            else (spool_batch cfg dump_size (events_json batch)
                    (send_batch_http cfg (events_json batch)
                       (flush_spool_once cfg w).2).2).2).
Proof.
  intros Hdir Hok. unfold flush_batch, bind_result.
  destruct (flush_spool_once_unfold w Hdir) as [Hr _].
  destruct (flush_spool_once_frame w) as (_ & _ & Hnet & _).
  destruct (flush_spool_once cfg w) as [r w1]. cbn [fst snd] in *. subst r.
  destruct (send_batch_http_spec (events_json batch) w1 Hok) as (Hflag & _).
  destruct (send_batch_http cfg (events_json batch) w1) as [r2 w2].
  cbn [fst snd] in *. subst r2. rewrite <- Hnet.
  destruct (is_success _); cbn [negb].
  - eexists. split; [|reflexivity]. reflexivity.
  - unfold bind. destruct (spool_batch cfg dump_size (events_json batch) w2)
      as [u w3]. eexists. split; [|reflexivity]. reflexivity.
Qed.

Lemma flush_batch_requests (batch : list event) (w : world) :
  (flush_batch cfg dump_size batch w).1 = Returns tt →
  ∃ earlier, requests (flush_batch cfg dump_size batch w).2
             = (earlier ++ [build_request cfg (events_json batch)])%list.
Proof.
  intros Hret. destruct (spool_exists w) eqn:Hdir;
    [|by rewrite flush_batch_missing in Hret].
  destruct (timeouts_ok cfg) eqn:Hok;
    [|by rewrite flush_batch_invalid in Hret].
  destruct (flush_batch_returns batch w Hdir Hok) as (w3 & -> & ->).
  destruct (send_batch_http_spec (events_json batch)
              (flush_spool_once cfg w).2 Hok) as (_ & Hsent & _).
  exists (requests (flush_spool_once cfg w).2). cbn [snd].
  destruct (is_success _); simpl; [done|]. by rewrite spool_batch_requests.
Qed.

Lemma flush_batch_raises (batch : list event) (w : world) (e : exn) :
  (flush_batch cfg dump_size batch w).1 = Raises e →
  buffer (flush_batch cfg dump_size batch w).2 = buffer w
  ∧ last_flush (flush_batch cfg dump_size batch w).2 = last_flush w
  ∧ requests (flush_batch cfg dump_size batch w).2 = requests w
  ∧ (∀ name d, spool (flush_batch cfg dump_size batch w).2 !! name = Some d →
               spool w !! name = Some d).
Proof.
  intros Hraise. destruct (spool_exists w) eqn:Hdir.
  - destruct (timeouts_ok cfg) eqn:Hok.
    + destruct (flush_batch_returns batch w Hdir Hok) as (w3 & Heq & _).
      by rewrite Heq in Hraise.
    + rewrite flush_batch_invalid by done. cbn [snd].
      destruct (flush_spool_once_frame w) as (Hb & Hl & _).
      destruct (flush_spool_once_unfold w Hdir) as [_ Hw].
      destruct (flush_spool_files_unsent (spool_files (spool w))
                  (set_drains (drains w ++ [clock w]) w) Hok)
        as (_ & Hreq & _).
      destruct (flush_spool_files_inv (spool_files (spool w))
                  (set_drains (drains w ++ [clock w]) w))
        as (_ & _ & _ & Hmono & _).
      rewrite <- Hw in Hreq, Hmono.
      split; [done|]. split; [done|]. split; [done|].
      intros name d Hd. destruct (Hmono name) as [Hn|Hn]; [congruence|].
      change (spool (set_drains _ w)) with (spool w) in Hn. congruence.
  - rewrite flush_batch_missing by done. by repeat split.
Qed.

(** C7, amended: with a non-empty buffer the conditional drain extracts
    exactly when the count has reached BATCH_SIZE or the last flush is at
    least FLUSH_INTERVAL old; it then takes all buffered events as one
    batch, in the order [queue_line] appended them, and empties the buffer;
    otherwise, and whenever the buffer is empty, it returns nothing and
    changes nothing.  [last_flush] is not written inside the locked block:
    it is set after the spool drain and the send, to the clock read then
    (and is left as it was when one of the two raises). *)
Theorem C7_drain_when_due_and_not_empty (w : world) :
  (buffer w ≠ [] → flush_due (BATCH_SIZE cfg) (FLUSH_INTERVAL cfg) w →
   locked_drain cfg false w = (Some (buffer w), set_buffer [] w))
  ∧ (buffer w = [] ∨ ¬ flush_due (BATCH_SIZE cfg) (FLUSH_INTERVAL cfg) w →
     locked_drain cfg false w = (None, w))
  ∧ last_flush (locked_drain cfg false w).2 = last_flush w
  ∧ (∀ batch,
       match (flush_batch cfg dump_size batch w).1 with
       | Returns _ => last_flush (flush_batch cfg dump_size batch w).2
                      = clock (flush_batch cfg dump_size batch w).2
       | Raises _ => last_flush (flush_batch cfg dump_size batch w).2
                     = last_flush w
       end)
  ∧ (∀ line src, ∃ ev,
       msg ev = line ∧ source ev = src
       ∧ buffer (queue_line cfg extract_meta line src w).2
         = (buffer w ++ [ev])%list).
Proof.
  split; [|split; [|split; [|split]]].
  - intros Hne Hdue. unfold locked_drain.
    destruct (buffer w) as [|e l] eqn:Hb; [done|].
    destruct Hdue as [Hsize|Hage].
    + rewrite Hb in Hsize. apply Z.ltb_ge in Hsize. rewrite Hsize. done.
    + rewrite (ltb_false_of_le _ _ Hage), andb_false_r. done.
  - intros Hcase. unfold locked_drain.
    destruct (buffer w) as [|e l] eqn:Hb; [done|].
    destruct Hcase as [?|Hnot]; [done|].
    assert (Hsize : (Z.of_nat (length (e :: l)) <? BATCH_SIZE cfg) = true).
    { apply Z.ltb_lt. apply Z.nle_gt. intros Hle. apply Hnot. left.
      by rewrite Hb. }
    assert (Hage : Py.ltb (clock w - last_flush w)%Q (FLUSH_INTERVAL cfg) = true).
    { apply ltb_true_of_not_le. intros Hle. apply Hnot. by right. }
    by rewrite Hsize, Hage.
  - unfold locked_drain. destruct (buffer w); [done|]. by case_match.
  - intros batch.
    destruct (flush_batch cfg dump_size batch w).1 as [u|e] eqn:Hend.
    + destruct (spool_exists w) eqn:Hdir;
        [|by rewrite flush_batch_missing in Hend].
      destruct (timeouts_ok cfg) eqn:Hok;
        [|by rewrite flush_batch_invalid in Hend].
      by destruct (flush_batch_returns batch w Hdir Hok) as (w3 & -> & _).
    + by destruct (flush_batch_raises batch w e Hend) as (_ & ? & _).
  - intros line src. eexists. split; [|split].
    3: reflexivity. all: reflexivity.
Qed.

(** C10: with an empty buffer [attempt_flush_buffer], forced or not,
    returns at once and leaves the world as it was: no POST, no spool
    write, no spool drain.  Whenever it does take a batch the batch is not
    empty; when it then returns, the POST of the live path is the last
    request made, with that batch as its ["events"]; when it raises
    instead, it has made no POST at all. *)
Theorem C10_no_empty_live_batch (w : world) (force : bool) :
  (buffer w = [] → attempt_flush_buffer cfg dump_size force w = (Returns tt, w))
  ∧ (∀ batch,
       (locked_drain cfg force w).1 = Some batch →
       batch ≠ []
       ∧ req_json (build_request cfg (events_json batch))
         = JObj [("events", JArr (event_json <$> batch))]
       ∧ match (attempt_flush_buffer cfg dump_size force w).1 with
         | Returns _ =>
             ∃ earlier,
               requests (attempt_flush_buffer cfg dump_size force w).2
               = (earlier ++ [build_request cfg (events_json batch)])%list
         | Raises _ =>
             requests (attempt_flush_buffer cfg dump_size force w).2
             = requests w
         end).
Proof.
  split.
  - intros Hb. unfold attempt_flush_buffer, bind, locked_drain. by rewrite Hb.
  - intros batch Hsome.
    destruct (locked_drain_some force w batch Hsome) as (_ & Hne & Heq).
    split; [exact Hne|]. split; [done|].
    unfold attempt_flush_buffer, bind. rewrite Heq.
    destruct (flush_batch cfg dump_size batch (set_buffer [] w)).1
      as [[]|e] eqn:Hend.
    + by apply flush_batch_requests.
    + by destruct (flush_batch_raises batch (set_buffer [] w) e Hend)
        as (_ & _ & ? & _).
Qed.

(** *** Spool bound *)

Lemma flush_spool_files_total (files : list string) (w : world) :
  (spool_total (spool (flush_spool_files cfg files w).2)
   ≤ spool_total (spool w))%N.
Proof.
  revert w. induction files as [|f rest IH]; intros w; [done|].
  destruct (flush_spool_files_cases f rest w)
    as [[_ ->]|[(doc & _ & Hok & _ & ->)|(doc & _ & Hok & _ & ->)]].
  - etransitivity; [apply IH|]. simpl. apply spool_total_delete.
  - destruct (send_batch_http_spec doc w Hok) as (_ & _ & Hspool & _).
    etransitivity; [apply IH|]. simpl. rewrite Hspool. apply spool_total_delete.
  - destruct (send_batch_http_spec doc w Hok) as (_ & _ & Hspool & _).
    simpl. by rewrite Hspool.
Qed.

(** C8: if the spool is within the quota plus the last written batch, it
    stays so after any sequence of spool writes, drains and deletes: the
    total is compared with MAX_SPOOL_BYTES before each write, and with the
    quota exceeded the write is skipped and the drop is logged. *)
Theorem C8_spool_within_quota_plus_last_batch
  (ops : list spool_op) (w : world) (written : N)
  (Hinit : Z.of_N (spool_total (spool w))
           ≤ MAX_SPOOL_BYTES cfg + Z.of_N written) :
  Z.of_N (spool_total (spool (run_ops cfg dump_size ops w written).1))
  ≤ MAX_SPOOL_BYTES cfg + Z.of_N (run_ops cfg dump_size ops w written).2
  ∧ (∀ doc v,
       MAX_SPOOL_BYTES cfg < Z.of_N (spool_total (spool v)) →
       spool (spool_batch cfg dump_size doc v).2 = spool v
       ∧ last (logs (spool_batch cfg dump_size doc v).2)
         = Some (LogSpoolSkipped (spool_total (spool v)) (MAX_SPOOL_BYTES cfg))).
Proof.
  split.
  - revert w written Hinit.
    induction ops as [|op ops IH]; intros w written Hinit; [done|].
    destruct op as [doc| |fname]; cbn [run_ops]; apply IH.
    + destruct (spool_batch_cases doc w) as [[Hsame Hlog]|(Hroom & Hins & Hlog)].
      * rewrite Hsame. unfold last_written.
        destruct (last (logs (spool_batch cfg dump_size doc w).2))
          as [[]|] eqn:Hl; try done.
        by destruct (Hlog fname).
      * rewrite Hins. unfold last_written. rewrite Hlog.
        pose proof (spool_total_insert (spool w)
                      (batch_file_name (clock w) (uuids w (uuids_drawn w)))
                      {| is_file := true; st_mtime := clock w;
                         st_size := dump_size doc; load := Some doc |}) as Hb.
        simpl in Hb. lia.
    + rewrite flush_spool_once_world.
      pose proof (flush_spool_files_total
                    (if spool_exists w then spool_files (spool w) else [])
                    (set_drains (drains w ++ [clock w]) w)) as Hd.
      simpl in Hd. lia.
    + simpl. pose proof (spool_total_delete (spool w) fname). lia.
  - intros doc v Hover.
    unfold spool_batch, bind, gets, log, modify. simpl.
    apply Z.ltb_lt in Hover. rewrite Hover. simpl. split; [done|].
    by rewrite last_snoc.
Qed.

End AgentFacts.

(** * The agent on concrete worlds *)

Module AgentChecks.
Import AgentScenarios.

(** C3, as stated, fails: the file spooled after the failed live send
    holds the bare list of events, while the body that was POSTed is the
    object with that list under ["events"]. *)
Lemma C3_spool_file_differs_from_post_body :
  ∃ d doc rq,
    spool (attempt_flush_buffer cfg0 flat_size false offline_world).2
      !! "batch-1005-000000000000000000000000000003e9.json" = Some d
    ∧ load d = Some doc
    ∧ last (requests (attempt_flush_buffer cfg0 flat_size false offline_world).2)
      = Some rq
    ∧ req_json rq = JObj [("events", doc)]
    ∧ doc ≠ req_json rq.
Proof.
  eexists _, _, _. split; [vm_compute; reflexivity|].
  split; [reflexivity|]. split; [vm_compute; reflexivity|].
  split; [reflexivity|]. discriminate.
Qed.

Lemma C3_spool_file_is_event_list_witness :
  SpoolFormat.spec_batch_name
    "batch-1002-000000000000000000000000000003e9.json" = true
  ∧ (0 <= clock offline_world)%Q.
Proof.
  assert (Hclock : (0 <= clock offline_world)%Q) by (vm_compute; discriminate).
  split; [|exact Hclock].
  refine (proj1 (C3_spool_file_is_event_list cfg0 flat_size offline_world
                   (buffer offline_world) Hclock
                   "batch-1002-000000000000000000000000000003e9.json"
                   {| is_file := true; st_mtime := clock offline_world;
                      st_size := 100%N;
                      load := Some (events_json (buffer offline_world)) |}
                   _ _)).
  - vm_compute. reflexivity.
  - vm_compute. discriminate.
Defined.


(** C7, as stated, fails: the last flush is ten seconds old, yet with an
    empty buffer nothing is returned; and when a batch is taken,
    [last_flush] still has its old value when the lock is released. *)
Lemma C7_trigger_alone_does_not_drain :
  flush_due (BATCH_SIZE cfg0) (FLUSH_INTERVAL cfg0) idle_world
  ∧ locked_drain cfg0 false idle_world = (None, idle_world)
  ∧ (locked_drain cfg0 false aged_world).1 = Some (buffer aged_world)
  ∧ clock (locked_drain cfg0 false aged_world).2 = (1000 + 10)%Q
  ∧ last_flush (locked_drain cfg0 false aged_world).2 = 1000%Q.
Proof.
  split; [right; vm_compute; discriminate|].
  repeat split; vm_compute; reflexivity.
Qed.

(** C9, evaluated on the code.  On a quiet host whose clock reads 60.0,
    two passes of the flusher loop, half a second apart, both drain the
    spool: twice in one window.  With a line pending at 29.9 and a POST
    that takes 1.2 s, the clock has left second 30 before it is read; the
    loop then runs until past 60 without one periodic drain (the only
    drain is the one of the live flush at 29.9). *)
Theorem C9_periodic_drain_twice_or_not_at_all :
  buffer quiet_world = []
  ∧ drains (flusher_loop cfg0 flat_size 2 quiet_world).2 = [60; 60.5]%Q
  ∧ drains (flusher_loop cfg_small flat_size 58 busy_world).2 = [29.9]%Q
  ∧ (60 <= clock (flusher_loop cfg_small flat_size 58 busy_world).2)%Q.
Proof.
  split; [reflexivity|]. split; [vm_compute; reflexivity|].
  split; [vm_compute; reflexivity|]. vm_compute. discriminate.
Qed.

Lemma C8_spool_within_quota_plus_last_batch_witness :
  Z.of_N (spool_total
            (spool (run_ops cfg_small flat_size spool_history
                      (start_world 1000 (λ _, unreachable)) 0).1))
  ≤ MAX_SPOOL_BYTES cfg_small
    + Z.of_N (run_ops cfg_small flat_size spool_history
                (start_world 1000 (λ _, unreachable)) 0).2.
Proof.
  refine (proj1 (C8_spool_within_quota_plus_last_batch cfg_small flat_size
                   spool_history (start_world 1000 (λ _, unreachable)) 0 _)).
  vm_compute. discriminate.
Defined.

Lemma C10_no_empty_live_batch_witness :
  attempt_flush_buffer cfg0 flat_size true idle_world = (Returns tt, idle_world).
Proof.
  refine (proj1 (C10_no_empty_live_batch cfg0 flat_size idle_world true) _).
  reflexivity.
Defined.

(** C5 on one run: REQUEST_TIMEOUT is 0, the spool holds one batch that
    loads, and the endpoint would accept it. *)
Lemma C5_raising_send_deletes_unsent_files_witness :
  spool spooled_world !! "batch-1005-000000000000000000000000000003e9.json"
    ≫= load = Some (JArr [JStr "hello"])
  ∧ is_success (outcome (net spooled_world 0)) = true
  ∧ (flush_spool_once cfg_no_timeout spooled_world).1 = Returns true
  ∧ requests (flush_spool_once cfg_no_timeout spooled_world).2 = []
  ∧ spool (flush_spool_once cfg_no_timeout spooled_world).2
      !! "batch-1005-000000000000000000000000000003e9.json" = None
  ∧ LogCorruptSpoolFile "batch-1005-000000000000000000000000000003e9.json"
    ∈ logs (flush_spool_once cfg_no_timeout spooled_world).2.
Proof.
  split; [reflexivity|]. split; [reflexivity|].
  destruct (C5_raising_send_deletes_unsent_files cfg_no_timeout spooled_world)
    as (Htrue & Hreq & Hgone); [reflexivity..|].
  split; [exact Htrue|]. split; [exact Hreq|].
  apply (Hgone _ {| is_file := true; st_mtime := 1005; st_size := 100%N;
                    load := Some (JArr [JStr "hello"]) |}); reflexivity.
Defined.


Lemma C7_drain_when_due_and_not_empty_witness :
  locked_drain cfg0 false aged_world
  = (Some (buffer aged_world), set_buffer [] aged_world).
Proof.
  refine (proj1 (C7_drain_when_due_and_not_empty cfg0 no_meta flat_size
                   aged_world) _ _).
  - vm_compute. discriminate.
  - right. vm_compute. discriminate.
Defined.

End AgentChecks.

(** * Further properties of the followers *)

Module FollowerExtras.
Import Follower FollowerLines FollowerScenarios.

(** *** Pieces of a text *)

Lemma drop_str_add (a b : nat) (s : string) :
  drop_str (a + b) s = drop_str b (drop_str a s).
Proof.
  revert s. induction a as [|a IH]; intros s; [done|].
  destruct s as [|c s]; simpl; [by destruct b|]. apply IH.
Qed.

Lemma drop_str_app (pre s : string) :
  drop_str (String.length pre) (pre ++ s) = s.
Proof. induction pre as [|c pre IH]; simpl; done. Qed.

Lemma drop_str_all (s : string) : drop_str (String.length s) s = EmptyString.
Proof. induction s as [|c s IH]; simpl; done. Qed.

Lemma drop_str_length (n : nat) (s : string) :
  String.length (drop_str n s) = (String.length s - n)%nat.
Proof.
  revert s. induction n as [|n IH]; intros s; [simpl; lia|].
  destruct s as [|c s]; [done|]. apply IH.
Qed.

Lemma app_nil_r_str (s : string) : s ++ EmptyString = s.
Proof.
  induction s as [|c s IH]; [done|].
  change (String c s ++ ?x) with (String c (s ++ x)). by rewrite IH.
Qed.

Lemma str_app_assoc (a b c : string) : (a ++ b) ++ c = a ++ b ++ c.
Proof.
  induction a as [|x a IH]; [done|].
  change (String x a ++ ?y) with (String x (a ++ y)).
  change (String x (a ++ b) ++ c) with (String x ((a ++ b) ++ c)).
  by rewrite IH.
Qed.

Lemma app_empty_str (a b : string) :
  a ++ b = EmptyString → a = EmptyString ∧ b = EmptyString.
Proof. destruct a; [done|discriminate]. Qed.

(** A chunk and what follows it make up the text. *)
Lemma take_drop_str (m : nat) (s : string) :
  substring 0 m s ++ drop_str (String.length (substring 0 m s)) s = s.
Proof.
  revert s. induction m as [|m IH]; intros s; [by destruct s|].
  destruct s as [|c s]; [done|]. cbn [substring String.length drop_str].
  change (String c ?a ++ ?x) with (String c (a ++ x)). by rewrite IH.
Qed.

Lemma take_length (m : nat) (s : string) :
  (String.length (substring 0 m s) ≤ String.length s)%nat.
Proof.
  revert s. induction m as [|m IH]; intros s; [destruct s; simpl; lia|].
  destruct s as [|c s]; [done|]. cbn [substring String.length].
  specialize (IH s). lia.
Qed.

Lemma take_empty (m : nat) (s : string) :
  substring 0 (S m) s = EmptyString → s = EmptyString.
Proof. by destruct s. Qed.

Lemma rstrip_nl_cons (c : ascii) (s : string) :
  Ascii.eqb c "010" = false →
  Py.rstrip_nl (String c s) = String c (Py.rstrip_nl s).
Proof.
  intros Hc. simpl. rewrite Hc. by destruct (Py.rstrip_nl s).
Qed.

(** *** Lines *)

(** One [readline] takes the first line off the text. *)
Lemma split_lines_first (s : string) :
  s ≠ EmptyString →
  split_lines s
  = Py.rstrip_nl (first_line s)
      :: split_lines (drop_str (String.length (first_line s)) s).
Proof.
  induction s as [|c r IH]; intros Hne; [done|].
  cbn [split_lines first_line]. destruct (Ascii.eqb c "010") eqn:Hc.
  - apply Ascii.eqb_eq in Hc as ->. reflexivity.
  - rewrite rstrip_nl_cons by done. cbn [String.length drop_str].
    destruct r as [|c' r']; [reflexivity|].
    rewrite IH by done. reflexivity.
Qed.

Lemma first_line_nonempty (s : string) :
  s ≠ EmptyString → first_line s ≠ EmptyString.
Proof. destruct s as [|c r]; [done|]. simpl. by case_match. Qed.

Lemma first_line_one_line (s : string) :
  one_line s = true → first_line s = s ∧ Py.rstrip_nl s = s.
Proof.
  induction s as [|c r IH]; [done|]. cbn [one_line].
  intros [Hc Hr]%andb_true_iff. apply negb_true_iff in Hc.
  destruct (IH Hr) as [Hf Hs]. cbn [first_line]. rewrite Hc, Hf.
  split; [done|]. by rewrite rstrip_nl_cons, Hs.
Qed.

Lemma first_line_terminated (s rest : string) :
  one_line s = true →
  first_line (s ++ String "010" rest) = s ++ String "010" EmptyString
  ∧ Py.rstrip_nl (s ++ String "010" EmptyString) = s.
Proof.
  induction s as [|c r IH]; [done|]. cbn [one_line].
  intros [Hc Hr]%andb_true_iff. apply negb_true_iff in Hc.
  destruct (IH Hr) as [Hf Hs].
  change (String c r ++ ?x) with (String c (r ++ x)).
  cbn [first_line]. rewrite Hc, Hf. split; [done|].
  by rewrite rstrip_nl_cons, Hs.
Qed.

(** A line that is complete in the text read ahead is the first line of
    all that is unread. *)
Lemma cut_line_some (s line rest x : string) :
  cut_line s = Some (line, rest) →
  s = line ++ rest ∧ first_line (s ++ x) = line.
Proof.
  revert line rest. induction s as [|c r IH]; intros line rest; [done|].
  cbn [cut_line]. change (String c r ++ x) with (String c (r ++ x)).
  cbn [first_line]. destruct (Ascii.eqb c "010").
  - by intros [= <- <-].
  - destruct (cut_line r) as [[l t]|]; [|done]. intros [= <- <-].
    destruct (IH l t eq_refl) as [-> ->]. done.
Qed.

Lemma cut_line_none (s x : string) :
  cut_line s = None → first_line (s ++ x) = s ++ first_line x.
Proof.
  induction s as [|c r IH]; [done|].
  cbn [cut_line]. change (String c r ++ ?y) with (String c (r ++ y)).
  cbn [first_line]. destruct (Ascii.eqb c "010"); [done|].
  destruct (cut_line r) as [[l t]|]; [done|]. intros _. by rewrite IH.
Qed.

(** *** Plain text passes the decoders unchanged *)

Lemma plain_isascii (s : string) : plain s = true → Py.isascii s = true.
Proof.
  induction s as [|c s IH]; [done|]. cbn [plain Py.all_chars].
  intros [[Hc _]%andb_true_iff Hs]%andb_true_iff.
  apply andb_true_iff. split; [exact Hc|by apply IH].
Qed.

Lemma plain_drop (n : nat) (s : string) :
  plain s = true → plain (drop_str n s) = true.
Proof.
  revert s. induction n as [|n IH]; intros s Hs; [done|].
  destruct s as [|c s]; [done|]. apply IH.
  by apply andb_true_iff in Hs as [_ Hs].
Qed.

Lemma plain_take (m : nat) (s : string) :
  plain s = true → plain (substring 0 m s) = true.
Proof.
  revert s. induction m as [|m IH]; intros s Hs; [by destruct s|].
  destruct s as [|c s]; [done|].
  apply andb_true_iff in Hs as [Hc Hs]. cbn [substring].
  apply andb_true_iff. split; [exact Hc|by apply IH].
Qed.

Lemma plain_app (a b : string) :
  plain a = true → plain b = true → plain (a ++ b) = true.
Proof.
  intros Ha Hb. induction a as [|c a IH]; [done|].
  apply andb_true_iff in Ha as [Hc Ha].
  change (String c a ++ b) with (String c (a ++ b)).
  apply andb_true_iff. split; [exact Hc|by apply IH].
Qed.

Lemma plain_app_inv (a b : string) :
  plain (a ++ b) = true → plain a = true ∧ plain b = true.
Proof.
  induction a as [|c a IH]; [done|].
  change (String c a ++ b) with (String c (a ++ b)).
  intros [Hc Hs]%andb_true_iff. destruct (IH Hs) as [Ha Hb].
  split; [|done]. apply andb_true_iff. by split.
Qed.

Lemma plain_translate (s : string) :
  plain s = true → translate_newlines s = s.
Proof.
  induction s as [|c s IH]; [done|]. cbn [plain Py.all_chars].
  intros [[_ Hc]%andb_true_iff Hs]%andb_true_iff.
  apply negb_true_iff in Hc. cbn [translate_newlines]. rewrite Hc.
  by rewrite (IH Hs).
Qed.

Lemma plain_split_last_cr (s : string) :
  plain s = true → split_last_cr s = (s, false).
Proof.
  induction s as [|c s IH]; [done|]. cbn [plain Py.all_chars].
  intros [[_ Hc]%andb_true_iff Hs]%andb_true_iff.
  apply negb_true_iff in Hc. cbn [split_last_cr].
  destruct s as [|c' s']; [by rewrite Hc|]. by rewrite (IH Hs).
Qed.

Lemma newline_decode_plain (s : string) :
  plain s = true → newline_decode false s false = (s, false).
Proof.
  intros Hs. unfold newline_decode. cbn [andb].
  by rewrite plain_split_last_cr, plain_translate.
Qed.

(** *** [readline] on plain text *)

Lemma chunk_size_pos : ∃ k, CHUNK_SIZE = S k.
Proof. by eexists. Qed.

(** A read returns the first line of what is unread, and leaves the rest
    unread, however the file falls into chunks. *)
Lemma readline_loop_plain (fuel : nat) (f : fsys) (h : handle) :
  clean h →
  plain (drop_str (h_pos h) (data f (h_ino h))) = true →
  (String.length (data f (h_ino h)) - h_pos h ≤ fuel)%nat →
  ∃ h', readline_loop fuel f h = inr (first_line (unread f h), h')
        ∧ clean h' ∧ h_ino h' = h_ino h
        ∧ (h_pos h ≤ h_pos h')%nat
        ∧ (h_pos h' ≤ h_pos h `max` String.length (data f (h_ino h)))%nat
        ∧ unread f h'
          = drop_str (String.length (first_line (unread f h))) (unread f h).
Proof.
  revert h. induction fuel as [|k IH]; intros h [Hp Hc] Hplain Hfuel;
    cbn [readline_loop]; unfold unread at 1 2 3;
    destruct (cut_line (h_text h)) as [[line rest]|] eqn:Hcut.
  1, 3: destruct (cut_line_some _ _ _ (drop_str (h_pos h) (data f (h_ino h)))
                    Hcut) as [Htext ->];
    eexists; split; [reflexivity|]; split; [done|]; split; [done|];
    split; [simpl; lia|]; split; [simpl; lia|];
    unfold unread; cbn [h_text h_pos h_ino]; rewrite Htext;
    by rewrite str_app_assoc, drop_str_app.
  - (* no fuel: the offset is at the end of the file *)
    rewrite (cut_line_none _ _ Hcut).
    rewrite FollowerFacts.substring_beyond by lia.
    rewrite FollowerFacts.drop_str_beyond by lia.
    rewrite Hp, Hc. cbn. eexists. split; [reflexivity|].
    split; [done|]. split; [done|]. split; [done|]. split; [simpl; lia|].
    unfold unread, at_offset. cbn [h_text h_pos h_ino].
    rewrite FollowerFacts.drop_str_beyond by lia.
    by rewrite app_nil_r_str, drop_str_all.
  - rewrite (cut_line_none _ _ Hcut).
    rewrite FollowerFacts.substring_drop.
    set (x := drop_str (h_pos h) (data f (h_ino h))) in *.
    destruct chunk_size_pos as [m Hm].
    destruct (substring 0 CHUNK_SIZE x) as [|c r] eqn:Hchunk.
    + (* the end of the file *)
      rewrite Hm in Hchunk. apply take_empty in Hchunk. rewrite Hchunk.
      rewrite Hp, Hc. cbn. eexists. split; [reflexivity|].
      split; [done|]. split; [done|]. split; [done|]. split; [simpl; lia|].
      unfold unread, at_offset. cbn [h_text h_pos h_ino]. fold x.
      rewrite Hchunk. by rewrite app_nil_r_str, drop_str_all.
    + (* one more chunk *)
      assert (Hpc : plain (String c r) = true)
        by (rewrite <- Hchunk; by apply plain_take).
      assert (Hlen : (String.length (String c r) ≤ String.length x)%nat)
        by (rewrite <- Hchunk; apply take_length).
      assert (Hx : String c r ++ drop_str (String.length (String c r)) x = x)
        by (rewrite <- Hchunk; apply take_drop_str).
      unfold x in Hlen. rewrite drop_str_length in Hlen.
      rewrite Hp. change (EmptyString ++ ?y) with y.
      rewrite FollowerFacts.utf8_decode_ascii by (by apply plain_isascii).
      rewrite Hc, newline_decode_plain by done.
      match goal with
      | |- context [readline_loop k f ?h1] =>
          destruct (IH h1) as (h' & -> & Hcl & Hi & Hlo & Hhi & Hun)
      end.
      * done.
      * cbn [h_pos h_ino]. rewrite drop_str_add. by apply plain_drop.
      * cbn [h_pos h_ino String.length] in *. lia.
      * assert (Hsame : unread f
                  {| h_ino := h_ino h;
                     h_pos := h_pos h + String.length (String c r);
                     h_part := ""; h_cr := false;
                     h_text := h_text h ++ String c r |}
                = h_text h ++ x).
        { unfold unread. cbn [h_text h_pos h_ino].
          rewrite drop_str_add. fold x. by rewrite str_app_assoc, Hx. }
        rewrite Hsame in *. rewrite <- (cut_line_none _ x Hcut).
        eexists. split; [reflexivity|]. split; [done|]. split; [done|].
        cbn [h_pos h_ino String.length] in *.
        split; [lia|]. split; [lia|]. done.
Qed.

Lemma readline_plain (f : fsys) (h : handle) :
  clean h →
  plain (drop_str (h_pos h) (data f (h_ino h))) = true →
  ∃ h', readline f h = inr (first_line (unread f h), h')
        ∧ clean h' ∧ h_ino h' = h_ino h
        ∧ (h_pos h ≤ h_pos h')%nat
        ∧ (h_pos h' ≤ h_pos h `max` String.length (data f (h_ino h)))%nat
        ∧ unread f h'
          = drop_str (String.length (first_line (unread f h))) (unread f h).
Proof. intros Hc Hp. by apply readline_loop_plain. Qed.

(** What one pass does with a handle on plain text: it yields the first
    unread line, or probes when nothing is unread. *)
Lemma step_plain (e : env) (fh : handle) (c : option nat) :
  quiet e → clean fh →
  plain (drop_str (h_pos fh) (data (fs e) (h_ino fh))) = true →
  ∃ fh',
    clean fh' ∧ h_ino fh' = h_ino fh
    ∧ (h_pos fh ≤ h_pos fh')%nat
    ∧ (h_pos fh' ≤ h_pos fh `max` String.length (data (fs e) (h_ino fh)))%nat
    ∧ unread (fs e) fh'
      = drop_str (String.length (first_line (unread (fs e) fh)))
          (unread (fs e) fh)
    ∧ step e (Running fh c)
      = match unread (fs e) fh with
        | EmptyString => probe (fs e) fh' c
        | _ => (Running fh' c,
                [Yield (Py.rstrip_nl (first_line (unread (fs e) fh)))])
        end.
Proof.
  unfold quiet. intros Hq Hc Hp.
  destruct (readline_plain (fs e) fh Hc Hp)
    as (fh' & Hread & Hc' & Hi & Hlo & Hhi & Hun).
  exists fh'. do 5 (split; [done|]). cbn [step]. rewrite Hq, Hread.
  destruct (unread (fs e) fh) as [|a r] eqn:Hu; [done|].
  pose proof (first_line_nonempty (String a r)) as Hne.
  destruct (first_line (String a r)); [by destruct Hne|done].
Qed.

(** X1: on a file of plain text that does not change and is not rotated,
    [n] passes yield the first [n] lines of what the handle has not
    returned yet, in file order and each once; a last fragment without
    newline counts as a line. *)
Theorem X1_static_file_lines_in_order
  (e : env) (n : nat) (fh : handle) (i : nat)
  (Hquiet : quiet e) (Hsame : stat_ino (fs e) = inr i)
  (Hclean : clean fh)
  (Hplain : plain (drop_str (h_pos fh) (data (fs e) (h_ino fh))) = true) :
  yields (run (replicate n e) (Running fh (Some i))).2
  = take n (split_lines (unread (fs e) fh)).
Proof.
  revert fh Hclean Hplain. induction n as [|n IH]; intros fh Hclean Hplain;
    [done|].
  cbn [replicate run].
  destruct (step_plain e fh (Some i) Hquiet Hclean Hplain)
    as (fh' & Hc' & Hi & Hlo & Hhi & Hun & ->).
  assert (Hp' : plain (drop_str (h_pos fh') (data (fs e) (h_ino fh'))) = true).
  { rewrite Hi. replace (h_pos fh') with (h_pos fh + (h_pos fh' - h_pos fh))%nat
      by lia. rewrite drop_str_add. by apply plain_drop. }
  specialize (IH fh' Hc' Hp'). rewrite Hun in IH.
  destruct (unread (fs e) fh) as [|a r] eqn:Hu.
  - (* nothing to read: the pass probes and sleeps *)
    unfold probe. rewrite Hsame.
    rewrite bool_decide_eq_false_2 by (intros Hne; by apply Hne).
    destruct (run (replicate n e) (Running fh' (Some i))) as [st out].
    simpl in *. rewrite IH. by destruct n.
  - rewrite (split_lines_first (String a r)) by done.
    destruct (run (replicate n e) (Running fh' (Some i))) as [st out].
    simpl in *. by rewrite IH.
Qed.

Lemma X1_static_file_lines_in_order_witness :
  yields (run (replicate 5 (disk [(1%nat, "a" ++ nl ++ nl ++ "bc")] (Some 1%nat) true))
            (Running (at_offset 1 0) (Some 1%nat))).2
  = take 5 (split_lines ("a" ++ nl ++ nl ++ "bc")).
Proof.
  apply (X1_static_file_lines_in_order
           (disk [(1%nat, "a" ++ nl ++ nl ++ "bc")] (Some 1%nat) true) 5
           (at_offset 1 0) 1%nat); reflexivity || done.
Defined.

(** A reader that stands at the end of an unchanged file, with nothing
    read ahead, stays there and yields nothing. *)
Lemma run_at_end_silent (e : env) (n : nat) (fh : handle) (i : nat)
  (Hquiet : quiet e) (Hsame : stat_ino (fs e) = inr i)
  (Hdrained : drained fh)
  (Hend : (String.length (data (fs e) (h_ino fh)) ≤ h_pos fh)%nat) :
  yields (run (replicate n e) (Running fh (Some i))).2 = [].
Proof.
  induction n as [|n IH]; [done|].
  cbn [replicate run].
  assert (Hstep : step e (Running fh (Some i)) = (Running fh (Some i), [Sleep 0.2])).
  { unfold quiet in Hquiet. cbn [step]. rewrite Hquiet.
    rewrite FollowerFacts.readline_at_end by done. unfold probe. rewrite Hsame.
    by rewrite bool_decide_eq_false_2 by (intros Hne; by apply Hne). }
  rewrite Hstep.
  destruct (run (replicate n e) (Running fh (Some i))) as [st out].
  simpl in *. by rewrite IH.
Qed.

(** X2: nothing of what the file holds when the follower opens it is ever
    yielded: the follower starts at the end of the file. *)
Theorem X2_no_history_replay (e : env) (n : nat) (i : nat)
  (Hquiet : quiet e) (Hres : resolvable e)
  (Hlinked : at_path (fs e) = Some i) (Hreadable : readable (fs e) = true) :
  yields (follow (replicate (S n) e)).2 = [].
Proof.
  unfold follow. cbn [replicate run step].
  unfold resolvable in Hres. unfold open. rewrite Hres, Hlinked, Hreadable.
  cbn [negb]. unfold opened.
  pose proof (run_at_end_silent e n (seek_end (fs e) (at_offset i 0)) i Hquiet)
    as Hx.
  unfold stat_ino in Hx. rewrite Hres, Hlinked in Hx. specialize (Hx eq_refl).
  cbn [at_offset h_ino] in *.
  specialize (Hx ltac:(done) ltac:(simpl; lia)).
  destruct (run (replicate n e) _) as [st out]. simpl in *.
  by rewrite Hx.
Qed.

Lemma X2_no_history_replay_witness :
  yields (follow (replicate 4 (disk [(1%nat, old_log)] (Some 1%nat) true))).2 = [].
Proof.
  apply (X2_no_history_replay (disk [(1%nat, old_log)] (Some 1%nat) true) 3 1%nat);
    reflexivity.
Defined.

(** X3: a fragment of plain text that no newline ends yet is yielded as
    it stands, and what completes the line later is yielded as a line of
    its own. *)
Theorem X3_unterminated_fragment_is_yielded
  (e1 e2 : env) (fh : handle) (c : option nat) (pre frag more rest : string)
  (Hq1 : quiet e1) (Hq2 : quiet e2)
  (Hdrained : drained fh)
  (Hpos : h_pos fh = String.length pre)
  (Hfrag : one_line frag = true) (Hne : frag ≠ EmptyString)
  (Hmore : one_line more = true)
  (Hplain : plain (frag ++ more ++ rest) = true)
  (Hdata1 : data (fs e1) (h_ino fh) = pre ++ frag)
  (Hdata2 : data (fs e2) (h_ino fh)
            = pre ++ frag ++ more ++ String "010" rest) :
  yields (run [e1; e2] (Running fh c)).2 = [frag; more].
Proof.
  destruct Hdrained as [Hclean Htext].
  assert (Hpf : plain frag = true ∧ plain more = true ∧ plain rest = true).
  { apply plain_app_inv in Hplain as [? Hplain].
    by apply plain_app_inv in Hplain as [? ?]. }
  destruct Hpf as (Hpfrag & Hpmore & Hprest).
  assert (Hu1 : unread (fs e1) fh = frag).
  { unfold unread. by rewrite Htext, Hpos, Hdata1, drop_str_app. }
  destruct (step_plain e1 fh c Hq1 Hclean)
    as (fh1 & Hc1 & Hi1 & Hlo1 & Hhi1 & Hun1 & Hs1).
  { by rewrite Hpos, Hdata1, drop_str_app. }
  rewrite Hu1 in Hun1, Hs1.
  destruct (first_line_one_line frag Hfrag) as [Hfl Hrs].
  rewrite Hfl in Hun1, Hs1. rewrite Hrs in Hs1. rewrite drop_str_all in Hun1.
  assert (Hstep1 : step e1 (Running fh c) = (Running fh1 c, [Yield frag]))
    by (rewrite Hs1; by destruct frag).
  apply app_empty_str in Hun1 as [Ht1 Hd1].
  assert (Hp1 : h_pos fh1 = (String.length pre + String.length frag)%nat).
  { apply (f_equal String.length) in Hd1. rewrite drop_str_length in Hd1.
    rewrite Hi1 in Hd1. rewrite Hdata1 in Hd1, Hhi1.
    assert (Hlen : String.length (pre ++ frag)
                   = (String.length pre + String.length frag)%nat).
    { clear. induction pre as [|a p IH]; [done|].
      change (String a p ++ frag) with (String a (p ++ frag)). simpl.
      by rewrite IH. }
    rewrite Hlen in Hd1, Hhi1. simpl in Hd1. lia. }
  assert (Hrest2 : drop_str (h_pos fh1) (data (fs e2) (h_ino fh1))
                   = more ++ String "010" rest).
  { rewrite Hi1, Hp1, Hdata2, drop_str_add, drop_str_app. apply drop_str_app. }
  assert (Hu2 : unread (fs e2) fh1 = more ++ String "010" rest).
  { unfold unread. by rewrite Ht1, Hrest2. }
  destruct (step_plain e2 fh1 c Hq2 Hc1)
    as (fh2 & _ & _ & _ & _ & _ & Hs2).
  { rewrite Hrest2. apply plain_app; [done|].
    apply andb_true_iff. by split. }
  rewrite Hu2 in Hs2.
  destruct (first_line_terminated more rest Hmore) as [Hf Hs].
  rewrite Hf, Hs in Hs2.
  assert (Hstep2 : step e2 (Running fh1 c) = (Running fh2 c, [Yield more]))
    by (rewrite Hs2; by destruct more).
  cbn [run]. by rewrite Hstep1, Hstep2.
Qed.

Lemma X3_unterminated_fragment_is_yielded_witness :
  yields (run [disk [(1%nat, "ab")] (Some 1%nat) true;
               disk [(1%nat, "abcd" ++ nl)] (Some 1%nat) true]
            (Running (at_offset 1 0) (Some 1%nat))).2
  = ["ab"; "cd"].
Proof.
  apply (X3_unterminated_fragment_is_yielded _ _ _ _ "" "ab" "cd" "");
    reflexivity || discriminate || done.
Defined.

(** X4: once the shutdown flag is set no line is yielded any more, in
    whatever state the follower is; a follower in its read loop stops at
    the first pass, even with unread lines ahead. *)
Theorem X4_shutdown_stops_reading (trace : list env) (st : state)
  (Hdown : Forall (λ e, shutdown e = true) trace) :
  yields (run trace st).2 = []
  ∧ ∀ e rest fh c, trace = e :: rest →
      st = Running fh c → (run trace st).1 = Exited Stopped.
Proof.
  split.
  - revert st. induction trace as [|e trace IH]; intros st; [done|].
    inversion Hdown as [|? ? He Ht]; subst. cbn [run].
    assert (Hstep : yields (step e st).2 = []).
    { destruct st as [| |fh c|r]; cbn [step].
      - destruct (open (fs e)) as [[|]|h]; done.
      - rewrite He. unfold open_after_wait. by destruct (open (fs e)).
      - by rewrite He.
      - done. }
    destruct (step e st) as [st1 out1]. specialize (IH Ht st1).
    destruct (run trace st1) as [st2 out2]. simpl in *.
    unfold yields in *. by rewrite omap_app, Hstep, IH.
  - intros e rest fh c -> ->. inversion Hdown as [|? ? He Ht]; subst.
    cbn [run step]. rewrite He. clear. induction rest as [|e' rest IH]; [done|].
    cbn [run step]. destruct (run rest (Exited Stopped)) as [st2 out2]. done.
Qed.

Lemma X4_shutdown_stops_reading_witness :
  yields (run [ {| fs := fs (disk [(1%nat, old_log)] (Some 1%nat) true);
                   shutdown := true |} ]
            (Running (at_offset 1 0) (Some 1%nat))).2 = [].
Proof.
  refine (proj1 (X4_shutdown_stops_reading _ _ _)). repeat constructor.
Defined.

(** *** Carriage returns *)

Lemma take_all (m : nat) (s : string) :
  (String.length s ≤ m)%nat → substring 0 m s = s.
Proof.
  revert s. induction m as [|m IH]; intros s Hs.
  - destruct s; [done|simpl in Hs; lia].
  - destruct s as [|c s]; [done|]. cbn [substring]. rewrite IH; [done|].
    simpl in Hs. lia.
Qed.

Lemma isascii_app (a b : string) :
  Py.isascii a = true → Py.isascii b = true → Py.isascii (a ++ b) = true.
Proof.
  induction a as [|c a IH]; [done|]. intros [Hc Ha]%andb_true_iff Hb.
  change (String c a ++ b) with (String c (a ++ b)).
  apply andb_true_iff. split; [exact Hc|by apply IH].
Qed.

(** Translation turns the carriage return after a plain piece into the
    newline that ends it. *)
Lemma translate_after_plain (line x : string) :
  plain line = true →
  ∃ y, translate_newlines (line ++ String "013" x) = line ++ String "010" y.
Proof.
  induction line as [|c line IH]; intros Hp.
  - change (EmptyString ++ ?s) with s. cbn [translate_newlines Ascii.eqb].
    simpl. destruct x as [|c' x']; [by eexists|].
    destruct (Ascii.eqb c' "010"); by eexists.
  - cbn [plain Py.all_chars] in Hp.
    apply andb_true_iff in Hp as [[_ Hc]%andb_true_iff Hp].
    apply negb_true_iff in Hc.
    change (String c line ++ ?s) with (String c (line ++ s)).
    cbn [translate_newlines]. rewrite Hc.
    destruct (IH Hp) as [y ->]. by exists y.
Qed.

Lemma split_last_cr_app (a s : string) :
  s ≠ EmptyString →
  split_last_cr (a ++ s) = (a ++ (split_last_cr s).1, (split_last_cr s).2).
Proof.
  intros Hs. induction a as [|c a IH].
  { change (EmptyString ++ ?x) with x. by destruct (split_last_cr s). }
  change (String c a ++ ?x) with (String c (a ++ x)).
  destruct (a ++ s) as [|c' r] eqn:Has.
  - apply app_empty_str in Has as [_ ?]. done.
  - change (split_last_cr (String c (String c' r)))
      with (let (r', cr) := split_last_cr (String c' r) in (String c r', cr)).
    by rewrite IH.
Qed.

Lemma split_last_cr_plain_cr (line : string) :
  split_last_cr (line ++ String "013" EmptyString) = (line, true).
Proof.
  rewrite split_last_cr_app by done. simpl. by rewrite app_nil_r_str.
Qed.

Lemma cut_line_terminated (line y : string) :
  one_line line = true →
  cut_line (line ++ String "010" y) = Some (line ++ String "010" EmptyString, y).
Proof.
  induction line as [|c line IH]; [done|]. cbn [one_line].
  intros [Hc Hl]%andb_true_iff. apply negb_true_iff in Hc.
  change (String c line ++ ?s) with (String c (line ++ s)).
  cbn [cut_line]. by rewrite Hc, IH.
Qed.

Lemma cut_line_one_line (line : string) :
  one_line line = true → cut_line line = None.
Proof.
  induction line as [|c line IH]; [done|]. cbn [one_line].
  intros [Hc Hl]%andb_true_iff. apply negb_true_iff in Hc.
  cbn [cut_line]. by rewrite Hc, IH.
Qed.

(** A read that finds no complete line in the text read ahead, and bytes
    left in the file, decodes the next chunk. *)
Lemma readline_loop_chunk (k : nat) (f : fsys) (h : handle) :
  cut_line (h_text h) = None →
  substring (h_pos h) CHUNK_SIZE (data f (h_ino h)) ≠ EmptyString →
  readline_loop (S k) f h
  = match utf8_decode Boundary EmptyString
            (h_part h ++ substring (h_pos h) CHUNK_SIZE (data f (h_ino h))) with
    | Some (chars, part) =>
        let (out, cr) := newline_decode (h_cr h) chars false in
        readline_loop k f
          {| h_ino := h_ino h;
             h_pos := h_pos h
                      + String.length
                          (substring (h_pos h) CHUNK_SIZE (data f (h_ino h)));
             h_part := part; h_cr := cr; h_text := h_text h ++ out |}
    | None => inl UnicodeDecodeError
    end.
Proof.
  intros Hcut Hne. cbn [readline_loop]. rewrite Hcut.
  by destruct (substring (h_pos h) CHUNK_SIZE (data f (h_ino h))).
Qed.

(** X19: a carriage return ends a line.  When what a follower with
    nothing read ahead has before it fits one chunk, is ASCII, and begins
    with a piece without carriage return or newline followed by a
    carriage return, the pass yields that piece as a line, whether a
    newline follows the carriage return, or other text, or nothing. *)
Theorem X19_carriage_return_ends_line
  (e : env) (fh : handle) (c : option nat) (line rest : string)
  (Hquiet : quiet e) (Hdrained : drained fh)
  (Hdata : drop_str (h_pos fh) (data (fs e) (h_ino fh))
           = line ++ String "013" rest)
  (Hline : plain line = true) (Hone : one_line line = true)
  (Hrest : Py.isascii rest = true)
  (Hfits : (String.length (line ++ String "013" rest) ≤ CHUNK_SIZE)%nat) :
  (step e (Running fh c)).2 = [Yield line].
Proof.
  destruct Hdrained as [[Hp Hc] Ht]. unfold quiet in Hquiet.
  cbn [step]. rewrite Hquiet. unfold readline.
  assert (Hlen : (String.length (data (fs e) (h_ino fh)) - h_pos fh)%nat
                 = String.length (line ++ String "013" rest))
    by (by rewrite <- Hdata, drop_str_length).
  assert (Hpos : ∃ k, String.length (line ++ String "013" rest) = S k).
  { clear. induction line as [|a line IH]; simpl; by eexists. }
  destruct Hpos as [k Hk]. rewrite Hlen, Hk.
  assert (Hchunk : substring (h_pos fh) CHUNK_SIZE (data (fs e) (h_ino fh))
                   = line ++ String "013" rest)
    by (by rewrite FollowerFacts.substring_drop, Hdata, take_all).
  rewrite readline_loop_chunk
    by (by rewrite ?Ht, ?Hchunk; try (intros Hnil; rewrite Hnil in Hk)).
  rewrite Hchunk, Hp, Ht. change (EmptyString ++ ?x) with x.
  rewrite FollowerFacts.utf8_decode_ascii
    by (apply isascii_app; [by apply plain_isascii|];
        apply andb_true_iff; split; [reflexivity|exact Hrest]).
  rewrite Hc. unfold newline_decode. cbn [andb].
  destruct rest as [|b rest'].
  - (* the carriage return is the last byte: held back, put out at the end *)
    rewrite split_last_cr_plain_cr, plain_translate by done.
    set (h1 := {| h_ino := h_ino fh; h_pos := _; h_part := _; h_cr := _;
                  h_text := _ |}).
    assert (Hnext : readline_loop k (fs e) h1
                    = inr (line ++ String "010" EmptyString,
                           at_offset (h_ino h1) (h_pos h1))).
    { assert (Hend : substring (h_pos h1) CHUNK_SIZE (data (fs e) (h_ino h1))
                     = EmptyString).
      { apply FollowerFacts.substring_beyond. unfold h1. cbn [h_pos h_ino].
        lia. }
      destruct k; cbn [readline_loop]; unfold h1 at 1; cbn [h_text];
        change (EmptyString ++ line) with line;
        rewrite (cut_line_one_line line Hone), Hend; reflexivity. }
    rewrite Hnext.
    destruct (first_line_terminated line EmptyString Hone) as [_ Hstrip].
    destruct (line ++ String "010" EmptyString) as [|a r] eqn:Hl.
    + by destruct line.
    + cbn [snd]. by rewrite Hstrip.
  - (* text follows: the newline is in the text that was decoded *)
    rewrite (split_last_cr_app line (String "013" (String b rest')))
      by done.
    destruct (split_last_cr (String "013" (String b rest'))) as [body held]
      eqn:Hsplit.
    assert (Hbody : ∃ x, body = String "013" x).
    { change (split_last_cr (String "013" (String b rest')))
        with (let (r', cr) := split_last_cr (String b rest') in
              (String "013" r', cr)) in Hsplit.
      destruct (split_last_cr (String b rest')) as [r' cr].
      injection Hsplit as <- _. by eexists. }
    destruct Hbody as [x ->]. cbn [fst snd].
    destruct (translate_after_plain line x Hline) as [y ->].
    destruct k; cbn [readline_loop h_text];
      change (EmptyString ++ ?s) with s;
      rewrite (cut_line_terminated line y Hone);
      destruct (first_line_terminated line EmptyString Hone) as [_ Hstrip];
      (destruct (line ++ String "010" EmptyString) as [|a r] eqn:Hl;
       [by destruct line|cbn [snd]; by rewrite Hstrip]).
Qed.

Lemma X19_carriage_return_ends_line_witness :
  (step (disk [(1%nat, "GET /" ++ String "013" nl ++ "Host: a")]
              (Some 1%nat) true)
        (Running (at_offset 1 0) (Some 1%nat))).2
  = [Yield "GET /"].
Proof.
  apply (X19_carriage_return_ends_line
           (disk [(1%nat, "GET /" ++ String "013" nl ++ "Host: a")]
                 (Some 1%nat) true)
           (at_offset 1 0) (Some 1%nat) "GET /" (nl ++ "Host: a"));
    try reflexivity; try done.
  vm_compute. lia.
Defined.

End FollowerExtras.

(** * Further properties of the agent *)

Section AgentExtras.
Import SpoolOrder.

Variable cfg : config.
Variable extract_meta : string → meta.
Variable dump_size : json → N.

#[local] Set Default Proof Using "Type".

(** *** The order in which a drain takes the files *)

Lemma ltb_true_lt (x y : Q) : Py.ltb x y = true → (x < y)%Q.
Proof. unfold Py.ltb. by destruct (Qlt_le_dec x y). Qed.

Lemma ltb_false_le (x y : Q) : Py.ltb x y = false → (y <= x)%Q.
Proof. unfold Py.ltb. by destruct (Qlt_le_dec x y). Qed.

Lemma insert_by_mtime_sorted (x : string * dirent) (l : list (string * dirent)) :
  StronglySorted by_mtime l → StronglySorted by_mtime (insert_by_mtime x l).
Proof.
  induction 1 as [|y l Hl IH Hy]; simpl.
  - repeat constructor.
  - destruct (Py.ltb (st_mtime y.2) (st_mtime x.2)) eqn:Hlt.
    + apply ltb_true_lt, Qlt_le_weak in Hlt.
      constructor; [exact IH|]. rewrite Forall_forall. intros z Hz.
      apply insert_by_mtime_elem in Hz as [->|Hz]; [exact Hlt|].
      rewrite Forall_forall in Hy. by apply Hy.
    + apply ltb_false_le in Hlt.
      constructor; [by constructor|]. constructor; [exact Hlt|].
      eapply Forall_impl; [exact Hy|]. intros z Hz. unfold by_mtime in *.
      by eapply Qle_trans.
Qed.

Lemma sort_by_mtime_sorted (l : list (string * dirent)) :
  StronglySorted by_mtime (sort_by_mtime l).
Proof.
  induction l as [|x l IH]; simpl; [constructor|].
  by apply insert_by_mtime_sorted.
Qed.

Lemma sorted_names (s : gmap string dirent) (l : list (string * dirent)) :
  (∀ x, x ∈ l → s !! x.1 = Some x.2) →
  StronglySorted by_mtime l → StronglySorted (mtime_le s) l.*1.
Proof.
  intros Hin. induction 1 as [|x l Hl IH Hx]; simpl; constructor.
  - apply IH. intros y Hy. apply Hin. by right.
  - rewrite Forall_fmap, Forall_forall. intros y Hy da db Ha Hb. simpl in *.
    rewrite Forall_forall in Hx. specialize (Hx y Hy).
    rewrite (Hin x) in Ha by left. rewrite (Hin y) in Hb by (by right).
    injection Ha as <-. injection Hb as <-. exact Hx.
Qed.

(** X5: a drain visits every regular file of the spool directory exactly
    once and no other entry, oldest modification time first. *)
Theorem X5_drain_order_oldest_first (s : gmap string dirent) :
  NoDup (spool_files s)
  ∧ (∀ name, name ∈ spool_files s ↔ ∃ d, s !! name = Some d ∧ is_file d = true)
  ∧ StronglySorted (mtime_le s) (spool_files s).
Proof.
  split; [|split].
  - apply spool_files_NoDup.
  - apply spool_files_elem.
  - unfold spool_files. apply sorted_names; [|apply sort_by_mtime_sorted].
    intros [n d] Hx. apply (proj1 (sort_by_mtime_elem _ _)) in Hx.
    apply list_elem_of_filter in Hx as [_ Hx].
    by apply elem_of_map_to_list in Hx.
Qed.

(** *** A drain against a reachable endpoint *)

Lemma loadable_agree (s1 s2 : gmap string dirent) (files : list string) :
  (∀ name, name ∈ files → s1 !! name = s2 !! name) →
  loadable s1 files = loadable s2 files.
Proof.
  unfold loadable. intros Heq. apply list_omap_ext.
  induction files as [|f rest IH]; constructor.
  - rewrite (Heq f); [done|left].
  - apply IH. intros name Hin. apply Heq. by right.
Qed.

Lemma loadable_cons (s : gmap string dirent) (f : string) (rest : list string) :
  loadable s (f :: rest)
  = match s !! f ≫= load with
    | Some doc => doc :: loadable s rest
    | None => loadable s rest
    end.
Proof. reflexivity. Qed.

Lemma flush_spool_files_endpoint_up (files : list string) (w : world) :
  timeouts_ok cfg = true → NoDup files → endpoint_up w →
  (flush_spool_files cfg files w).1 = true
  ∧ requests (flush_spool_files cfg files w).2
    = (requests w ++ (build_request cfg <$> loadable (spool w) files))%list.
Proof.
  intros Htime. revert w. induction files as [|f rest IH]; intros w Hnd Hup.
  - simpl. split; [done|]. by rewrite app_nil_r.
  - apply NoDup_cons in Hnd as [Hf Hnd].
    destruct (flush_spool_files_cases cfg f rest w)
      as [[Hload ->]|[(doc & Hload & _ & Hok & ->)
                     |(doc & Hload & _ & Hfail & _)]].
    + destruct Hload as [Hload|?]; [|congruence].
      set (w1 := (unlink f (log (LogCorruptSpoolFile f) w).2).2).
      destruct (IH w1 Hnd Hup) as [Htrue Hreq].
      split; [exact Htrue|]. rewrite Hreq.
      rewrite (loadable_cons (spool w)), Hload.
      rewrite (loadable_agree (spool w1) (spool w) rest); [done|].
      intros name Hin. unfold w1. simpl. apply lookup_delete_ne.
      intros ->. by apply Hf.
    + destruct (send_batch_http_spec cfg doc w Htime)
        as (_ & Hsent & Hspool & Hmem).
      set (w1 := (log (LogFlushedSpoolFile f)
                    (unlink f (send_batch_http cfg doc w).2).2).2).
      assert (Hrq : requests w1 = (requests w ++ [build_request cfg doc])%list)
        by exact Hsent.
      assert (Hup1 : endpoint_up w1).
      { intros i Hi. destruct Hmem as (_ & _ & _ & Hnet & _).
        change (net w1) with (net (send_batch_http cfg doc w).2).
        rewrite Hnet. apply Hup. rewrite Hrq, length_app in Hi. lia. }
      destruct (IH w1 Hnd Hup1) as [Htrue Hreq].
      split; [exact Htrue|]. rewrite Hreq, Hrq.
      rewrite (loadable_cons (spool w)), Hload.
      rewrite <- app_assoc, fmap_cons. cbn [app].
      rewrite (loadable_agree (spool w1) (spool w) rest); [done|].
      intros name Hin. unfold w1. simpl. rewrite Hspool.
      apply lookup_delete_ne. intros ->. by apply Hf.
    + destruct (send_batch_http_spec cfg doc w Htime) as (Hflag & _).
      rewrite Hflag, (Hup (length (requests w))) in Hfail by done.
      discriminate.
Qed.

(** X6: with positive timeouts and the spool directory in place, while
    the endpoint answers every POST with a success status, a drain returns
    [True], and the POSTs it makes are exactly the documents of the
    regular files that load, one each, oldest file first. *)
Theorem X6_drain_replays_in_order (w : world)
  (Htimeouts : timeouts_ok cfg = true) (Hdir : spool_exists w = true)
  (Hup : endpoint_up w) :
  (flush_spool_once cfg w).1 = Returns true
  ∧ requests (flush_spool_once cfg w).2
    = (requests w
       ++ (build_request cfg
             <$> loadable (spool w) (spool_files (spool w))))%list.
Proof.
  destruct (flush_spool_once_unfold cfg w Hdir) as [-> ->].
  destruct (flush_spool_files_endpoint_up (spool_files (spool w))
              (set_drains (drains w ++ [clock w]) w)
              Htimeouts (spool_files_NoDup (spool w)) Hup) as [-> Hreq].
  by split.
Qed.

(** *** What becomes of a batch *)

(** The three ends of [spool_batch], each told by the entry it logs. *)
Lemma spool_batch_outcome (doc : json) (w : world) :
  buffer (spool_batch cfg dump_size doc w).2 = buffer w
  ∧ ((MAX_SPOOL_BYTES cfg < Z.of_N (spool_total (spool w))
      ∧ spool (spool_batch cfg dump_size doc w).2 = spool w
      ∧ last (logs (spool_batch cfg dump_size doc w).2)
        = Some (LogSpoolSkipped (spool_total (spool w)) (MAX_SPOOL_BYTES cfg)))
     ∨ (spool (spool_batch cfg dump_size doc w).2 = spool w
        ∧ last (logs (spool_batch cfg dump_size doc w).2) = Some LogSpoolFailed)
     ∨ (spool (spool_batch cfg dump_size doc w).2
        = <[batch_file_name (clock w) (uuids w (uuids_drawn w)) :=
             {| is_file := true; st_mtime := clock w;
                st_size := dump_size doc; load := Some doc |}]> (spool w)
        ∧ last (logs (spool_batch cfg dump_size doc w).2)
          = Some (LogSpooled
                    (batch_file_name (clock w) (uuids w (uuids_drawn w)))))).
Proof.
  unfold spool_batch, bind, gets, time_time, uuid4, write_json, log, modify.
  simpl. destruct (MAX_SPOOL_BYTES cfg <? Z.of_N (spool_total (spool w))) eqn:Hq.
  - apply Z.ltb_lt in Hq. simpl. split; [done|]. left.
    split; [done|]. split; [done|]. by rewrite last_snoc.
  - simpl. destruct (spool_exists w && spool_writable w && _) eqn:Hwr; simpl.
    + split; [done|]. right. right. split; [done|]. by rewrite last_snoc.
    + split; [done|]. right. left. split; [done|]. by rewrite last_snoc.
Qed.

(** X7: a batch taken from the buffer is accounted for by the last entry
    of the self-log when [attempt_flush_buffer] returns: it was POSTed
    last and acknowledged, or it lies in a new spool file, or the entry
    says that the write was skipped over the quota or failed. *)
Theorem X7_batch_delivered_spooled_or_logged
  (w : world) (force : bool) (batch : list event)
  (Htaken : (locked_drain cfg force w).1 = Some batch)
  (Hreturns : (attempt_flush_buffer cfg dump_size force w).1 = Returns tt) :
  match last (logs (attempt_flush_buffer cfg dump_size force w).2) with
  | Some (LogSentBatch n) =>
      n = length batch
      ∧ ∃ i, S i = length (requests (attempt_flush_buffer cfg dump_size force w).2)
             ∧ requests (attempt_flush_buffer cfg dump_size force w).2 !! i
               = Some (build_request cfg (events_json batch))
             ∧ is_success (outcome (net w i)) = true
  | Some (LogSpooled fname) =>
      ∃ d, spool (attempt_flush_buffer cfg dump_size force w).2 !! fname = Some d
           ∧ is_file d = true ∧ load d = Some (events_json batch)
  | Some (LogSpoolSkipped total quota) =>
      quota = MAX_SPOOL_BYTES cfg ∧ quota < Z.of_N total
  | Some LogSpoolFailed => True
  | _ => False
  end.
Proof.
  destruct (locked_drain_some cfg force w batch Htaken) as (_ & _ & Heq).
  revert Hreturns. unfold attempt_flush_buffer, bind. rewrite Heq.
  set (v := set_buffer [] w). intros Hret.
  destruct (spool_exists v) eqn:Hdir;
    [|by rewrite flush_batch_missing in Hret].
  destruct (timeouts_ok cfg) eqn:Hok;
    [|by rewrite flush_batch_invalid in Hret].
  destruct (flush_batch_returns cfg dump_size batch v Hdir Hok) as (w3 & -> & ->).
  set (w1 := (flush_spool_once cfg v).2).
  destruct (send_batch_http_spec cfg (events_json batch) w1 Hok)
    as (_ & Hsent & _ & _).
  cbn [snd]. change (net v) with (net w).
  destruct (is_success (outcome (net w (length (requests w1))))) eqn:Hsucc.
  - simpl. rewrite last_snoc. split; [done|].
    exists (length (requests w1)). rewrite Hsent.
    split; [rewrite length_app; simpl; lia|].
    split; [rewrite lookup_app_r by done; by rewrite Nat.sub_diag|done].
  - set (w2 := (send_batch_http cfg (events_json batch) w1).2).
    destruct (spool_batch_outcome (events_json batch) w2)
      as (_ & [(Hover & _ & Hlog)|[(_ & Hlog)|(Hins & Hlog)]]);
      simpl; rewrite Hlog; [done|done|].
    rewrite Hins, lookup_insert_eq. by eexists.
Qed.

Lemma spool_batch_writes (doc : json) (w : world) :
  Z.of_N (spool_total (spool w)) ≤ MAX_SPOOL_BYTES cfg →
  spool_exists w = true → spool_writable w = true →
  spool w !! batch_file_name (clock w) (uuids w (uuids_drawn w)) = None →
  spool (spool_batch cfg dump_size doc w).2
  = <[batch_file_name (clock w) (uuids w (uuids_drawn w)) :=
       {| is_file := true; st_mtime := clock w;
          st_size := dump_size doc; load := Some doc |}]> (spool w)
  ∧ requests (spool_batch cfg dump_size doc w).2 = requests w
  ∧ net (spool_batch cfg dump_size doc w).2 = net w
  ∧ spool_exists (spool_batch cfg dump_size doc w).2 = true.
Proof.
  intros Hroom Hdir Hwr Hfree. apply Z.ltb_ge in Hroom.
  unfold spool_batch, bind, gets, time_time, uuid4, write_json, log, modify.
  simpl. rewrite Hroom. simpl. rewrite Hdir, Hwr, Hfree. done.
Qed.

(** X9: with positive timeouts, spooling into an empty, writable spool
    and then draining against an endpoint that accepts the next POST is a
    round trip: the drain POSTs the batch as a live send would have,
    returns [True], and the spool is empty again. *)
Theorem X9_spool_then_drain_round_trip (w : world) (doc : json)
  (Htimeouts : timeouts_ok cfg = true)
  (Hdir : spool_exists w = true)
  (Hempty : spool w = ∅) (Hwritable : spool_writable w = true)
  (Hquota : 0 ≤ MAX_SPOOL_BYTES cfg)
  (Hnext : is_success (outcome (net w (length (requests w)))) = true) :
  (flush_spool_once cfg (spool_batch cfg dump_size doc w).2).1 = Returns true
  ∧ spool (flush_spool_once cfg (spool_batch cfg dump_size doc w).2).2 = ∅
  ∧ requests (flush_spool_once cfg (spool_batch cfg dump_size doc w).2).2
    = (requests w ++ [build_request cfg doc])%list.
Proof.
  set (name := batch_file_name (clock w) (uuids w (uuids_drawn w))).
  set (d := {| is_file := true; st_mtime := clock w;
               st_size := dump_size doc; load := Some doc |}).
  assert (Hw1 : spool (spool_batch cfg dump_size doc w).2 = {[name := d]}
                ∧ requests (spool_batch cfg dump_size doc w).2 = requests w
                ∧ net (spool_batch cfg dump_size doc w).2 = net w
                ∧ spool_exists (spool_batch cfg dump_size doc w).2 = true).
  { destruct (spool_batch_writes doc w) as (Hs & Hr & Hn & He).
    - rewrite Hempty. unfold spool_total. rewrite map_fold_empty. simpl. lia.
    - done.
    - done.
    - by rewrite Hempty, lookup_empty.
    - rewrite Hs, Hempty, insert_empty. done. }
  destruct Hw1 as (Hsp & Hrq & Hnet & Hdir1).
  set (w1 := (spool_batch cfg dump_size doc w).2) in *.
  destruct (flush_spool_once_unfold cfg w1 Hdir1) as [-> ->].
  assert (Hfiles : spool_files (spool w1) = [name]).
  { unfold spool_files. rewrite Hsp, map_to_list_singleton.
    rewrite filter_cons_True by done. by rewrite filter_nil. }
  rewrite Hfiles.
  set (w2 := set_drains (drains w1 ++ [clock w1]) w1).
  destruct (send_batch_http_spec cfg doc w2 Htimeouts)
    as (Hflag & Hsent & Hspool & _).
  destruct (flush_spool_files_cases cfg name [] w2)
    as [[Hload _]|[(doc' & Hload & _ & _ & ->)|(doc' & Hload & _ & Hfail & _)]].
  - change (spool w2) with (spool w1) in Hload.
    rewrite Hsp, lookup_singleton_eq in Hload.
    destruct Hload; [discriminate|congruence].
  - change (spool w2) with (spool w1) in Hload.
    rewrite Hsp, lookup_singleton_eq in Hload. injection Hload as <-.
    simpl. split; [done|]. rewrite Hspool, Hsent.
    change (spool w2) with (spool w1). change (requests w2) with (requests w1).
    rewrite Hsp, Hrq. split; [apply delete_singleton_eq|done].
  - change (spool w2) with (spool w1) in Hload.
    rewrite Hsp, lookup_singleton_eq in Hload. injection Hload as <-.
    rewrite Hflag in Hfail.
    change (net w2) with (net w1) in Hfail.
    change (requests w2) with (requests w1) in Hfail.
    rewrite Hnet, Hrq, Hnext in Hfail. discriminate.
Qed.

End AgentExtras.

(** * Further properties of the Python primitives *)

Module PyExtras.

Lemma hex_char_inj (a b : N) :
  (a < 16)%N → (b < 16)%N → Py.hex_char a = Py.hex_char b → a = b.
Proof.
  intros Ha Hb Heq. apply (f_equal N_of_ascii) in Heq. unfold Py.hex_char in Heq.
  rewrite !N_ascii_embedding in Heq by (repeat case_match; lia).
  destruct (a <? 10)%N eqn:Ea, (b <? 10)%N eqn:Eb;
    try apply N.ltb_lt in Ea; try apply N.ltb_lt in Eb;
    try apply N.ltb_ge in Ea; try apply N.ltb_ge in Eb; lia.
Qed.

Lemma hex_fixed_inj (n : nat) (x y : N) (acc1 acc2 : string) :
  (x < 16 ^ N.of_nat n)%N → (y < 16 ^ N.of_nat n)%N →
  Py.hex_fixed n x acc1 = Py.hex_fixed n y acc2 → x = y ∧ acc1 = acc2.
Proof.
  revert x y acc1 acc2. induction n as [|n IH]; intros x y acc1 acc2 Hx Hy Heq.
  - simpl in *. split; [lia|done].
  - rewrite Nat2N.inj_succ, N.pow_succ_r' in Hx, Hy. cbn [Py.hex_fixed] in Heq.
    apply IH in Heq as [Hq Hacc].
    + injection Hacc as Hc ->. split; [|done].
      apply hex_char_inj in Hc; [|apply N.mod_upper_bound; lia..].
      rewrite (N.div_mod x 16), (N.div_mod y 16) by lia. by rewrite Hq, Hc.
    + apply N.Div0.div_lt_upper_bound. lia.
    + apply N.Div0.div_lt_upper_bound. lia.
Qed.

(** The 32 digits determine the uuid. *)
Lemma uuid_hex_inj (u v : N) :
  (u < 2 ^ 128)%N → (v < 2 ^ 128)%N → Py.uuid_hex u = Py.uuid_hex v → u = v.
Proof.
  intros Hu Hv Heq. unfold Py.uuid_hex in Heq.
  by apply hex_fixed_inj in Heq as [-> _].
Qed.

Lemma substring_split (s : string) (a b c : nat) :
  substring a (b + c) s = substring a b s ++ substring (a + b) c s.
Proof.
  revert a b. induction s as [|x s IH]; intros a b.
  - destruct a, b, c; reflexivity.
  - destruct a as [|a]; [|apply IH].
    destruct b as [|b]; [reflexivity|].
    cbn [substring Nat.add].
    change (String x ?p ++ ?q) with (String x (p ++ q)).
    f_equal. apply (IH 0%nat b).
Qed.

Lemma substring_all (s : string) : substring 0 (String.length s) s = s.
Proof. induction s as [|x s IH]; simpl; by f_equal. Qed.

Lemma substring_all_chars (p : ascii → bool) (s : string) (a b : nat) :
  Py.all_chars p s = true → Py.all_chars p (substring a b s) = true.
Proof.
  revert a b. induction s as [|x s IH]; intros a b Hs.
  - by destruct a, b.
  - simpl in Hs. apply andb_true_iff in Hs as [Hx Hs].
    destruct a as [|a]; [|by apply IH].
    destruct b as [|b]; [done|]. simpl. rewrite Hx. by apply IH.
Qed.

Lemma undash_app (a b : string) : undash (a ++ b) = undash a ++ undash b.
Proof.
  induction a as [|c a IH]; [done|]. simpl. destruct (Ascii.eqb c "-"); simpl;
    by rewrite IH.
Qed.

Lemma undash_hex (s : string) : Py.all_chars Py.is_hex s = true → undash s = s.
Proof.
  induction s as [|c s IH]; [done|]. simpl. intros [Hc Hs]%andb_true_iff.
  rewrite IH by done. destruct (Ascii.eqb c "-") eqn:Hd; [|done].
  apply Ascii.eqb_eq in Hd as ->. discriminate.
Qed.

Lemma undash_uuid_str (u : N) : undash (Py.uuid_str u) = Py.uuid_hex u.
Proof.
  unfold Py.uuid_str. cbv zeta.
  destruct (PyFacts.uuid_hex_ok u) as [Hhex _].
  pose proof (PyFacts.hex_fixed_length 32 u "") as Hlen.
  fold (Py.uuid_hex u) in Hlen. cbn [String.length Nat.add] in Hlen.
  generalize dependent (Py.uuid_hex u). intros h Hhex Hlen.
  rewrite !undash_app. change (undash "-") with "".
  rewrite !undash_hex by (by apply substring_all_chars).
  repeat change ("" ++ ?x) with x.
  pose proof (substring_split h 0 8 24) as E1.
  pose proof (substring_split h 8 4 20) as E2.
  pose proof (substring_split h 12 4 16) as E3.
  pose proof (substring_split h 16 4 12) as E4.
  cbn [Nat.add] in E1, E2, E3, E4.
  rewrite <- E4, <- E3, <- E2, <- E1.
  rewrite <- Hlen. apply substring_all.
Qed.

Lemma uuid_str_inj (u v : N) :
  (u < 2 ^ 128)%N → (v < 2 ^ 128)%N → Py.uuid_str u = Py.uuid_str v → u = v.
Proof.
  intros Hu Hv Heq. apply (f_equal undash) in Heq.
  rewrite !undash_uuid_str in Heq. by apply uuid_hex_inj.
Qed.

Lemma length_app_str (a b : string) :
  String.length (a ++ b) = (String.length a + String.length b)%nat.
Proof. induction a as [|c a IH]; simpl; [done|]. by rewrite IH. Qed.

(** Equal texts cut at the same place have equal parts. *)
Lemma app_inj_len (a b x y : string) :
  a ++ x = b ++ y → String.length a = String.length b → a = b ∧ x = y.
Proof.
  revert b. induction a as [|c a IH]; intros [|d b] Heq Hab;
    simpl in *; try done.
  injection Heq as -> Heq. injection Hab as Hab.
  by destruct (IH b Heq Hab) as [-> ->].
Qed.

Lemma app_tail_inj (a b x y : string) :
  a ++ x = b ++ y → String.length x = String.length y → x = y.
Proof.
  intros Heq Hlen. apply (app_inj_len a b x y Heq).
  apply (f_equal String.length) in Heq. rewrite !length_app_str in Heq. lia.
Qed.

(** X12: the name of a spool file determines the uuid it was made from,
    whatever the clock read: two writes whose [uuid4()] differ never use
    the same file name. *)
Theorem X12_batch_file_name_tells_uuid (t1 t2 : Q) (u1 u2 : N)
  (H1 : (u1 < 2 ^ 128)%N) (H2 : (u2 < 2 ^ 128)%N)
  (Hname : batch_file_name t1 u1 = batch_file_name t2 u2) :
  u1 = u2.
Proof.
  unfold batch_file_name in Hname.
  pose proof (PyFacts.hex_fixed_length 32 u1 "") as L1.
  pose proof (PyFacts.hex_fixed_length 32 u2 "") as L2.
  fold (Py.uuid_hex u1) in L1. fold (Py.uuid_hex u2) in L2.
  cbn [String.length Nat.add] in L1, L2.
  apply (app_inj_len "batch-" "batch-") in Hname as [_ Hname]; [|done].
  apply app_tail_inj in Hname;
    [|rewrite !length_app_str; cbn [String.length]; lia].
  apply (app_inj_len "-" "-") in Hname as [_ Hname]; [|done].
  apply app_inj_len in Hname as [Hhex _]; [|lia].
  by apply uuid_hex_inj.
Qed.

Lemma X12_batch_file_name_tells_uuid_witness : 7%N = 7%N.
Proof.
  apply (X12_batch_file_name_tells_uuid 1000 1000.5 7 7); reflexivity.
Defined.

End PyExtras.

(** * Further properties of the buffer and of the flusher *)

Section BufferExtras.

Variable cfg : config.
Variable extract_meta : string → meta.
Variable dump_size : json → N.

#[local] Set Default Proof Using "Type".

Lemma queue_all_spec (items : list (string * string)) (w : world) :
  ∃ evs,
    buffer (queue_all cfg extract_meta items w) = (buffer w ++ evs)%list
    ∧ (λ ev, (msg ev, source ev)) <$> evs = items
    ∧ (∀ k ev, evs !! k = Some ev →
               stamped cfg extract_meta w (uuids_drawn w + k) ev).
Proof.
  revert w. induction items as [|[line src] items IH]; intros w.
  - exists []. split; [by rewrite app_nil_r|]. split; [done|]. by intros.
  - change (queue_all cfg extract_meta ((line, src) :: items) w)
      with (queue_all cfg extract_meta items
              (queue_line cfg extract_meta line src w).2).
    set (w1 := (queue_line cfg extract_meta line src w).2).
    destruct (IH w1) as (evs & Hbuf & Hitems & Hst).
    set (ev := {| client_uuid := Py.uuid_str (uuids w (uuids_drawn w));
                  ts := Py.int (clock w); source := src; msg := line;
                  ev_meta := extract_meta line;
                  collector_host := HOSTNAME cfg |}).
    exists (ev :: evs). split; [|split].
    + rewrite Hbuf. change (buffer w1) with (buffer w ++ [ev])%list.
      by rewrite <- app_assoc.
    + rewrite fmap_cons. by rewrite Hitems.
    + intros [|k] e Hk; simpl in Hk.
      * injection Hk as <-. rewrite Nat.add_0_r. by repeat split.
      * specialize (Hst k e Hk).
        change (uuids_drawn w1) with (S (uuids_drawn w)) in Hst.
        change (uuids w1) with (uuids w) in Hst.
        by rewrite Nat.add_succ_r.
Qed.

(** X10: whatever the interleaving of the followers, the buffer grows at
    its end by one event per [queue_line] call, in the order of the calls;
    each event carries the line and the path it was queued with, the
    collector's host name and the meta data extracted from the line. *)
Theorem X10_buffer_keeps_call_order (items : list (string * string)) (w : world) :
  ∃ evs,
    buffer (queue_all cfg extract_meta items w) = (buffer w ++ evs)%list
    ∧ (λ ev, (msg ev, source ev)) <$> evs = items
    ∧ Forall (λ ev, collector_host ev = HOSTNAME cfg
                    ∧ ev_meta ev = extract_meta (msg ev)) evs.
Proof.
  destruct (queue_all_spec items w) as (evs & Hbuf & Hitems & Hst).
  exists evs. split; [done|]. split; [done|].
  rewrite Forall_lookup. intros k ev Hk. by destruct (Hst k ev Hk) as (_ & ? & ?).
Qed.

(** X11: as long as [uuid4()] does not repeat, the events queued in a run
    have pairwise different [client_uuid]s. *)
Theorem X11_client_uuids_distinct (items : list (string * string)) (w : world)
  (Hfresh : fresh_uuids w (length items)) :
  ∃ evs,
    buffer (queue_all cfg extract_meta items w) = (buffer w ++ evs)%list
    ∧ length evs = length items
    ∧ NoDup (client_uuid <$> evs).
Proof.
  destruct (queue_all_spec items w) as (evs & Hbuf & Hitems & Hst).
  assert (Hlen : length evs = length items).
  { apply (f_equal length) in Hitems. by rewrite length_fmap in Hitems. }
  exists evs. split; [done|]. split; [done|].
  apply NoDup_alt. intros i j u Hi Hj.
  rewrite list_lookup_fmap in Hi, Hj.
  destruct (evs !! i) as [ei|] eqn:Ei; [|done].
  destruct (evs !! j) as [ej|] eqn:Ej; [|done].
  simpl in Hi, Hj. injection Hi as Hi. injection Hj as Hj.
  destruct (Hst i ei Ei) as (Hui & _). destruct (Hst j ej Ej) as (Huj & _).
  assert (Hi_lt : (i < length items)%nat)
    by (rewrite <- Hlen; by eapply lookup_lt_Some).
  assert (Hj_lt : (j < length items)%nat)
    by (rewrite <- Hlen; by eapply lookup_lt_Some).
  destruct (Hfresh i j Hi_lt Hj_lt) as [Hri Hinj].
  destruct (Hfresh j i Hj_lt Hi_lt) as [Hrj _].
  apply Hinj. apply PyExtras.uuid_str_inj; [done|done|congruence].
Qed.

(** [follower_thread] queues what [follow] yields. *)
Lemma perform_all_buffer (path : string) (out : list Follower.effect) (w : world) :
  ∃ evs,
    buffer (perform_all cfg extract_meta path out w).2 = (buffer w ++ evs)%list
    ∧ msg <$> evs = Follower.yields out
    ∧ Forall (λ ev, source ev = path) evs.
Proof.
  revert w. induction out as [|x out IH]; intros w.
  - exists []. by rewrite app_nil_r.
  - assert (Hcons : (perform_all cfg extract_meta path (x :: out) w).2
                    = (perform_all cfg extract_meta path out
                         (perform cfg extract_meta path x w).2).2).
    { cbn [perform_all]. unfold bind.
      by destruct (perform cfg extract_meta path x w). }
    rewrite Hcons.
    destruct (IH (perform cfg extract_meta path x w).2)
      as (evs & Hbuf & Hmsg & Hsrc).
    destruct x as [line|d|e].
    + eexists (_ :: evs). split; [|split].
      * rewrite Hbuf. cbn [perform]. simpl. rewrite <- app_assoc. reflexivity.
      * rewrite fmap_cons. simpl. by rewrite Hmsg.
      * by constructor.
    + exists evs. by repeat split.
    + exists evs. by repeat split.
Qed.

(** A follower thread appends to the buffer one event for each line
    that [follow] yields, in the order of the yields and with the thread's
    path as source, and ends in the state in which the generator ends. *)
Lemma follower_thread_queues_yields
  (path : string) (trace : list Follower.env) (w : world) :
  (follower_thread cfg extract_meta path trace w).1 = (Follower.follow trace).1
  ∧ ∃ evs,
      buffer (follower_thread cfg extract_meta path trace w).2
      = (buffer w ++ evs)%list
      ∧ msg <$> evs = Follower.yields (Follower.follow trace).2
      ∧ Forall (λ ev, source ev = path) evs.
Proof.
  unfold follower_thread. destruct (Follower.follow trace) as [st out].
  unfold bind.
  destruct (perform_all_buffer path out w) as (evs & Hbuf & Hmsg & Hsrc).
  destruct (perform_all cfg extract_meta path out w) as [u w1].
  simpl in *. split; [done|]. by exists evs.
Qed.

(** *** Shutdown *)

Lemma flush_batch_buffer (batch : list event) (w : world) :
  buffer (flush_batch cfg dump_size batch w).2 = buffer w.
Proof.
  destruct (spool_exists w) eqn:Hdir; [|by rewrite flush_batch_missing].
  destruct (flush_spool_once_frame cfg w) as (Hb1 & _).
  destruct (timeouts_ok cfg) eqn:Hok; [|by rewrite flush_batch_invalid].
  destruct (flush_batch_returns cfg dump_size batch w Hdir Hok) as (w3 & -> & ->).
  destruct (send_batch_http_frame cfg (events_json batch)
              (flush_spool_once cfg w).2) as (Hb2 & _).
  destruct (spool_batch_outcome cfg dump_size (events_json batch)
              (send_batch_http cfg (events_json batch)
                 (flush_spool_once cfg w).2).2) as [Hb3 _].
  cbn [snd]. destruct (is_success _); simpl; congruence.
Qed.

(** X13: when the loop of [background_flusher] was left because shutdown
    was observed, the buffer is empty afterwards: the forced flush takes
    whatever is buffered, however few the events and however recent the
    last flush, also when the flush or the drain after it raises. *)
Theorem X13_shutdown_empties_buffer (fuel : nat) (w : world)
  (Hstopped : (background_flusher cfg dump_size fuel w).1 ≠ Returns false) :
  buffer (background_flusher cfg dump_size fuel w).2 = [].
Proof.
  unfold background_flusher, bind in *.
  destruct (flusher_loop cfg dump_size fuel w) as [stopped w1].
  destruct stopped; [|done]. clear Hstopped.
  assert (Hempty : buffer (attempt_flush_buffer cfg dump_size true w1).2 = []).
  { unfold attempt_flush_buffer, bind, locked_drain.
    destruct (buffer w1) as [|e l] eqn:Hb; [exact Hb|].
    cbn [negb andb]. by rewrite flush_batch_buffer. }
  unfold bind_result.
  destruct (attempt_flush_buffer cfg dump_size true w1) as [[u|e] w2]; [|done].
  destruct (flush_spool_once_frame cfg w2) as (Hb & _).
  destruct (flush_spool_once cfg w2) as [[r|e] w3]; simpl in *; congruence.
Qed.

End BufferExtras.

(** * The age trigger of the flusher *)

Section FlusherExtras.

Variable cfg : config.
Variable dump_size : json → N.

#[local] Set Default Proof Using "Type".

Lemma same_run_refl (w : world) : same_run w w.
Proof.
  repeat split; [intros; apply Qle_refl|]. exists []. by rewrite app_nil_r.
Qed.

Lemma same_run_trans (w1 w2 w3 : world) :
  same_run w1 w2 → same_run w2 w3 → same_run w1 w3.
Proof.
  intros (Hn1 & Hs1 & Hc1 & m1 & Hr1) (Hn2 & Hs2 & Hc2 & m2 & Hr2).
  split; [congruence|]. split; [congruence|]. split.
  - intros Ht. eapply Qle_trans; [by apply Hc1|]. apply Hc2.
    unfold replies_take_time in *. by rewrite Hn1.
  - exists (m1 ++ m2)%list. by rewrite Hr2, Hr1, <- app_assoc.
Qed.

(** A step that touches neither the oracles nor the clock nor the POSTs. *)
Lemma same_run_still (w w' : world) :
  net w' = net w → shutdown_at w' = shutdown_at w → clock w' = clock w →
  requests w' = requests w → same_run w w'.
Proof.
  intros Hn Hs Hc Hr. split; [done|]. split; [done|]. split.
  - intros _. rewrite Hc. apply Qle_refl.
  - exists []. by rewrite Hr, app_nil_r.
Qed.

Lemma send_batch_http_run (doc : json) (w : world) :
  same_run w (send_batch_http cfg doc w).2.
Proof.
  destruct (timeouts_ok cfg) eqn:Hok;
    [|rewrite send_batch_http_raises by done; apply same_run_refl].
  destruct (send_batch_http_spec cfg doc w Hok) as (_ & Hsent & _ & _).
  destruct (send_batch_http_frame cfg doc w) as (_ & _ & Hn & _ & Hs & _).
  unfold same_run. split; [done|]. split; [done|]. split; [|by eexists].
  intros Ht. specialize (Ht (length (requests w))).
  assert (Hc : clock (send_batch_http cfg doc w).2
               = (clock w + elapsed (net w (length (requests w))))%Q).
  { unfold send_batch_http, bind_result, bind, requests_post.
    cbn [build_request req_timeout]. fold (timeouts_ok cfg). rewrite Hok.
    simpl. destruct (outcome (net w (length (requests w)))) as [st tx|]; simpl;
      [destruct (success_status st)|]; done. }
  rewrite Hc. lra.
Qed.

Lemma flush_spool_files_run (files : list string) (w : world) :
  same_run w (flush_spool_files cfg files w).2.
Proof.
  revert w. induction files as [|f rest IH]; intros w; [apply same_run_refl|].
  destruct (flush_spool_files_cases cfg f rest w)
    as [[_ ->]|[(doc & _ & _ & _ & ->)|(doc & _ & _ & _ & ->)]].
  - eapply same_run_trans; [|apply IH]. by apply same_run_still.
  - eapply same_run_trans; [apply (send_batch_http_run doc w)|].
    eapply same_run_trans; [|apply IH]. by apply same_run_still.
  - eapply same_run_trans; [apply (send_batch_http_run doc w)|].
    by apply same_run_still.
Qed.

Lemma flush_spool_once_run (w : world) : same_run w (flush_spool_once cfg w).2.
Proof.
  rewrite flush_spool_once_world.
  exact (flush_spool_files_run _ (set_drains (drains w ++ [clock w]) w)).
Qed.

Lemma spool_batch_run (doc : json) (w : world) :
  same_run w (spool_batch cfg dump_size doc w).2.
Proof.
  unfold spool_batch, bind, gets, time_time, uuid4, write_json, log, modify.
  simpl. destruct (MAX_SPOOL_BYTES cfg <? Z.of_N (spool_total (spool w)));
    [by apply same_run_still|].
  simpl. destruct (spool_exists w && spool_writable w && _); simpl;
    by apply same_run_still.
Qed.

(** A flush that can return makes the POST of its batch. *)
Lemma flush_batch_run (batch : list event) (w : world) :
  spool_exists w = true → timeouts_ok cfg = true →
  (flush_batch cfg dump_size batch w).1 = Returns tt
  ∧ same_run w (flush_batch cfg dump_size batch w).2
  ∧ spool_exists (flush_batch cfg dump_size batch w).2 = true
  ∧ build_request cfg (events_json batch)
    ∈ requests (flush_batch cfg dump_size batch w).2.
Proof.
  intros Hdir Hok.
  destruct (flush_batch_returns cfg dump_size batch w Hdir Hok) as (w3 & Heq & Hw3).
  assert (Hret : (flush_batch cfg dump_size batch w).1 = Returns tt)
    by (by rewrite Heq).
  split; [done|]. split; [|split].
  - rewrite Heq. cbn [snd].
    eapply same_run_trans; [|by apply (same_run_still w3)].
    rewrite Hw3.
    eapply same_run_trans; [apply flush_spool_once_run|].
    eapply same_run_trans; [apply send_batch_http_run|].
    destruct (is_success _); [by apply same_run_still|apply spool_batch_run].
  - rewrite Heq, Hw3. cbn [snd].
    destruct (flush_spool_once_frame cfg w) as (_ & _ & _ & _ & _ & He1).
    destruct (send_batch_http_frame cfg (events_json batch)
                (flush_spool_once cfg w).2) as (_ & _ & _ & _ & _ & He2).
    destruct (is_success _); simpl; [congruence|].
    rewrite <- Hdir, <- He1, <- He2.
    unfold spool_batch, bind, gets, time_time, uuid4, write_json, log, modify.
    simpl. destruct (MAX_SPOOL_BYTES cfg <? _); [done|]. simpl.
    by destruct (_ && _ && _).
  - destruct (flush_batch_requests cfg dump_size batch w Hret) as [earlier ->].
    apply elem_of_app. right. by left.
Qed.

(** A pass whose flush attempt returns goes on with the gated drain and
    the sleep. *)
Lemma flusher_tick_returns (w : world) :
  (attempt_flush_buffer cfg dump_size false w).1 = Returns tt →
  (flusher_tick cfg dump_size w).2
  = rest_of_tick cfg (attempt_flush_buffer cfg dump_size false w).2.
Proof.
  unfold flusher_tick, flusher_try, rest_of_tick, bind, bind_result,
    time_time, gets.
  destruct (attempt_flush_buffer cfg dump_size false w) as [[[]|e] w1];
    [|discriminate].
  intros _. cbn [snd]. destruct (Py.int (clock w1) `mod` 30 =? 0); [|done].
  by destruct (flush_spool_once cfg w1) as [[r|e] w2].
Qed.

Lemma rest_of_tick_spec (v : world) :
  buffer (rest_of_tick cfg v) = buffer v
  ∧ last_flush (rest_of_tick cfg v) = last_flush v
  ∧ net (rest_of_tick cfg v) = net v
  ∧ shutdown_at (rest_of_tick cfg v) = shutdown_at v
  ∧ spool_exists (rest_of_tick cfg v) = spool_exists v
  ∧ (replies_take_time v → (clock v + 0.5 <= clock (rest_of_tick cfg v))%Q)
  ∧ ∃ more, requests (rest_of_tick cfg v) = (requests v ++ more)%list.
Proof.
  unfold rest_of_tick.
  destruct (Py.int (clock v) `mod` 30 =? 0).
  - destruct (flush_spool_once_frame cfg v) as (Hb & Hl & Hn & _ & Hs & He).
    destruct (flush_spool_once_run v) as (_ & _ & Hc & Hr).
    destruct (flush_spool_once cfg v) as [[r|e] v1]; simpl in *;
      (repeat split; try done; intros Ht; specialize (Hc Ht); lra).
  - simpl. repeat split; try done; [intros; lra|]. exists [].
    by rewrite app_nil_r.
Qed.

Lemma flusher_loop_step (n : nat) (w : world) :
  shutdown_at w = None →
  flusher_loop cfg dump_size (S n) w
  = flusher_loop cfg dump_size n (flusher_tick cfg dump_size w).2.
Proof.
  intros Hs. cbn [flusher_loop]. unfold bind at 1.
  unfold shutdown_is_set, gets. rewrite Hs. unfold bind.
  by destruct (flusher_tick cfg dump_size w).
Qed.

(** With nothing buffered, the passes leave the buffer empty and only add
    to the POSTs made. *)
Lemma flusher_loop_idle (n : nat) (w : world) :
  shutdown_at w = None → buffer w = [] →
  buffer (flusher_loop cfg dump_size n w).2 = []
  ∧ ∃ more, requests (flusher_loop cfg dump_size n w).2
            = (requests w ++ more)%list.
Proof.
  revert w. induction n as [|n IH]; intros w Hs Hb.
  - simpl. split; [done|]. exists []. by rewrite app_nil_r.
  - rewrite flusher_loop_step by done.
    assert (Hatt : attempt_flush_buffer cfg dump_size false w = (Returns tt, w)).
    { unfold attempt_flush_buffer, bind, locked_drain. by rewrite Hb. }
    rewrite flusher_tick_returns by (by rewrite Hatt).
    rewrite Hatt. cbn [snd].
    destruct (rest_of_tick_spec w) as (Hb' & _ & _ & Hs' & _ & _ & m1 & Hr1).
    destruct (IH (rest_of_tick cfg w)) as (He & m2 & Hr2); [congruence..|].
    split; [done|]. exists (m1 ++ m2)%list. by rewrite Hr2, Hr1, <- app_assoc.
Qed.

Lemma inject_succ (n : nat) :
  (inject_Z (Z.of_nat (S n)) == inject_Z (Z.of_nat n) + 1)%Q.
Proof.
  rewrite Nat2Z.inj_succ. unfold Z.succ. by rewrite inject_Z_plus.
Qed.

(** A pass that takes the batch, and the passes after it. *)
Lemma flusher_loop_after_take (n : nat) (w : world) (batch : list event) :
  timeouts_ok cfg = true → spool_exists w = true →
  shutdown_at w = None →
  (locked_drain cfg false w).1 = Some batch →
  buffer (flusher_loop cfg dump_size n (flusher_tick cfg dump_size w).2).2 = []
  ∧ build_request cfg (events_json (buffer w))
    ∈ requests (flusher_loop cfg dump_size n (flusher_tick cfg dump_size w).2).2.
Proof.
  intros Hok Hdir Hrun Htaken.
  destruct (locked_drain_some cfg false w batch Htaken) as (-> & _ & Heq).
  assert (Hatt : attempt_flush_buffer cfg dump_size false w
                 = flush_batch cfg dump_size (buffer w) (set_buffer [] w)).
  { unfold attempt_flush_buffer, bind. by rewrite Heq. }
  destruct (flush_batch_run (buffer w) (set_buffer [] w) Hdir Hok)
    as (Hret & (_ & Hs1 & _ & _) & _ & Hin).
  rewrite flusher_tick_returns by (by rewrite Hatt).
  rewrite Hatt.
  set (v := (flush_batch cfg dump_size (buffer w) (set_buffer [] w)).2) in *.
  pose proof (flush_batch_buffer cfg dump_size (buffer w) (set_buffer [] w))
    as Hb1.
  fold v in Hb1.
  destruct (rest_of_tick_spec v) as (Hb2 & _ & _ & Hs2 & _ & _ & m2 & Hr2).
  destruct (flusher_loop_idle n (rest_of_tick cfg v)) as (He & m3 & Hr3).
  - rewrite Hs2, Hs1. exact Hrun.
  - rewrite Hb2, Hb1. reflexivity.
  - split; [exact He|]. rewrite Hr3, Hr2.
    apply elem_of_app. left. apply elem_of_app. by left.
Qed.

Lemma locked_drain_none (w : world) :
  (locked_drain cfg false w).1 = None →
  attempt_flush_buffer cfg dump_size false w = (Returns tt, w)
  ∧ (buffer w ≠ [] →
     (clock w - last_flush w < FLUSH_INTERVAL cfg)%Q).
Proof.
  unfold attempt_flush_buffer, bind, locked_drain.
  destruct (buffer w) as [|e l]; [done|].
  destruct (negb false && _ && Py.ltb _ _) eqn:Hc; [|done].
  intros _. split; [done|]. intros _.
  apply andb_true_iff in Hc as [_ Hlt]. unfold Py.ltb in Hlt.
  by destruct (Qlt_le_dec _ _).
Qed.

(** X14: with positive timeouts, the spool directory in place, shutdown
    unset and nothing else queued meanwhile, buffered events do not
    outlive the flush interval by more than the passes it takes the clock
    to get there: if [n] half-second sleeps bring the age of the last
    flush to FLUSH_INTERVAL, then after [n + 1] passes of the flusher loop
    the buffer is empty and a POST carrying exactly the events that were
    buffered has been made. *)
Theorem X14_buffered_events_flushed_by_age (n : nat) (w : world)
  (Htimeouts : timeouts_ok cfg = true) (Hdir : spool_exists w = true)
  (Hrun : shutdown_at w = None) (Htime : replies_take_time w)
  (Hpending : buffer w ≠ [])
  (Hage : (FLUSH_INTERVAL cfg
           <= clock w - last_flush w + inject_Z (Z.of_nat n) * 0.5)%Q) :
  buffer (flusher_loop cfg dump_size (S n) w).2 = []
  ∧ build_request cfg (events_json (buffer w))
    ∈ requests (flusher_loop cfg dump_size (S n) w).2.
Proof.
  revert w Hdir Hrun Htime Hpending Hage.
  induction n as [|n IH]; intros w Hdir Hrun Htime Hpending Hage;
    rewrite flusher_loop_step by done;
    destruct (locked_drain cfg false w).1 as [batch|] eqn:Hdrain;
    try (by apply (flusher_loop_after_take _ w batch)).
  - (* not due, and no pass left: impossible *)
    destruct (locked_drain_none w Hdrain) as [_ Hlt].
    specialize (Hlt Hpending).
    change (inject_Z (Z.of_nat 0)) with 0%Q in Hage. lra.
  - (* not due: the pass sleeps and the clock moves on *)
    destruct (locked_drain_none w Hdrain) as [Hatt Hlt].
    rewrite flusher_tick_returns by (by rewrite Hatt).
    rewrite Hatt. cbn [snd].
    destruct (rest_of_tick_spec w) as (Hb & Hl & Hn & Hs & He & Hc & _).
    specialize (Hc Htime).
    destruct (IH (rest_of_tick cfg w)) as (Hemp & Hin).
    + congruence.
    + congruence.
    + unfold replies_take_time in *. by rewrite Hn.
    + congruence.
    + rewrite Hl. rewrite inject_succ in Hage. lra.
    + rewrite Hb in Hin. by split.
Qed.

End FlusherExtras.

(** * Properties of [extract_meta] *)

Module ReFacts.
Import Re ReDen.

Lemma plus_loop_sound {R : Type} (p : ascii → bool) (last : ascii) (s : string)
  (k : option ascii → string → option R) (res : R) :
  plus_loop p last s k = Some res →
  ∃ txt s', Py.all_chars p txt = true ∧ s = txt ++ s'
            ∧ k (end_of (Some last) txt) s' = Some res.
Proof.
  revert last. induction s as [|c s IH]; intros last Hres.
  - exists EmptyString, EmptyString. by repeat split.
  - cbn [plus_loop] in Hres. destruct (p c) eqn:Hc.
    + destruct (plus_loop p c s k) as [r|] eqn:Hrec.
      * injection Hres as ->. destruct (IH c Hrec) as (txt & s' & Hall & -> & Hk).
        exists (String c txt), s'. simpl. rewrite Hc, Hall. by repeat split.
      * exists EmptyString, (String c s). by repeat split.
    + exists EmptyString, (String c s). by repeat split.
Qed.

(** Whatever the matcher accepts, the pattern denotes. *)
Lemma matches_sound {R : Type} (r : re) (prev : option ascii) (s : string)
  (k : option ascii → string → option R) (res : R) :
  matches r prev s k = Some res →
  ∃ prev' s', den r prev s prev' s' ∧ k prev' s' = Some res.
Proof.
  revert prev s k. induction r as [|c|p|r1 IH1 r2 IH2|r1 IH1 r2 IH2|r1 IH1|p|];
    intros prev s k Hres; cbn [matches] in Hres.
  - exists prev, s. by repeat split.
  - destruct s as [|x s']; [done|]. destruct (Ascii.eqb x c) eqn:Hx; [|done].
    apply Ascii.eqb_eq in Hx as ->. exists (Some c), s'. by repeat split.
  - destruct s as [|x s']; [done|]. destruct (p x) eqn:Hx; [|done].
    exists (Some x), s'. split; [|done]. by exists x.
  - apply IH1 in Hres as (pm & sm & Hd1 & Hres).
    apply IH2 in Hres as (prev' & s' & Hd2 & Hk).
    exists prev', s'. split; [|done]. by exists pm, sm.
  - destruct (matches r1 prev s k) as [r|] eqn:H1.
    + injection Hres as ->. apply IH1 in H1 as (prev' & s' & Hd & Hk).
      exists prev', s'. split; [by left|done].
    + apply IH2 in Hres as (prev' & s' & Hd & Hk).
      exists prev', s'. split; [by right|done].
  - destruct (matches r1 prev s k) as [r|] eqn:H1.
    + injection Hres as ->. apply IH1 in H1 as (prev' & s' & Hd & Hk).
      exists prev', s'. split; [by left|done].
    + exists prev, s. split; [by right|done].
  - destruct s as [|x s0]; [done|]. destruct (p x) eqn:Hx; [|done].
    apply plus_loop_sound in Hres as (txt & s' & Hall & -> & Hk).
    exists (end_of (Some x) txt), s'. split; [|done]. by exists x, txt.
  - destruct (at_boundary prev s) eqn:Hb; [|done].
    exists prev, s. by repeat split.
Qed.

(** A search finds its match at some place of the text. *)
Lemma search_from_sound {R : Type} (f : option ascii → string → option R)
  (prev : option ascii) (s : string) (res : R) :
  search_from f prev s = Some res →
  ∃ pre s0, s = pre ++ s0 ∧ f (end_of prev pre) s0 = Some res.
Proof.
  revert prev. induction s as [|c s IH]; intros prev Hres;
    cbn [search_from] in Hres.
  - destruct (f prev EmptyString) eqn:Hf; [|done].
    exists EmptyString, EmptyString. split; [done|]. by rewrite <- Hres.
  - destruct (f prev (String c s)) eqn:Hf.
    + exists EmptyString, (String c s). split; [done|]. by rewrite <- Hres.
    + apply IH in Hres as (pre & s0 & -> & Hf0).
      exists (String c pre), s0. by split.
Qed.

Lemma matched_app (txt rest : string) : matched (txt ++ rest) rest = txt.
Proof.
  unfold matched. rewrite PyExtras.length_app_str.
  replace (String.length txt + String.length rest - String.length rest)%nat
    with (String.length txt) by lia.
  induction txt as [|c txt IH]; simpl.
  - by destruct rest.
  - by rewrite IH.
Qed.

Lemma digit_word (c : ascii) : digit c = true → word c = true.
Proof. unfold word. intros ->. by rewrite orb_true_r. Qed.

Lemma den_lits (txt : string) (prev : option ascii) (s : string)
  (prev' : option ascii) (s' : string) :
  den (lits txt) prev s prev' s' → s = txt ++ s'.
Proof.
  revert prev s. induction txt as [|c txt IH]; intros prev s Hd; simpl in Hd.
  - by destruct Hd as [_ ->].
  - destruct Hd as (pm & sm & [-> ->] & Hd). apply IH in Hd as ->. done.
Qed.

(** What [octet] takes is a numeral of one to three digits, at most 255. *)
Lemma den_octet (prev : option ascii) (s : string)
  (prev' : option ascii) (s' : string) :
  den octet prev s prev' s' →
  ∃ o, octet_text o ∧ s = o ++ s'
       ∧ (∃ c r, o = String c r ∧ word c = true)
       ∧ (∃ c, prev' = Some c ∧ word c = true).
Proof.
  unfold octet. cbn [den].
  intros [H|[H|H]].
  - destruct H as (p1 & s1 & [-> ->] & p2 & s2 & [-> ->] & x & Hx & -> & ->).
    exists (String "2" (String "5" (String x EmptyString))).
    assert (Hd : digit x = true).
    { unfold digit, in_range in *. apply andb_true_iff in Hx as [H1 H2].
      apply Nat.leb_le in H1, H2. apply andb_true_iff.
      split; apply Nat.leb_le; lia. }
    split; [|split; [done|split]].
    + unfold octet_text. split; [simpl; by rewrite Hd|]. split; [simpl; lia|].
      unfold in_range in Hx. apply andb_true_iff in Hx as [H1 H2].
      apply Nat.leb_le in H1, H2. cbn -[Nat.mul Nat.add Nat.sub nat_of_ascii].
      change (nat_of_ascii "2") with 50%nat. change (nat_of_ascii "5") with 53%nat.
      lia.
    + by exists "2"%char, (String "5" (String x EmptyString)).
    + exists x. split; [done|]. by apply digit_word.
  - destruct H as (p1 & s1 & [-> ->] & p2 & s2 & (x & Hx & -> & ->)
                   & y & Hy & -> & ->).
    exists (String "2" (String x (String y EmptyString))).
    assert (Hd : digit x = true).
    { unfold digit, in_range in *. apply andb_true_iff in Hx as [H1 H2].
      apply Nat.leb_le in H1, H2. apply andb_true_iff.
      split; apply Nat.leb_le; lia. }
    split; [|split; [done|split]].
    + unfold octet_text. split; [simpl; by rewrite Hd, Hy|]. split; [simpl; lia|].
      unfold digit, in_range in Hx, Hy.
      apply andb_true_iff in Hx as [H1 H2]. apply andb_true_iff in Hy as [H3 H4].
      apply Nat.leb_le in H1, H2, H3, H4.
      cbn -[Nat.mul Nat.add Nat.sub nat_of_ascii].
      change (nat_of_ascii "2") with 50%nat. lia.
    + by exists "2"%char, (String x (String y EmptyString)).
    + exists y. split; [done|]. by apply digit_word.
  - destruct H as (p1 & s1 & Hone & p2 & s2 & (x & Hx & -> & ->) & Hopt).
    assert (Hxr : (48 ≤ nat_of_ascii x ≤ 57)%nat).
    { unfold digit, in_range in Hx. apply andb_true_iff in Hx as [H1 H2].
      apply Nat.leb_le in H1, H2. lia. }
    destruct Hone as [[-> ->]|[-> <-]], Hopt as [(y & Hy & -> & ->)|[-> ->]].
    all: try (assert (Hyr : (48 ≤ nat_of_ascii y ≤ 57)%nat);
              [unfold digit, in_range in Hy;
               apply andb_true_iff in Hy as [H1 H2];
               apply Nat.leb_le in H1, H2; lia|]).
    + exists (String "1" (String x (String y EmptyString))).
      split; [|split; [done|split]].
      * unfold octet_text. split; [simpl; by rewrite Hx, Hy|].
        split; [simpl; lia|].
        cbn -[Nat.mul Nat.add Nat.sub nat_of_ascii].
        change (nat_of_ascii "1") with 49%nat. lia.
      * by exists "1"%char, (String x (String y EmptyString)).
      * exists y. split; [done|]. by apply digit_word.
    + exists (String "1" (String x EmptyString)).
      split; [|split; [done|split]].
      * unfold octet_text. split; [simpl; by rewrite Hx|].
        split; [simpl; lia|].
        cbn -[Nat.mul Nat.add Nat.sub nat_of_ascii].
        change (nat_of_ascii "1") with 49%nat. lia.
      * by exists "1"%char, (String x EmptyString).
      * exists x. split; [done|]. by apply digit_word.
    + exists (String x (String y EmptyString)).
      split; [|split; [done|split]].
      * unfold octet_text. split; [simpl; by rewrite Hx, Hy|].
        split; [simpl; lia|].
        cbn -[Nat.mul Nat.add Nat.sub nat_of_ascii]. lia.
      * exists x, (String y EmptyString). split; [done|]. by apply digit_word.
      * exists y. split; [done|]. by apply digit_word.
    + exists (String x EmptyString).
      split; [|split; [done|split]].
      * unfold octet_text. split; [simpl; by rewrite Hx|].
        split; [simpl; lia|].
        cbn -[Nat.mul Nat.add Nat.sub nat_of_ascii]. lia.
      * exists x, EmptyString. split; [done|]. by apply digit_word.
      * exists x. split; [done|]. by apply digit_word.
Qed.

Lemma app_assoc_str (a b c : string) : (a ++ b) ++ c = a ++ (b ++ c).
Proof.
  induction a as [|x a IH]; [done|].
  change (String x ((a ++ b) ++ c) = String x (a ++ (b ++ c))). by rewrite IH.
Qed.

(** X15: on an ASCII line, the [ip] that [extract_meta] returns is a piece
    of the line made of four numerals joined by dots, each of one to three
    digits and at most 255, with no word character right before or right
    after it. *)
Theorem X15_ip_is_dotted_quad (line t : string)
  (Hascii : ascii_text line = true)
  (Hip : ip (extract_meta line) = Some t) :
  ∃ pre post a b c d,
    line = pre ++ t ++ post
    ∧ t = a ++ "." ++ b ++ "." ++ c ++ "." ++ d
    ∧ octet_text a ∧ octet_text b ∧ octet_text c ∧ octet_text d
    ∧ no_word_before pre ∧ no_word_after post.
Proof.
  cbn [ip extract_meta] in Hip. unfold search_ip in Hip.
  apply search_from_sound in Hip as (pre & s0 & -> & Hm).
  apply matches_sound in Hm as (prev' & post & Hden & Ht).
  injection Ht as <-.
  unfold IP_RE in Hden. cbn [den] in Hden.
  destruct Hden as (p0 & s0' & (Hb & -> & ->)
                    & p1 & s1 & (pa & sa & Hoa & [-> ->])
                    & p2 & s2 & (pb & sb & Hob & [-> ->])
                    & p3 & s3 & (pc & sc & Hoc & [-> ->])
                    & p4 & s4 & Hod & (He & -> & <-)).
  apply den_octet in Hoa as (a & Ha & -> & (ca & ra & -> & Hca) & _).
  apply den_octet in Hob as (b & Hb2 & -> & _ & _).
  apply den_octet in Hoc as (c & Hc & -> & _ & _).
  apply den_octet in Hod as (d & Hd & -> & _ & cd & -> & Hcd).
  exists pre, post, (String ca ra), b, c, d.
  assert (Hshape :
    String ca ra ++ String "." (b ++ String "." (c ++ String "." (d ++ post)))
    = (String ca ra ++ "." ++ b ++ "." ++ c ++ "." ++ d) ++ post).
  { rewrite !app_assoc_str. reflexivity. }
  rewrite Hshape, matched_app.
  split; [done|]. split; [done|]. repeat (split; [done|]).
  split.
  - unfold no_word_before. unfold at_boundary in Hb.
    change (String ca ra ++ ?x) with (String ca (ra ++ x)) in Hb.
    cbv beta iota in Hb. rewrite Hca in Hb. by destruct (from_option word false (end_of None pre)).
  - unfold no_word_after. unfold at_boundary in He. cbn [from_option] in He.
    rewrite Hcd in He. destruct post as [|x post]; [done|].
    by destruct (word x).
Qed.

Lemma X15_ip_is_dotted_quad_witness :
  ∃ pre post a b c d,
    "Failed password for user alice from 10.0.0.5 port 22"
    = pre ++ "10.0.0.5" ++ post
    ∧ "10.0.0.5" = a ++ "." ++ b ++ "." ++ c ++ "." ++ d
    ∧ octet_text a ∧ octet_text b ∧ octet_text c ∧ octet_text d
    ∧ no_word_before pre ∧ no_word_after post.
Proof.
  apply (X15_ip_is_dotted_quad
           "Failed password for user alice from 10.0.0.5 port 22" "10.0.0.5");
    vm_compute; reflexivity.
Defined.

(** With a continuation that never fails, [p+] takes all it can. *)
Lemma plus_loop_greedy (p : ascii → bool) (last : ascii) (s : string)
  (g : string → string) :
  ∃ txt s', Py.all_chars p txt = true ∧ s = txt ++ s'
            ∧ match s' with String c _ => p c = false | EmptyString => True end
            ∧ plus_loop p last s (λ _ s2, Some (g s2)) = Some (g s').
Proof.
  revert last. induction s as [|c s IH]; intros last.
  - exists EmptyString, EmptyString. by repeat split.
  - cbn [plus_loop]. destruct (p c) eqn:Hc.
    + destruct (IH c) as (txt & s' & Hall & -> & Hstop & ->).
      exists (String c txt), s'. simpl. rewrite Hc, Hall. by repeat split.
    + exists EmptyString, (String c s). by repeat split.
Qed.

(** X16: on an ASCII line, the [user] that [extract_meta] returns is a
    non-empty run of letters, digits, [_], [-] and [.] that stands in the
    line right after [user=], [for user ] or [user ], and it is the whole
    run: no such character follows it. *)
Theorem X16_user_follows_keyword (line u : string)
  (Hascii : ascii_text line = true)
  (Huser : user (extract_meta line) = Some u) :
  u ≠ EmptyString
  ∧ Py.all_chars user_char u = true
  ∧ ∃ pre kw post,
      (kw = "user=" ∨ kw = "for user " ∨ kw = "user ")
      ∧ line = pre ++ kw ++ u ++ post
      ∧ no_user_char_after post.
Proof.
  cbn [user extract_meta] in Huser. unfold search_user in Huser.
  apply search_from_sound in Huser as (pre & s0 & -> & Hm).
  apply matches_sound in Hm as (p1 & s1 & Hden & Hplus).
  cbn [matches] in Hplus. destruct s1 as [|x s1']; [done|].
  destruct (user_char x) eqn:Hx; [|done].
  destruct (plus_loop_greedy user_char x s1' (λ s2, matched (String x s1') s2))
    as (txt & post & Hall & -> & Hstop & Hgreedy).
  rewrite Hgreedy in Hplus. injection Hplus as <-.
  change (String x (txt ++ post)) with (String x txt ++ post).
  rewrite matched_app.
  split; [done|]. split; [simpl; by rewrite Hx, Hall|].
  unfold user_prefix in Hden. cbn [den] in Hden.
  destruct Hden as [Hk|[Hk|Hk]]; apply den_lits in Hk as ->.
  - exists pre, "user=", post. split; [by left|]. split; [|done].
    reflexivity.
  - exists pre, "for user ", post. split; [by right; left|]. split; [|done].
    reflexivity.
  - exists pre, "user ", post. split; [by right; right|]. split; [|done].
    reflexivity.
Qed.

Lemma X16_user_follows_keyword_witness :
  "alice" ≠ EmptyString
  ∧ Py.all_chars user_char "alice" = true
  ∧ ∃ pre kw post,
      (kw = "user=" ∨ kw = "for user " ∨ kw = "user ")
      ∧ "Failed password for user alice from 10.0.0.5 port 22"
        = pre ++ kw ++ "alice" ++ post
      ∧ no_user_char_after post.
Proof.
  apply (X16_user_follows_keyword
           "Failed password for user alice from 10.0.0.5 port 22" "alice");
    vm_compute; reflexivity.
Defined.

End ReFacts.

(** * Failures and order of the POSTs *)

Section DrainExtras.
Import SpoolOrder.

Variable cfg : config.
Variable dump_size : json → N.

#[local] Set Default Proof Using "Type".

Lemma flush_spool_files_one_failure (files : list string) (w : world) (i : nat) :
  (length (requests w) ≤ i)%nat →
  (S i < length (requests (flush_spool_files cfg files w).2))%nat →
  is_success (outcome (net w i)) = true.
Proof.
  revert w. induction files as [|f rest IH]; intros w Hlo Hhi.
  - simpl in Hhi. lia.
  - destruct (flush_spool_files_cases cfg f rest w)
      as [[_ Heq]|[(doc & _ & Htime & Hok & Heq)|(doc & _ & Htime & _ & Heq)]];
      rewrite Heq in Hhi.
    + exact (IH (unlink f (log (LogCorruptSpoolFile f) w).2).2 Hlo Hhi).
    + destruct (send_batch_http_spec cfg doc w Htime)
        as (Hflag & Hsent & _ & Hmem).
      destruct (decide (i = length (requests w))) as [->|Hne].
      * rewrite Hok in Hflag. by injection Hflag as <-.
      * set (w1 := (log (LogFlushedSpoolFile f)
                      (unlink f (send_batch_http cfg doc w).2).2).2) in *.
        assert (Hrq : requests w1 = (requests w ++ [build_request cfg doc])%list)
          by exact Hsent.
        assert (Hnet : net w1 = net w) by (by destruct Hmem as (_ & _ & _ & ? & _)).
        rewrite <- Hnet. apply (IH w1); [|done].
        rewrite Hrq, length_app. simpl. lia.
    + destruct (send_batch_http_spec cfg doc w Htime) as (_ & Hsent & _ & _).
      simpl in Hhi. rewrite Hsent, length_app in Hhi. simpl in Hhi. lia.
Qed.

(** X8: a drain goes on only after a success: every POST of a drain that
    is followed by another POST of the same drain got a success status, so
    a drain makes at most one POST that fails, and it is its last. *)
Theorem X8_drain_stops_at_first_failure (w : world) (i : nat)
  (Hin : (length (requests w) ≤ i)%nat)
  (Hnot_last : (S i < length (requests (flush_spool_once cfg w).2))%nat) :
  is_success (outcome (net w i)) = true.
Proof.
  rewrite flush_spool_once_world in Hnot_last.
  exact (flush_spool_files_one_failure _
           (set_drains (drains w ++ [clock w]) w) i Hin Hnot_last).
Qed.

(** X17: with positive timeouts, the spool directory in place and the
    endpoint up, a flush sends the backlog before the fresh batch: the
    POSTs of [attempt_flush_buffer] are the documents of the spool files
    that load, oldest file first, and then, last, the batch taken from
    the buffer. *)
Theorem X17_spool_precedes_live
  (w : world) (force : bool) (batch : list event)
  (Htimeouts : timeouts_ok cfg = true) (Hdir : spool_exists w = true)
  (Hup : endpoint_up w)
  (Htaken : (locked_drain cfg force w).1 = Some batch) :
  (attempt_flush_buffer cfg dump_size force w).1 = Returns tt
  ∧ requests (attempt_flush_buffer cfg dump_size force w).2
    = (requests w
       ++ (build_request cfg <$> loadable (spool w) (spool_files (spool w)))
       ++ [build_request cfg (events_json batch)])%list.
Proof.
  destruct (locked_drain_some cfg force w batch Htaken) as (_ & _ & Heq).
  unfold attempt_flush_buffer, bind. rewrite Heq.
  set (v := set_buffer [] w).
  destruct (flush_batch_returns cfg dump_size batch v Hdir Htimeouts)
    as (w3 & -> & ->).
  split; [done|].
  assert (Hreq : requests (flush_spool_once cfg v).2
                 = (requests w
                    ++ (build_request cfg
                          <$> loadable (spool w) (spool_files (spool w))))%list).
  { destruct (flush_spool_once_unfold cfg v Hdir) as [_ ->].
    exact (proj2 (flush_spool_files_endpoint_up cfg (spool_files (spool w))
                    (set_drains (drains w ++ [clock w]) v)
                    Htimeouts (spool_files_NoDup (spool w)) Hup)). }
  destruct (send_batch_http_spec cfg (events_json batch)
              (flush_spool_once cfg v).2 Htimeouts) as (_ & Hsent & _).
  cbn [snd].
  assert (Hall : requests (send_batch_http cfg (events_json batch)
                             (flush_spool_once cfg v).2).2
                 = (requests w
                    ++ (build_request cfg
                          <$> loadable (spool w) (spool_files (spool w)))
                    ++ [build_request cfg (events_json batch)])%list)
    by (by rewrite Hsent, Hreq, <- app_assoc).
  destruct (is_success _); simpl; [done|]. by rewrite spool_batch_requests.
Qed.

(** X18: a flush that raises loses its batch.  When
    [attempt_flush_buffer] has taken a batch and then raises (the spool
    directory is gone, or a timeout is not positive), the buffer is empty,
    no POST has been made, no file has been added to the spool, nothing
    but files removed as corrupt has been logged, and [_last_flush] is as
    it was. *)
Theorem X18_raising_flush_loses_batch
  (w : world) (force : bool) (batch : list event) (e : exn)
  (Htaken : (locked_drain cfg force w).1 = Some batch)
  (Hraises : (attempt_flush_buffer cfg dump_size force w).1 = Raises e) :
  buffer (attempt_flush_buffer cfg dump_size force w).2 = []
  ∧ requests (attempt_flush_buffer cfg dump_size force w).2 = requests w
  ∧ last_flush (attempt_flush_buffer cfg dump_size force w).2 = last_flush w
  ∧ (∀ name d,
       spool (attempt_flush_buffer cfg dump_size force w).2 !! name = Some d →
       spool w !! name = Some d)
  ∧ (∀ entry,
       entry ∈ logs (attempt_flush_buffer cfg dump_size force w).2 →
       entry ∈ logs w ∨ ∃ f, entry = LogCorruptSpoolFile f).
Proof.
  destruct (locked_drain_some cfg force w batch Htaken) as (_ & _ & Heq).
  revert Hraises. unfold attempt_flush_buffer, bind. rewrite Heq.
  set (v := set_buffer [] w). intros Hraises.
  destruct (flush_batch_raises cfg dump_size batch v e Hraises)
    as (Hb & Hl & Hr & Hs).
  do 4 (split; [done|]).
  destruct (spool_exists v) eqn:Hdir.
  - destruct (timeouts_ok cfg) eqn:Hok.
    + destruct (flush_batch_returns cfg dump_size batch v Hdir Hok)
        as (w3 & Hret & _).
      by rewrite Hret in Hraises.
    + rewrite flush_batch_invalid by done. cbn [snd].
      destruct (flush_spool_once_unfold cfg v Hdir) as [_ ->].
      clear Hraises Hb Hl Hr Hs.
      generalize (spool_files (spool v)).
      assert (Hgen : ∀ files u entry,
                entry ∈ logs (flush_spool_files cfg files u).2 →
                entry ∈ logs u ∨ ∃ f, entry = LogCorruptSpoolFile f).
      { induction files as [|f rest IH]; intros u entry Hin; [by left|].
        destruct (flush_spool_files_cases cfg f rest u)
          as [[_ Hstep]|[(doc & _ & ? & _)|(doc & _ & ? & _)]];
          [|congruence..].
        rewrite Hstep in Hin. apply IH in Hin as [Hin|Hin]; [|by right].
        simpl in Hin. apply elem_of_app in Hin as [Hin|Hin]; [by left|].
        right. exists f. by apply list_elem_of_singleton in Hin. }
      intros files entry Hin. by apply Hgen in Hin.
  - rewrite flush_batch_missing by done. intros entry Hin. by left.
Qed.

End DrainExtras.

(** * The further properties on concrete worlds *)

Module ExtraChecks.
Import AgentScenarios ExtraScenarios SpoolOrder.

Lemma X6_drain_replays_in_order_witness :
  (flush_spool_once cfg0 backlog_world).1 = Returns true
  ∧ requests (flush_spool_once cfg0 backlog_world).2
    = (requests backlog_world
       ++ (build_request cfg0
             <$> loadable (spool backlog_world)
                   (spool_files (spool backlog_world))))%list.
Proof.
  apply (X6_drain_replays_in_order cfg0 backlog_world); [reflexivity..|].
  intros i _. reflexivity.
Defined.

Lemma X7_batch_delivered_spooled_or_logged_witness :
  ∃ d,
    spool (attempt_flush_buffer cfg0 flat_size false offline_world).2
      !! "batch-1005-000000000000000000000000000003e9.json" = Some d
    ∧ is_file d = true ∧ load d = Some (events_json (buffer offline_world)).
Proof.
  assert (Htaken : (locked_drain cfg0 false offline_world).1
                   = Some (buffer offline_world)) by (vm_compute; reflexivity).
  assert (Hret : (attempt_flush_buffer cfg0 flat_size false offline_world).1
                 = Returns tt) by (vm_compute; reflexivity).
  pose proof (X7_batch_delivered_spooled_or_logged cfg0 flat_size offline_world
                false (buffer offline_world) Htaken Hret) as Hx.
  assert (Hlog : last (logs (attempt_flush_buffer cfg0 flat_size false
                               offline_world).2)
                 = Some (LogSpooled
                           "batch-1005-000000000000000000000000000003e9.json"))
    by (vm_compute; reflexivity).
  rewrite Hlog in Hx. exact Hx.
Defined.

Lemma X8_drain_stops_at_first_failure_witness :
  is_success (outcome (net backlog_world 0)) = true.
Proof.
  apply (X8_drain_stops_at_first_failure cfg0 backlog_world 0).
  - vm_compute. lia.
  - vm_compute. lia.
Defined.

Lemma X9_spool_then_drain_round_trip_witness :
  (flush_spool_once cfg0
     (spool_batch cfg0 flat_size (JArr [JStr "a"])
        (start_world 1000 (λ _, accepted))).2).1 = Returns true
  ∧ spool (flush_spool_once cfg0
             (spool_batch cfg0 flat_size (JArr [JStr "a"])
                (start_world 1000 (λ _, accepted))).2).2 = ∅
  ∧ requests (flush_spool_once cfg0
                (spool_batch cfg0 flat_size (JArr [JStr "a"])
                   (start_world 1000 (λ _, accepted))).2).2
    = (requests (start_world 1000 (λ _, accepted))
       ++ [build_request cfg0 (JArr [JStr "a"])])%list.
Proof.
  apply (X9_spool_then_drain_round_trip cfg0 flat_size
           (start_world 1000 (λ _, accepted)) (JArr [JStr "a"]));
    [reflexivity|reflexivity|reflexivity|reflexivity
    |vm_compute; discriminate|reflexivity].
Defined.

Lemma X11_client_uuids_distinct_witness :
  ∃ evs,
    buffer (queue_all cfg0 no_meta two_sources (start_world 1000 (λ _, accepted)))
    = (buffer (start_world 1000 (λ _, accepted)) ++ evs)%list
    ∧ length evs = length two_sources
    ∧ NoDup (client_uuid <$> evs).
Proof.
  apply (X11_client_uuids_distinct cfg0 no_meta two_sources
           (start_world 1000 (λ _, accepted))).
  intros i j Hi Hj. simpl in Hi, Hj. split.
  - do 3 (destruct i as [|i]; [vm_compute; reflexivity|]). lia.
  - simpl. intros Heq. apply Nat2N.inj in Heq. lia.
Defined.

Lemma X13_shutdown_empties_buffer_witness :
  buffer (background_flusher cfg0 flat_size 3 stopping_world).2 = [].
Proof.
  apply (X13_shutdown_empties_buffer cfg0 flat_size 3 stopping_world).
  vm_compute. discriminate.
Defined.

Lemma X14_buffered_events_flushed_by_age_witness :
  buffer (flusher_loop cfg0 flat_size 4 fresh_line_world).2 = []
  ∧ build_request cfg0 (events_json (buffer fresh_line_world))
    ∈ requests (flusher_loop cfg0 flat_size 4 fresh_line_world).2.
Proof.
  apply (X14_buffered_events_flushed_by_age cfg0 flat_size 3 fresh_line_world).
  - reflexivity.
  - reflexivity.
  - reflexivity.
  - intros i. vm_compute. discriminate.
  - vm_compute. discriminate.
  - vm_compute. discriminate.
Defined.

Lemma X17_spool_precedes_live_witness :
  (attempt_flush_buffer cfg0 flat_size false backlog_world).1 = Returns tt
  ∧ requests (attempt_flush_buffer cfg0 flat_size false backlog_world).2
    = (requests backlog_world
       ++ (build_request cfg0
             <$> loadable (spool backlog_world) (spool_files (spool backlog_world)))
       ++ [build_request cfg0 (events_json (buffer backlog_world))])%list.
Proof.
  apply (X17_spool_precedes_live cfg0 flat_size backlog_world false
           (buffer backlog_world)).
  - reflexivity.
  - reflexivity.
  - intros i _. reflexivity.
  - vm_compute. reflexivity.
Defined.

(** REQUEST_TIMEOUT is 0, two batches wait in the spool and a line is
    buffered: the flush raises, and the line is gone with them. *)
Lemma X18_raising_flush_loses_batch_witness :
  buffer backlog_world ≠ []
  ∧ buffer (attempt_flush_buffer cfg_no_timeout flat_size false backlog_world).2
    = []
  ∧ requests
      (attempt_flush_buffer cfg_no_timeout flat_size false backlog_world).2
    = requests backlog_world.
Proof.
  split; [vm_compute; discriminate|].
  destruct (X18_raising_flush_loses_batch cfg_no_timeout flat_size
              backlog_world false (buffer backlog_world) InvalidTimeout)
    as (Hb & Hr & _); [vm_compute; reflexivity..|].
  by split.
Defined.

End ExtraChecks.
